(** * Schedule-risk engine: a shallow embedding of the quantitative core

    The Python sources embedded here are
    [core/digital_twin.py], [core/mc_forecaster.py], [core/risk_model.py],
    [core/features.py], [core/skill_analyzer.py],
    [core/uncertainty_modulator.py], [core/risk_clustering.py] and
    [core/forensic_forecast.py].

    Conventions.
    - Python [float] values are modelled by exact rationals ([Q]); equalities
      between computed numbers are stated with [==] ([Qeq]).  Where a
      statement turns on the rounding of binary64 arithmetic, the function is
      also given on primitive floats (module [Binary64]).
    - A Python [str] is a [string] whose characters are the code points 0 to
      255 of the text; text with a code point above 255 is outside the
      model.
    - A Python [dict] is an insertion-ordered association list with unique
      keys ([odict]); [d.get(k, default)] is [dget_or].
    - Code that can raise returns an [outcome]; [try ... except C] catches an
      exception exactly when its class is a subclass of [C].
    - The global NumPy generator is an explicit state threaded through every
      sampling call. *)

From Stdlib Require Import List String Ascii Bool Arith ZArith QArith Qround
  Qminmax Qabs Lia Lqa Permutation Sorted ListDec.
From Stdlib Require PrimFloat FloatOps SpecFloat.
Import ListNotations.
Local Open Scope string_scope.
Local Open Scope list_scope.
Local Open Scope Q_scope.

(* ================================================================== *)
(** * Python-level building blocks *)
(* ================================================================== *)

Module Py.

(** Exception classes that the engine can meet, with the class hierarchy of
    Python and of networkx ([networkx/exception.py]):
    [NetworkXError] and [NetworkXAlgorithmError] both derive directly from
    [NetworkXException]; [NetworkXUnfeasible] derives from
    [NetworkXAlgorithmError]. *)
Inductive exn_class : Type :=
  | Exception
  | ValueError
  | KeyError
  | IndexError
  | RuntimeError
  | ZeroDivisionError
  | AttributeError
  | TypeError
  | NetworkXException
  | NetworkXError
  | NetworkXAlgorithmError
  | NetworkXUnfeasible.

Definition exn_class_eqb (a b : exn_class) : bool :=
  match a, b with
  | Exception, Exception | ValueError, ValueError | KeyError, KeyError
  | IndexError, IndexError | RuntimeError, RuntimeError
  | ZeroDivisionError, ZeroDivisionError | AttributeError, AttributeError
  | TypeError, TypeError
  | NetworkXException, NetworkXException | NetworkXError, NetworkXError
  | NetworkXAlgorithmError, NetworkXAlgorithmError
  | NetworkXUnfeasible, NetworkXUnfeasible => true
  | _, _ => false
  end.

(** The direct base class. *)
Definition base_class (c : exn_class) : option exn_class :=
  match c with
  | Exception => None
  | ValueError | KeyError | IndexError | RuntimeError | ZeroDivisionError
  | AttributeError | TypeError | NetworkXException => Some Exception
  | NetworkXError | NetworkXAlgorithmError => Some NetworkXException
  | NetworkXUnfeasible => Some NetworkXAlgorithmError
  end.

Fixpoint issubclass_fuel (fuel : nat) (c target : exn_class) : bool :=
  exn_class_eqb c target ||
  match fuel with
  | O => false
  | S k => match base_class c with
           | Some b => issubclass_fuel k b target
           | None => false
           end
  end.

(** [issubclass c target]: would [except target] catch an exception of
    class [c]?  The hierarchy has depth 4. *)
Definition issubclass (c target : exn_class) : bool :=
  issubclass_fuel 4 c target.

(** Result of running code that may raise. *)
Inductive outcome (A : Type) : Type :=
  | Ret (a : A)
  | Raise (e : exn_class).
Arguments Ret {A} a.
Arguments Raise {A} e.

Definition bind {A B : Type} (m : outcome A) (k : A -> outcome B) : outcome B :=
  match m with
  | Ret a => k a
  | Raise e => Raise e
  end.

Notation "x <- m ;; k" := (bind m (fun x => k))
  (at level 61, m at next level, right associativity).

(** [try: body except C: handler] *)
Definition try_except {A : Type} (body : outcome A) (C : exn_class)
    (handler : outcome A) : outcome A :=
  match body with
  | Ret a => Ret a
  | Raise e => if issubclass e C then handler else Raise e
  end.

(** [try: body except: handler] (bare except) *)
Definition try_except_all {A : Type} (body : outcome A) (handler : A) : A :=
  match body with
  | Ret a => a
  | Raise _ => handler
  end.

(** [for x in xs: ...] on a state that the body updates; the loop stops at
    the first exception. *)
Fixpoint for_each {S A : Type} (body : S -> A -> outcome S) (xs : list A)
    (s : S) : outcome S :=
  match xs with
  | [] => Ret s
  | x :: rest => s' <- body s x ;; for_each body rest s'
  end.

(** ** Insertion-ordered dictionaries with string keys *)

Definition odict (V : Type) : Type := list (string * V).

Fixpoint dget {V} (d : odict V) (k : string) : option V :=
  match d with
  | [] => None
  | (k', v) :: r => if String.eqb k k' then Some v else dget r k
  end.

Definition dget_or {V} (d : odict V) (k : string) (default : V) : V :=
  match dget d k with
  | Some v => v
  | None => default
  end.

Definition dmem {V} (d : odict V) (k : string) : bool :=
  match dget d k with
  | Some _ => true
  | None => false
  end.

(** [d[k] = v]: overwrite in place, or append a new key at the end. *)
Fixpoint dset {V} (d : odict V) (k : string) (v : V) : odict V :=
  match d with
  | [] => [(k, v)]
  | (k', v') :: r =>
      if String.eqb k k' then (k', v) :: r else (k', v') :: dset r k v
  end.

(** [del d[k]] *)
Fixpoint ddel {V} (d : odict V) (k : string) : odict V :=
  match d with
  | [] => []
  | (k', v') :: r => if String.eqb k k' then r else (k', v') :: ddel r k
  end.

Definition dkeys {V} (d : odict V) : list string := map fst d.
Definition dvalues {V} (d : odict V) : list V := map snd d.

(** [x in xs] for a list of strings *)
Definition str_in (x : string) (xs : list string) : bool :=
  existsb (String.eqb x) xs.

(** ** Numbers *)

(** Truthiness of an [Optional[float]]: [None] and [0.0] are falsy. *)
Definition truthy (x : option Q) : bool :=
  match x with
  | Some q => negb (Qeq_bool q 0)
  | None => false
  end.

(** [a or b] on optional floats. *)
Definition py_or (a b : option Q) : option Q :=
  if truthy a then a else b.

(** [x or default] where the default is a float literal. *)
Definition py_or_lit (a : option Q) (default : Q) : Q :=
  match a with
  | Some q => if Qeq_bool q 0 then default else q
  | None => default
  end.

Definition Qlt_bool (a b : Q) : bool := negb (Qle_bool b a).

(** [max(xs)] / [min(xs)] with a value for the empty sequence supplied by
    the caller (the sources guard every call). *)
Definition max_list (xs : list Q) (if_empty : Q) : Q :=
  match xs with
  | [] => if_empty
  | x :: r => fold_left Qmax r x
  end.

Definition min_list (xs : list Q) (if_empty : Q) : Q :=
  match xs with
  | [] => if_empty
  | x :: r => fold_left Qmin r x
  end.

(** [int(x)]: truncation toward zero. *)
Definition py_int (x : Q) : Z := Z.quot (Qnum x) (Zpos (Qden x)).

(** [round(x, 1)] and [round(x, 2)]: round half to even at the given
    number of decimals. *)
Definition round_half_even (x : Q) : Z :=
  let f := Qfloor x in
  let r := x - inject_Z f in
  match Qcompare r (1 # 2) with
  | Lt => f
  | Gt => (f + 1)%Z
  | Eq => if Z.even f then f else (f + 1)%Z
  end.

Definition py_round (x : Q) (ndigits : nat) : Q :=
  let scale := inject_Z (10 ^ Z.of_nat ndigits) in
  inject_Z (round_half_even (x * scale)) / scale.

(** ** Strings *)

(** [c.isspace()], the characters removed by [str.strip()]: among the code
    points below 256 these are TAB to CR (9-13), FS to US (28-31), the space
    (32), NEL (133) and the no-break space (160). *)
Definition is_space (c : ascii) : bool :=
  let n := nat_of_ascii c in
  (Nat.eqb n 32) || ((9 <=? n)%nat && (n <=? 13)%nat)
  || ((28 <=? n)%nat && (n <=? 31)%nat)
  || (Nat.eqb n 133) || (Nat.eqb n 160).

(** Truthiness of [s.strip()]: some character is not white space. *)
Fixpoint strip_nonempty (s : string) : bool :=
  match s with
  | EmptyString => false
  | String c r => negb (is_space c) || strip_nonempty r
  end.

(** [sep.join(parts)] *)
Fixpoint join (sep : string) (parts : list string) : string :=
  match parts with
  | [] => EmptyString
  | [p] => p
  | p :: r => (p ++ sep ++ join sep r)%string
  end.

Definition contains_char (sep : ascii) (s : string) : bool :=
  existsb (Ascii.eqb sep) (list_ascii_of_string s).

(** [s.split(sep)] for a one-character separator. *)
Fixpoint split_on (sep : ascii) (s : string) : list string :=
  match s with
  | EmptyString => [EmptyString]
  | String c r =>
      if Ascii.eqb c sep then EmptyString :: split_on sep r
      else match split_on sep r with
           | h :: t => String c h :: t
           | [] => [String c EmptyString]
           end
  end.

Fixpoint lstrip (s : string) : string :=
  match s with
  | EmptyString => EmptyString
  | String c r => if is_space c then lstrip r else s
  end.

Fixpoint rstrip (s : string) : string :=
  match s with
  | EmptyString => EmptyString
  | String c r =>
      match rstrip r with
      | EmptyString => if is_space c then EmptyString else String c EmptyString
      | r' => String c r'
      end
  end.

(** [s.strip()] *)
Definition strip (s : string) : string := rstrip (lstrip s).

(** The lower-case form of one character: among the code points below 256
    the upper-case letters are A to Z (65-90) and the accented capitals 192
    to 222 without the multiplication sign (215); each has its lower-case
    form 32 places further. *)
Definition lower_char (c : ascii) : ascii :=
  let n := nat_of_ascii c in
  if ((65 <=? n)%nat && (n <=? 90)%nat)
     || ((192 <=? n)%nat && (n <=? 222)%nat && negb (Nat.eqb n 215))
  then ascii_of_nat (n + 32) else c.

(** [s.lower()] *)
Fixpoint lower (s : string) : string :=
  match s with
  | EmptyString => EmptyString
  | String c r => String (lower_char c) (lower r)
  end.

(** Truthiness of an [Optional[str]]. *)
Definition str_truthy (s : option string) : bool :=
  match s with
  | Some (String _ _) => true
  | _ => false
  end.

(** A dynamically typed dictionary value: a number, a nested dictionary of
    numbers, or anything else. *)
Inductive pyval : Type :=
  | VNum (q : Q)
  | VDict (d : odict Q)
  | VOther.

End Py.
Import Py.

(* ================================================================== *)
(** * networkx: the part of [DiGraph] that the engine uses *)
(* ================================================================== *)

Module Nx.

(** A [networkx.DiGraph] without attributes: nodes in insertion order and
    edges in insertion order, both without duplicates.  The adjacency views
    [G.successors(u)] and [G.predecessors(v)] list the neighbours in the
    order in which their edges were first added, exactly as the nested
    dictionaries of networkx do. *)
Record DiGraph : Type := mkDiGraph {
  nodes : list string;
  edges : list (string * string)
}.

Definition empty : DiGraph := mkDiGraph [] [].

Definition has_node (g : DiGraph) (n : string) : bool := str_in n (nodes g).

Definition edge_eqb (e1 e2 : string * string) : bool :=
  String.eqb (fst e1) (fst e2) && String.eqb (snd e1) (snd e2).

Definition has_edge (g : DiGraph) (u v : string) : bool :=
  existsb (edge_eqb (u, v)) (edges g).

(** [G.add_node(n)] *)
Definition add_node (g : DiGraph) (n : string) : DiGraph :=
  if has_node g n then g else mkDiGraph (nodes g ++ [n]) (edges g).

(** [G.add_edge(u, v)]: both end points are created when absent, [u]
    first. *)
Definition add_edge (g : DiGraph) (u v : string) : DiGraph :=
  let g2 := add_node (add_node g u) v in
  if has_edge g2 u v then g2
  else mkDiGraph (nodes g2) (edges g2 ++ [(u, v)]).

Definition successors (g : DiGraph) (u : string) : list string :=
  map snd (filter (fun e => String.eqb (fst e) u) (edges g)).

Definition predecessors (g : DiGraph) (v : string) : list string :=
  map fst (filter (fun e => String.eqb (snd e) v) (edges g)).

Definition in_degree (g : DiGraph) (v : string) : Z :=
  Z.of_nat (List.length (predecessors g v)).

(** ** [topological_generations] / [topological_sort]

    networkx runs Kahn's algorithm generation by generation:
<<
    indegree_map = {v: d for v, d in G.in_degree() if d > 0}
    zero_indegree = [v for v, d in G.in_degree() if d == 0]
    while zero_indegree:
        this_generation = zero_indegree
        zero_indegree = []
        for node in this_generation:
            for child in G.neighbors(node):
                try:
                    indegree_map[child] -= 1
                except KeyError as err:
                    raise RuntimeError("Graph changed during iteration") from err
                if indegree_map[child] == 0:
                    zero_indegree.append(child)
                    del indegree_map[child]
        yield this_generation
    if indegree_map:
        raise nx.NetworkXUnfeasible("Graph contains a cycle or graph changed during iteration")
>>
    and [topological_sort] yields the generations one after the other. *)

Definition initial_indegree_map (g : DiGraph) : odict Z :=
  map (fun v => (v, in_degree g v))
      (filter (fun v => (0 <? in_degree g v)%Z) (nodes g)).

Definition initial_zero_indegree (g : DiGraph) : list string :=
  filter (fun v => (in_degree g v =? 0)%Z) (nodes g).

(** The body of [for child in G.neighbors(node)]. *)
Fixpoint relax_children (children : list string)
    (st : odict Z * list string) : outcome (odict Z * list string) :=
  match children with
  | [] => Ret st
  | child :: rest =>
      let '(indegree_map, zero_indegree) := st in
      match dget indegree_map child with
      | None => Raise RuntimeError
      | Some d =>
          let d' := (d - 1)%Z in
          let indegree_map := dset indegree_map child d' in
          if (d' =? 0)%Z
          then relax_children rest
                 (ddel indegree_map child, zero_indegree ++ [child])
          else relax_children rest (indegree_map, zero_indegree)
      end
  end.

(** The body of [for node in this_generation]. *)
Fixpoint relax_generation (g : DiGraph) (generation : list string)
    (st : odict Z * list string) : outcome (odict Z * list string) :=
  match generation with
  | [] => Ret st
  | node :: rest =>
      st' <- relax_children (successors g node) st ;;
      relax_generation g rest st'
  end.

(** The [while zero_indegree] loop.  Every iteration but the first removes
    at least one key from [indegree_map], so [fuel] bounds the number of
    iterations; [None] means the fuel ran out. *)
Fixpoint generations_loop (fuel : nat) (g : DiGraph)
    (indegree_map : odict Z) (zero_indegree : list string)
    : option (outcome (list (list string))) :=
  match zero_indegree with
  | [] =>
      match indegree_map with
      | [] => Some (Ret [])
      | _ :: _ => Some (Raise NetworkXUnfeasible)
      end
  | _ :: _ =>
      match fuel with
      | O => None
      | S fuel' =>
          match relax_generation g zero_indegree (indegree_map, []) with
          | Raise e => Some (Raise e)
          | Ret (indegree_map', next) =>
              match generations_loop fuel' g indegree_map' next with
              | Some (Ret gens) => Some (Ret (zero_indegree :: gens))
              | other => other
              end
          end
      end
  end.

Definition topological_generations_fuel (fuel : nat) (g : DiGraph)
    : option (outcome (list (list string))) :=
  generations_loop fuel g (initial_indegree_map g) (initial_zero_indegree g).

(** One iteration for the initial generation and at most one per key of the
    in-degree map. *)
Definition enough_fuel (g : DiGraph) : nat := S (List.length (nodes g)).

(** [list(nx.topological_sort(G))].  The fuel of [enough_fuel] always
    suffices (lemma [topological_sort_fuel_enough] below); the [None] branch
    is therefore never taken. *)
Definition topological_sort (g : DiGraph) : outcome (list string) :=
  match topological_generations_fuel (enough_fuel g) g with
  | Some (Ret gens) => Ret (List.concat gens)
  | Some (Raise e) => Raise e
  | None => Raise RuntimeError
  end.

End Nx.

(* ================================================================== *)
(** * [core/models.py] *)
(* ================================================================== *)

Module Models.

(** The fields of [Activity] that the quantitative core reads. *)
Record Activity : Type := mkActivity {
  activity_id : string;
  name : string;
  planned_start : option string;
  planned_finish : option string;
  planned_duration : option Q;
  baseline_duration : option Q;
  remaining_duration : option Q;
  percent_complete : Q;
  total_float : option Q;
  risk_probability : Q;
  risk_delay_impact_days : Q;
  predecessors : list string;
  successors : list string;
  on_critical_path : bool;
  resource_id : option string;
  fte_allocation : option Q;
  resource_max_fte : option Q;
  skill_tags : option string
}.

End Models.
Import Models.

(* ================================================================== *)
(** * [core/digital_twin.py] *)
(* ================================================================== *)

Module DigitalTwin.

Record DigitalTwin : Type := mkDigitalTwin {
  activities : odict Activity;
  graph : Nx.DiGraph;
  has_cycles : bool;
  cycle_warning : option string
}.

(** [{a.activity_id: a for a in activities}] *)
Definition index_activities (acts : list Activity) : odict Activity :=
  fold_left (fun d a => dset d (activity_id a) a) acts [].

(** The first loop of [_build]: one node per activity, one edge per
    predecessor reference whose [strip()] is not empty. *)
Definition add_activity (g : Nx.DiGraph) (a : Activity) : Nx.DiGraph :=
  fold_left
    (fun g p => if strip_nonempty p then Nx.add_edge g p (activity_id a) else g)
    (predecessors a)
    (Nx.add_node g (activity_id a)).

Definition build_graph (acts : odict Activity) : Nx.DiGraph :=
  fold_left add_activity (dvalues acts) Nx.empty.

Definition generic_cycle_warning : string :=
  "Graph contains cycles. Critical path calculations may be approximate.".

(** The warning built from [cycles[0]]: the first five ids joined by
    [" -> "], followed by ["..."] when the cycle is longer. *)
Definition cycle_message (cycle : list string) : string :=
  let cycle_str := join " -> " (firstn 5 cycle) in
  let cycle_str :=
    if (5 <? List.length cycle)%nat then (cycle_str ++ "...")%string
    else cycle_str in
  ("Graph contains cycles (e.g., " ++ cycle_str
     ++ "). Critical path calculations may be approximate.")%string.

Section Build.

(** [nx.simple_cycles] (Johnson's algorithm) is a library routine whose
    enumeration order the engine does not control; it is a parameter. *)
Variable simple_cycles : Nx.DiGraph -> outcome (list (list string)).

(** The inner [try ... except:] that words the warning. *)
Definition describe_cycles (g : Nx.DiGraph) : string :=
  try_except_all
    (cycles <- simple_cycles g ;;
     Ret (match cycles with
          | c :: _ => cycle_message c
          | [] => generic_cycle_warning
          end))
    generic_cycle_warning.

(** [DigitalTwin._build] on the dictionary [self.activities]: the graph is
    filled in, then
<<
    try:
        list(nx.topological_sort(self.graph))
        self.has_cycles = False
    except nx.NetworkXError:
        self.has_cycles = True
        ...
>> *)
Definition _build (activities : odict Activity) : outcome DigitalTwin :=
  let g := build_graph activities in
  try_except
    (_ <- Nx.topological_sort g ;;
     Ret (mkDigitalTwin activities g false None))
    NetworkXError
    (Ret (mkDigitalTwin activities g true (Some (describe_cycles g)))).

(** [DigitalTwin(activities)] *)
Definition __init__ (acts : list Activity) : outcome DigitalTwin :=
  _build (index_activities acts).

(** The module-level cache [DIGITAL_TWINS]. *)
Definition twin_cache : Type := odict DigitalTwin.

(** [get_or_build_twin(project_id, activities)], threading the module-level
    dictionary.  An exception leaves the dictionary as it was. *)
Definition get_or_build_twin (cache : twin_cache) (project_id : string)
    (acts : option (list Activity)) : outcome DigitalTwin * twin_cache :=
  match dget cache project_id with
  | Some twin => (Ret twin, cache)
  | None =>
      match acts with
      | None => (Raise ValueError, cache)
      | Some acts =>
          match __init__ acts with
          | Ret twin => (Ret twin, dset cache project_id twin)
          | Raise e => (Raise e, cache)
          end
      end
  end.

End Build.

End DigitalTwin.

(* ================================================================== *)
(** * NumPy: order statistics *)
(* ================================================================== *)

Module Np.

Fixpoint insert_sorted (x : Q) (l : list Q) : list Q :=
  match l with
  | [] => [x]
  | y :: r => if Qle_bool x y then x :: l else y :: insert_sorted x r
  end.

(** [np.sort] *)
Definition sort (l : list Q) : list Q := fold_right insert_sorted [] l.

(** [np.percentile(a, q)] with the default ["linear"] method on a non-empty
    sample: the virtual index [(n-1) * q/100] is split into its floor and
    its fractional part [gamma], the upper neighbour is clipped to the last
    index, and the two order statistics are interpolated the way NumPy's
    [_lerp] does (from the left below one half, from the right above). *)
Definition percentile (a : list Q) (q : Q) : Q :=
  let s := sort a in
  let n := List.length s in
  let virtual_index := inject_Z (Z.of_nat (n - 1)) * (q / 100) in
  let previous := Z.to_nat (Qfloor virtual_index) in
  let next := Nat.min (S previous) (n - 1) in
  let gamma := virtual_index - inject_Z (Qfloor virtual_index) in
  let lo := nth previous s 0 in
  let hi := nth next s 0 in
  let diff := hi - lo in
  if Qle_bool (1 # 2) gamma
  then hi - diff * (1 - gamma)
  else lo + diff * gamma.

Definition sum (l : list Q) : Q := fold_left Qplus l 0.

(** [np.mean] *)
Definition mean (l : list Q) : Q := sum l / inject_Z (Z.of_nat (List.length l)).

(** [np.maximum(0.1, durations)] *)
Definition maximum (floor : Q) (l : list Q) : list Q := map (Qmax floor) l.

End Np.

(* ================================================================== *)
(** * [core/mc_forecaster.py] *)
(* ================================================================== *)

Module McForecaster.

Import DigitalTwin.

(** The dictionary returned by [modulate_uncertainty] (all four keys are
    always present). *)
Record UncertaintyParams : Type := mkUncertaintyParams {
  mode_shift_factor : Q;
  variance_multiplier : Q;
  failure_probability : Q;
  base_duration : Q
}.

Record ForecastResult : Type := mkForecastResult {
  p50 : Z;
  p80 : Z;
  p90 : Z;
  p95 : Z;
  mean : Q;
  std : Q;
  min : Q;
  max : Q;
  current : Q;
  criticality_indices : odict Q;
  num_simulations : nat;
  forensic_modulation_applied : bool
}.

(** [a.remaining_duration or a.planned_duration or a.baseline_duration] *)
Definition first_duration (a : Activity) : option Q :=
  py_or (py_or (remaining_duration a) (planned_duration a))
        (baseline_duration a).

(** The parameters of the triangular distribution in the standard
    (non-forensic) branch of [simulate_activity_duration]:
    [(min_duration, mode_duration, max_duration)]. *)
Definition standard_shape (a : Activity) : Q * Q * Q :=
  let base_duration := py_or_lit (first_duration a) 1 in
  let base_duration := if Qle_bool base_duration 0 then 1 else base_duration in
  let risk_probability := py_or_lit (Some (risk_probability a)) 0 in
  let risk_delay_impact := py_or_lit (Some (risk_delay_impact_days a)) 0 in
  let expected_delay := risk_probability * risk_delay_impact in
  let uncertainty_from_risk :=
    if Qlt_bool 0 expected_delay && Qlt_bool 0 base_duration
    then Qmin (1 # 2) (expected_delay / base_duration)
    else 0 in
  let global_uncertainty := 2 # 10 in
  let uncertainty := Qmax global_uncertainty uncertainty_from_risk in
  let min_duration := base_duration * (1 - uncertainty) in
  let mode_duration := base_duration in
  let max_duration := base_duration * (1 + uncertainty) in
  let min_duration := Qmax (1 # 10) min_duration in
  (min_duration, mode_duration, max_duration).

(** The same for [simulate_activity_duration_forensic]:
    [(min_duration, modulated_mode, max_duration)]. *)
Definition forensic_shape (up : UncertaintyParams) : Q * Q * Q :=
  let base_duration := base_duration up in
  let mode_shift := mode_shift_factor up in
  let variance_mult := variance_multiplier up in
  let modulated_mode := base_duration * (1 + mode_shift) in
  let base_uncertainty := 2 # 10 in
  let modulated_uncertainty := base_uncertainty * variance_mult in
  let modulated_uncertainty := Qmin (1 # 2) modulated_uncertainty in
  let min_duration := modulated_mode * (1 - modulated_uncertainty) in
  let max_duration := modulated_mode * (1 + modulated_uncertainty) in
  let min_duration := Qmax (1 # 10) min_duration in
  (min_duration, modulated_mode, max_duration).

(** [durations[failure_mask] *= (1.0 + failure_delays[failure_mask])] *)
Fixpoint apply_failures (durations : list Q) (mask : list bool)
    (delays : list Q) : list Q :=
  match durations, mask, delays with
  | d :: ds, m :: ms, f :: fs =>
      (if m then d * (1 + f) else d) :: apply_failures ds ms fs
  | _, _, _ => durations
  end.

(** The forward pass shared by both critical-path routines: one iteration
    of [for node in topo_order] on the pair
    [(earliest_start, earliest_finish)]. *)
Definition forward_step (g : Nx.DiGraph) (simulated_durations : odict Q)
    (st : odict Q * odict Q) (node : string) : odict Q * odict Q :=
  let '(earliest_start, earliest_finish) := st in
  match dget simulated_durations node with
  | None => st
  | Some duration =>
      let pred_finishes :=
        map (fun pred => dget_or earliest_finish pred 0)
            (Nx.predecessors g node) in
      let es := max_list pred_finishes 0 in
      (dset earliest_start node es, dset earliest_finish node (es + duration))
  end.

Definition forward_pass (g : Nx.DiGraph) (simulated_durations : odict Q)
    (topo_order : list string) : odict Q * odict Q :=
  fold_left (forward_step g simulated_durations) topo_order ([], []).

(** One iteration of [for node in reversed(topo_order)] on the pair
    [(latest_start, latest_finish)]. *)
Definition backward_step (g : Nx.DiGraph) (simulated_durations : odict Q)
    (project_finish : Q) (st : odict Q * odict Q) (node : string)
    : odict Q * odict Q :=
  let '(latest_start, latest_finish) := st in
  match dget simulated_durations node with
  | None => st
  | Some duration =>
      let succ_starts :=
        map (fun succ => dget_or latest_start succ project_finish)
            (Nx.successors g node) in
      let lf := min_list succ_starts project_finish in
      (dset latest_start node (lf - duration), dset latest_finish node lf)
  end.

Definition backward_pass (g : Nx.DiGraph) (simulated_durations : odict Q)
    (project_finish : Q) (topo_order : list string) : odict Q * odict Q :=
  fold_left (backward_step g simulated_durations project_finish)
            (rev topo_order) ([], []).

(** [compute_critical_path_length] ([activities] is not read by the
    source). *)
Definition compute_critical_path_length (g : Nx.DiGraph)
    (simulated_durations : odict Q) : outcome Q :=
  try_except
    (topo_order <- Nx.topological_sort g ;;
     let '(_, earliest_finish) := forward_pass g simulated_durations topo_order in
     Ret (max_list (dvalues earliest_finish) 0))
    NetworkXError
    (Ret (max_list (dvalues simulated_durations) 0)).

(** The test [abs(es - ls) < 0.01] of the last loop. *)
Definition is_critical (earliest_start latest_start : odict Q)
    (project_finish : Q) (node : string) : bool :=
  let es := dget_or earliest_start node 0 in
  let ls := dget_or latest_start node project_finish in
  Qlt_bool (Qabs (es - ls)) (1 # 100).

(** [compute_critical_path_activities]; the returned Python [set] is given
    by the list of its elements in the order in which they were added. *)
Definition compute_critical_path_activities (g : Nx.DiGraph)
    (simulated_durations : odict Q) : outcome (list string) :=
  try_except
    (topo_order <- Nx.topological_sort g ;;
     let '(earliest_start, earliest_finish) :=
       forward_pass g simulated_durations topo_order in
     let project_finish := max_list (dvalues earliest_finish) 0 in
     let '(latest_start, latest_finish) :=
       backward_pass g simulated_durations project_finish topo_order in
     Ret (filter
            (fun node =>
               dmem simulated_durations node
               && is_critical earliest_start latest_start project_finish node)
            topo_order))
    NetworkXError
    (Ret []).

Section Sampling.

(** The process-wide NumPy generator: its state and the three variate
    generators the engine calls, each returning the advanced state.
    [np_sqrt] is the square root behind [np.std].  [set_iter] is the order
    in which Python iterates over a [set] of strings; it permutes the
    elements and may differ between processes (string hashing is salted). *)
Variable rng : Type.
Variable draw_triangular : rng -> Q -> Q -> Q -> Q * rng.
Variable draw_random : rng -> Q * rng.
Variable draw_uniform : rng -> Q -> Q -> Q * rng.
Variable np_sqrt : Q -> Q.
Variable set_iter : list string -> list string.

(** [size] successive variates. *)
Fixpoint draws (draw : rng -> Q * rng) (size : nat) (s : rng)
    : list Q * rng :=
  match size with
  | O => ([], s)
  | S k =>
      let '(x, s1) := draw s in
      let '(xs, s2) := draws draw k s1 in
      (x :: xs, s2)
  end.

(** [np.random.triangular(left, mode, right, size)] with NumPy's argument
    checks ([left > mode], [mode > right], [left == right]). *)
Definition np_random_triangular (s : rng) (left mode right : Q) (size : nat)
    : outcome (list Q * rng) :=
  if Qlt_bool mode left then Raise ValueError
  else if Qlt_bool right mode then Raise ValueError
  else if Qeq_bool left right then Raise ValueError
  else Ret (draws (fun s => draw_triangular s left mode right) size s).

Definition simulate_activity_duration_forensic (s : rng)
    (up : UncertaintyParams) (num_simulations : nat)
    : outcome (list Q * rng) :=
  let '(min_duration, modulated_mode, max_duration) := forensic_shape up in
  let failure_prob := failure_probability up in
  r <- np_random_triangular s min_duration modulated_mode max_duration
         num_simulations ;;
  let '(durations, s1) := r in
  let '(durations, s2) :=
    if Qlt_bool 0 failure_prob then
      let '(u, s2) := draws draw_random num_simulations s1 in
      let failure_mask := map (fun x => Qlt_bool x failure_prob) u in
      if existsb (fun b => b) failure_mask then
        let '(failure_delays, s3) :=
          draws (fun s => draw_uniform s (1 # 2) 1) num_simulations s2 in
        (apply_failures durations failure_mask failure_delays, s3)
      else (durations, s2)
    else (durations, s1) in
  Ret (Np.maximum (1 # 10) durations, s2).

Definition simulate_activity_duration (s : rng) (a : Activity)
    (num_simulations : nat) (uncertainty_params : option UncertaintyParams)
    : outcome (list Q * rng) :=
  match uncertainty_params with
  | Some up => simulate_activity_duration_forensic s up num_simulations
  | None =>
      let '(min_duration, mode_duration, max_duration) := standard_shape a in
      r <- np_random_triangular s min_duration mode_duration max_duration
             num_simulations ;;
      let '(durations, s1) := r in
      Ret (Np.maximum (1 # 10) durations, s1)
  end.

(** The inner loop of a run: one duration per activity, in the order of
    [activities.items()]. *)
Fixpoint simulate_all (s : rng) (items : list (string * Activity))
    (uncertainty_params_map : option (odict UncertaintyParams))
    (simulated_durations : odict Q) : outcome (odict Q * rng) :=
  match items with
  | [] => Ret (simulated_durations, s)
  | (activity_id, activity) :: rest =>
      let uncertainty_params :=
        match uncertainty_params_map with
        | Some m => dget m activity_id
        | None => None
        end in
      r <- simulate_activity_duration s activity 1 uncertainty_params ;;
      let '(durations, s1) := r in
      match durations with
      | [] => Raise IndexError
      | d0 :: _ =>
          simulate_all s1 rest uncertainty_params_map
            (dset simulated_durations activity_id d0)
      end
  end.

(** [for activity_id in critical_activities: if activity_id in
    criticality_counts: criticality_counts[activity_id] += 1] *)
Definition tally_step (counts : odict Z) (activity_id : string) : odict Z :=
  match dget counts activity_id with
  | Some c => dset counts activity_id (c + 1)%Z
  | None => counts
  end.

Definition tally (counts : odict Z) (critical_activities : list string)
    : odict Z :=
  fold_left tally_step (set_iter critical_activities) counts.

(** The body of [for _ in range(num_simulations)], repeated [runs] times on
    the triple (generator state, [project_durations],
    [criticality_counts]). *)
Fixpoint simulation_loop (runs : nat) (twin : DigitalTwin)
    (uncertainty_params_map : option (odict UncertaintyParams))
    (s : rng) (project_durations : list Q) (criticality_counts : odict Z)
    : outcome (rng * list Q * odict Z) :=
  match runs with
  | O => Ret (s, project_durations, criticality_counts)
  | S k =>
      r <- simulate_all s (activities twin) uncertainty_params_map [] ;;
      let '(simulated_durations, s1) := r in
      project_duration <-
        compute_critical_path_length (graph twin) simulated_durations ;;
      critical_activities <-
        compute_critical_path_activities (graph twin) simulated_durations ;;
      simulation_loop k twin uncertainty_params_map s1
        (project_durations ++ [project_duration])
        (tally criticality_counts critical_activities)
  end.

(** The progress figure computed after the simulation. *)
Definition progress_step (st : Q * Q * list Q) (a : Activity)
    : Q * Q * list Q :=
  let '(total_weight, weighted_progress, progress_values) := st in
  let pc := py_or_lit (Some (percent_complete a)) 0 in
  let pc := Qmax 0 (Qmin 100 pc) in
  let progress_values := progress_values ++ [pc] in
  let duration :=
    py_or_lit (py_or (planned_duration a) (baseline_duration a)) 1 in
  if Qlt_bool 0 duration
  then (total_weight + duration,
        weighted_progress + (pc / 100) * duration, progress_values)
  else (total_weight, weighted_progress, progress_values).

Definition current_percentage (acts : odict Activity) : Q :=
  let '(total_weight, weighted_progress, progress_values) :=
    fold_left progress_step (dvalues acts) (0, 0, []) in
  let current :=
    if Qlt_bool 0 total_weight then weighted_progress / total_weight
    else match progress_values with
         | _ :: _ =>
             (Np.sum progress_values
                / inject_Z (Z.of_nat (List.length progress_values))) / 100
         | [] => 0
         end in
  let current := Qmax 0 (Qmin 1 current) in
  current * 100.

(** [np.std]: the square root of the mean squared deviation. *)
Definition np_std (l : list Q) : Q :=
  let m := Np.mean l in
  np_sqrt (Np.mean (map (fun x => Qabs (x - m) * Qabs (x - m)) l)).

(** [monte_carlo_forecast(twin, num_simulations, uncertainty_params_map)].
    The preliminary scan for missing durations only emits a warning and has
    no part in the result.  With no run at all [np.percentile] has no order
    statistic to index and the call does not return a forecast. *)
Definition monte_carlo_forecast (s : rng) (twin : DigitalTwin)
    (num_simulations : nat)
    (uncertainty_params_map : option (odict UncertaintyParams))
    : outcome (ForecastResult * rng) :=
  let criticality_counts :=
    map (fun activity_id => (activity_id, 0%Z)) (dkeys (activities twin)) in
  r <- simulation_loop num_simulations twin uncertainty_params_map s []
         criticality_counts ;;
  let '(s1, project_durations, criticality_counts) := r in
  match project_durations with
  | [] => Raise IndexError
  | _ :: _ =>
      let criticality_indices :=
        map (fun kv =>
               (fst kv,
                inject_Z (snd kv) / inject_Z (Z.of_nat num_simulations)))
            criticality_counts in
      Ret (mkForecastResult
             (py_int (Np.percentile project_durations 50))
             (py_int (Np.percentile project_durations 80))
             (py_int (Np.percentile project_durations 90))
             (py_int (Np.percentile project_durations 95))
             (Np.mean project_durations)
             (np_std project_durations)
             (min_list project_durations 0)
             (max_list project_durations 0)
             (current_percentage (activities twin))
             criticality_indices
             num_simulations
             (match uncertainty_params_map with
              | Some _ => true
              | None => false
              end),
           s1)
  end.

End Sampling.

End McForecaster.

(* ================================================================== *)
(** * [core/risk_model.py] *)
(* ================================================================== *)

Module RiskModel.

(** The keys of the feature dictionary that the scorer reads; an absent key
    is [None] and takes the default of the corresponding [f.get]. *)
Record Features : Type := mkFeatures {
  delay_baseline_days : option Q;
  progress_slip : option Q;
  float_score : option Q;
  is_on_critical_path : option bool;
  risk_probability : option Q;
  risk_delay_impact_days : option Q;
  expected_delay_days : option Q;
  predecessor_count : option Z;
  successor_count : option Z;
  downstream_critical_depth : option Z;
  fte_ratio : option Q;
  zombie_task_flag : option Q;
  resource_black_hole_flag : option Q
}.

Definition get {A} (x : option A) (default : A) : A :=
  match x with
  | Some v => v
  | None => default
  end.

Definition normalize_to_0_100 (value min_val max_val : Q) : Q :=
  if Qeq_bool max_val min_val then 0
  else
    let normalized := ((value - min_val) / (max_val - min_val)) * 100 in
    Qmax 0 (Qmin 100 normalized).

Definition WEIGHTS : odict Q :=
  [ ("schedule_delay", 25 # 100);
    ("progress_slip", 25 # 100);
    ("risk_register", 10 # 100);
    ("float_criticality", 20 # 100);
    ("dependency", 10 # 100);
    ("resource_overload", 5 # 100);
    ("anomaly", 5 # 100) ].

Definition weight (key : string) : Q := dget_or WEIGHTS key 0.

Definition _compute_schedule_delay_score (f : Features) : Q :=
  let delay_days := get (delay_baseline_days f) 0 in
  normalize_to_0_100 delay_days 0 30.

Definition _compute_progress_slip_score (f : Features) : Q :=
  let progress_slip := get (progress_slip f) 0 in
  progress_slip * 100.

(** The binary64 number that the literal [0.6] denotes.  It lies below six
    tenths, so that [float_score >= 0.6] holds of it where a comparison with
    six tenths would not.  The literals [0.8] and [0.4] denote numbers above
    eight and four tenths with no binary64 number in between, so that for
    them the comparison with the decimal value decides alike. *)
Definition binary64_0_6 : Q := 5404319552844595 # 9007199254740992.

(** The bonus granted to an activity whose on-critical-path flag is set. *)
Definition critical_bonus (float_score : Q) : Q :=
  if Qle_bool (8 # 10) float_score then 40
  else if Qle_bool binary64_0_6 float_score then 35
  else if Qle_bool (4 # 10) float_score then 30
  else 25.

Definition _compute_float_criticality_score (f : Features) : Q :=
  let float_score := get (float_score f) 0 in
  let is_on_critical_path := get (is_on_critical_path f) false in
  let base_score := float_score * 100 in
  if is_on_critical_path
  then Qmin 100 (base_score + critical_bonus float_score)
  else base_score.

Definition _compute_risk_register_score (f : Features) : Q :=
  let risk_probability := get (risk_probability f) 0 in
  let risk_delay_impact := get (risk_delay_impact_days f) 0 in
  let expected_delay := get (expected_delay_days f) 0 in
  let probability_score := risk_probability * 50 in
  let impact_score := normalize_to_0_100 risk_delay_impact 0 30 * (5 # 10) in
  let expected_delay_score := Qmin 20 (expected_delay * 2) in
  Qmin 100 (probability_score + impact_score + expected_delay_score).

Definition _compute_dependency_score (f : Features) : Q :=
  let predecessor_count := get (predecessor_count f) 0%Z in
  let successor_count := get (successor_count f) 0%Z in
  let downstream_depth := get (downstream_critical_depth f) 0%Z in
  let score := 0 in
  let score :=
    if (5 <=? predecessor_count)%Z then score + 30
    else if (3 <=? predecessor_count)%Z then score + 15
    else score in
  let score :=
    if (5 <=? successor_count)%Z then score + 40
    else if (3 <=? successor_count)%Z then score + 25
    else score in
  let score :=
    if (3 <=? downstream_depth)%Z then score + 30
    else if (1 <=? downstream_depth)%Z then score + 15
    else score in
  Qmin 100 score.

Definition _compute_resource_overload_score (f : Features) : Q :=
  let fte_ratio := get (fte_ratio f) 0 in
  let score :=
    if Qlt_bool 1 fte_ratio then Qmin 100 ((fte_ratio - 1) * 100)
    else if Qlt_bool (9 # 10) fte_ratio
      then 60 + ((fte_ratio - (9 # 10)) / (1 # 10)) * 40
    else if Qlt_bool (7 # 10) fte_ratio
      then 30 + ((fte_ratio - (7 # 10)) / (2 # 10)) * 30
    else if Qlt_bool 0 fte_ratio then fte_ratio * 30 / (7 # 10)
    else 0 in
  Qmin 100 (Qmax 0 score).

Definition _compute_anomaly_score (f : Features) : Q :=
  let zombie_flag := get (zombie_task_flag f) 0 in
  let black_hole_flag := get (resource_black_hole_flag f) 0 in
  if Qlt_bool (5 # 10) zombie_flag || Qlt_bool (5 # 10) black_hole_flag
  then 100 else 0.

(** The nested helper [normalize_value] of [predict]. *)
Definition normalize_value (value : Q) (all_values : list Q) : Q :=
  match all_values with
  | [] => 0
  | _ :: _ =>
      let min_val := min_list all_values 0 in
      let max_val := max_list all_values 0 in
      if Qeq_bool max_val min_val then 0
      else (value - min_val) / (max_val - min_val)
  end.

(** The seven raw component scorers, in the order of [WEIGHTS]. *)
Inductive component : Type :=
  | ScheduleDelay | ProgressSlip | RiskRegister | FloatCriticality
  | Dependency | ResourceOverload | Anomaly.

Definition raw_score (c : component) (f : Features) : Q :=
  match c with
  | ScheduleDelay => _compute_schedule_delay_score f
  | ProgressSlip => _compute_progress_slip_score f
  | RiskRegister => _compute_risk_register_score f
  | FloatCriticality => _compute_float_criticality_score f
  | Dependency => _compute_dependency_score f
  | ResourceOverload => _compute_resource_overload_score f
  | Anomaly => _compute_anomaly_score f
  end.

(** The test [project_features and len(project_features) > 1]. *)
Definition has_population (project_features : option (list Features)) : bool :=
  match project_features with
  | Some pfs => (1 <? List.length pfs)%nat
  | None => false
  end.

(** [RuleBasedRiskModel.predict] *)
Definition predict (f : Features) (project_features : option (list Features))
    : Q :=
  let schedule_delay_score := _compute_schedule_delay_score f in
  let progress_slip_score := _compute_progress_slip_score f in
  let risk_register_score := _compute_risk_register_score f in
  let float_criticality_score := _compute_float_criticality_score f in
  let dependency_score := _compute_dependency_score f in
  let resource_overload_score := _compute_resource_overload_score f in
  let anomaly_score := _compute_anomaly_score f in
  let '(schedule_delay_score, progress_slip_score, risk_register_score,
        float_criticality_score, dependency_score, resource_overload_score,
        anomaly_score) :=
    if has_population project_features then
      let pfs := get project_features [] in
      let all_delay_scores := map _compute_schedule_delay_score pfs in
      let all_slip_scores := map _compute_progress_slip_score pfs in
      let all_risk_scores := map _compute_risk_register_score pfs in
      let all_float_scores := map _compute_float_criticality_score pfs in
      let all_dep_scores := map _compute_dependency_score pfs in
      let all_resource_scores := map _compute_resource_overload_score pfs in
      let all_anomaly_scores := map _compute_anomaly_score pfs in
      (normalize_value schedule_delay_score all_delay_scores * 100,
       normalize_value progress_slip_score all_slip_scores * 100,
       normalize_value risk_register_score all_risk_scores * 100,
       normalize_value float_criticality_score all_float_scores * 100,
       normalize_value dependency_score all_dep_scores * 100,
       normalize_value resource_overload_score all_resource_scores * 100,
       normalize_value anomaly_score all_anomaly_scores * 100)
    else
      (schedule_delay_score, progress_slip_score, risk_register_score,
       float_criticality_score, dependency_score, resource_overload_score,
       anomaly_score) in
  let overall_score :=
    (weight "schedule_delay" * (schedule_delay_score / 100)
     + weight "progress_slip" * (progress_slip_score / 100)
     + weight "risk_register" * (risk_register_score / 100)
     + weight "float_criticality" * (float_criticality_score / 100)
     + weight "dependency" * (dependency_score / 100)
     + weight "resource_overload" * (resource_overload_score / 100)
     + weight "anomaly" * (anomaly_score / 100)) * 100 in
  Qmax 0 (Qmin 100 overall_score).

(** ** The scorer as the specification words it

    [100 * sum (weight_i * normalized_component_i)], clamped to [0, 100];
    a component is min-max normalised over the project population when there
    is one, and is its raw 0-100 score (as a fraction of 100) otherwise. *)







End RiskModel.

(* ================================================================== *)
(** * [core/features.py]: the float score *)
(* ================================================================== *)

Module Features.

(** [float_days] when [Total_Float] is supplied:
    [max(0.0, float(activity.total_float))]. *)
Definition float_days_of_total_float (total_float : Q) : Q :=
  Qmax 0 total_float.

(** The float-score block of [compute_features]:
<<
    float_score = 0.0
    if float_days <= 0:
        float_score = 1.0
    elif 0 < float_days < 5:
        float_score = 1.0 - (float_days / 5.0)
        float_score = max(0.0, min(1.0, float_score))
    else:
        float_score = 0.0
>> *)
Definition float_score (float_days : Q) : Q :=
  if Qle_bool float_days 0 then 1
  else if Qlt_bool 0 float_days && Qlt_bool float_days 5
  then Qmax 0 (Qmin 1 (1 - float_days / 5))
  else 0.

End Features.

(* ================================================================== *)
(** * [core/risk_clustering.py]: the archetype table *)
(* ================================================================== *)

Module RiskClustering.

Definition archetype (failure_probability variance_multiplier
    mode_shift_factor : Q) : odict Q :=
  [ ("failure_probability", failure_probability);
    ("variance_multiplier", variance_multiplier);
    ("mode_shift_factor", mode_shift_factor) ].

(** [get_risk_archetype_characteristics]: unknown cluster ids fall back to
    archetype 0. *)
Definition get_risk_archetype_characteristics (cluster_id : Z) : odict Q :=
  match cluster_id with
  | 1%Z => archetype (15 # 100) (12 # 10) (1 # 10)
  | 2%Z => archetype (30 # 100) (15 # 10) (2 # 10)
  | 3%Z => archetype (50 # 100) 2 (3 # 10)
  | _ => archetype (5 # 100) 1 0
  end.

End RiskClustering.

(* ================================================================== *)
(** * [core/uncertainty_modulator.py] *)
(* ================================================================== *)

Module UncertaintyModulator.

Import McForecaster.

(** The one key of the skill analysis that the modulator reads. *)
Record SkillAnalysis : Type := mkSkillAnalysis {
  variance_increase_map : option (odict Q)
}.

(** [d.get(key, 0.0) if isinstance(d, dict) else 0.0] on the value found
    under [field] (an absent [field] yields the empty dictionary). *)
Definition nested_get (enriched_features : odict pyval) (field key : string)
    : Q :=
  match dget_or enriched_features field (VDict []) with
  | VDict d => dget_or d key 0
  | _ => 0
  end.

(** [modulate_uncertainty].  [topology_metrics.get(activity_id, {})] must be
    a dictionary for the following [.get] to succeed. *)
Definition modulate_uncertainty (activity : Activity)
    (enriched_features : odict pyval) (risk_archetype : odict Q)
    (topology_metrics : odict pyval) (skill_analysis : SkillAnalysis)
    : outcome UncertaintyParams :=
  let activity_id := activity_id activity in
  let base_duration := py_or_lit (first_duration activity) 1 in
  let base_duration := if Qle_bool base_duration 0 then 1 else base_duration in
  let drift_mode_shift :=
    nested_get enriched_features "drift_velocity" "mode_shift_factor" in
  let variance_increase_map :=
    match variance_increase_map skill_analysis with
    | Some m => m
    | None => []
    end in
  let skill_variance := dget_or variance_increase_map activity_id 1 in
  match dget_or topology_metrics activity_id (VDict []) with
  | VDict activity_topology =>
      let topology_variance :=
        dget_or activity_topology "variance_multiplier" 1 in
      let archetype_mode_shift := dget_or risk_archetype "mode_shift_factor" 0 in
      let archetype_variance := dget_or risk_archetype "variance_multiplier" 1 in
      let archetype_failure_prob :=
        dget_or risk_archetype "failure_probability" 0 in
      let cpi_failure_prob :=
        nested_get enriched_features "cost_performance"
          "risk_event_probability" in
      let total_mode_shift := drift_mode_shift + archetype_mode_shift in
      let total_variance_multiplier :=
        skill_variance * topology_variance * archetype_variance in
      let total_failure_prob := Qmax archetype_failure_prob cpi_failure_prob in
      Ret (mkUncertaintyParams total_mode_shift total_variance_multiplier
             total_failure_prob base_duration)
  | _ => Raise AttributeError
  end.

End UncertaintyModulator.

(* ================================================================== *)
(** * [core/skill_analyzer.py] *)
(* ================================================================== *)

Module SkillAnalyzer.

(** [parse_skill_tags] *)
Definition parse_skill_tags (skill_tags_str : option string) : list string :=
  match skill_tags_str with
  | None => []
  | Some EmptyString => []
  | Some s =>
      let parse sep :=
        map (fun x => lower (strip x))
            (filter strip_nonempty (split_on sep s)) in
      let skills :=
        if contains_char ";" s then parse ";"%char
        else if contains_char "," s then parse ","%char
        else [] in
      match skills with
      | [] => [lower (strip s)]
      | _ :: _ => skills
      end
  end.

(** A value that [_parse_date] hands on for a string:
    [pd.to_datetime(s, dayfirst=True, errors='coerce').date()] is a
    [datetime.date], given here by its day number, or pandas' [NaT] when the
    string cannot be read.  [NaT] is truthy. *)
Inductive pdate : Type :=
  | Day (ordinal : Z)
  | NaT.

(** [a < b].  Two dates compare by their day numbers; [NaT < NaT] is
    [False]; pandas refuses to order [NaT] and a [datetime.date] and raises
    [TypeError]. *)
Definition date_lt (a b : pdate) : outcome bool :=
  match a, b with
  | Day x, Day y => Ret (x <? y)%Z
  | NaT, NaT => Ret false
  | _, _ => Raise TypeError
  end.

(** One entry of [data["activities"]]. *)
Record ActivityDetail : Type := mkActivityDetail {
  detail_activity_id : string;
  detail_activity_name : string;
  detail_fte : Q;
  detail_start : pdate;
  detail_finish : pdate
}.

(** One value of the [skill_demand] dictionary. *)
Record Demand : Type := mkDemand {
  total_fte : Q;
  max_fte : Q;
  demand_activities : list ActivityDetail;
  time_window_start : pdate;
  time_window_end : pdate
}.

(** One entry of [skill_bottlenecks]; the formatted [time_window] string is
    kept as its two dates. *)
Record Bottleneck : Type := mkBottleneck {
  skill : string;
  bottleneck_resource_id : string;
  total_fte_demand : Q;
  bottleneck_max_fte : Q;
  overload_pct : Q;
  bottleneck_activities : list string;
  activity_details : list ActivityDetail;
  time_window : pdate * pdate
}.

Record SkillOverload : Type := mkSkillOverload {
  skill_bottlenecks : list Bottleneck;
  activity_skill_risks : odict (list string);
  variance_increase_map : odict Q
}.

(** The [skill_demand] dictionary, keyed by [(skill, resource_id)], in
    insertion order. *)
Definition demand_dict : Type := list ((string * string) * Demand).

Definition key_eqb (k1 k2 : string * string) : bool :=
  String.eqb (fst k1) (fst k2) && String.eqb (snd k1) (snd k2).

Fixpoint demand_get (d : demand_dict) (k : string * string) : option Demand :=
  match d with
  | [] => None
  | (k', v) :: r => if key_eqb k k' then Some v else demand_get r k
  end.

Fixpoint demand_set (d : demand_dict) (k : string * string) (v : Demand)
    : demand_dict :=
  match d with
  | [] => [(k, v)]
  | (k', v') :: r =>
      if key_eqb k k' then (k', v) :: r else (k', v') :: demand_set r k v
  end.

(** The body of [for skill in skills]; the two comparisons that update the
    time window can raise. *)
Definition record_skill (a : Activity) (resource : string)
    (planned_start planned_finish : pdate) (fte max_fte : Q)
    (skill_demand : demand_dict) (skill : string) : outcome demand_dict :=
  let key := (skill, resource) in
  let entry :=
    match demand_get skill_demand key with
    | Some e => e
    | None => mkDemand 0 max_fte [] planned_start planned_finish
    end in
  let detail :=
    mkActivityDetail (activity_id a) (name a) fte planned_start planned_finish in
  earlier <- date_lt planned_start (time_window_start entry) ;;
  let window_start :=
    if earlier then planned_start else time_window_start entry in
  later <- date_lt (time_window_end entry) planned_finish ;;
  let window_end :=
    if later then planned_finish else time_window_end entry in
  Ret (demand_set skill_demand key
         (mkDemand (total_fte entry + fte) (SkillAnalyzer.max_fte entry)
            (demand_activities entry ++ [detail]) window_start window_end)).

Section Dates.

(** [pd.to_datetime(s, dayfirst=True, errors='coerce').date()] on a
    non-empty string: a date, [NaT], or [None] when the call raises (the
    bare [except] of [_parse_date] then returns [None]). *)
Variable to_datetime : string -> option pdate.

Definition _parse_date (date_str : option string) : option pdate :=
  match date_str with
  | Some (String c r) => to_datetime (String c r)
  | _ => None
  end.

(** The body of the first loop, [for activity in activities]. *)
Definition record_activity (skill_demand : demand_dict) (a : Activity)
    : outcome demand_dict :=
  if negb (str_truthy (skill_tags a)) || negb (str_truthy (resource_id a))
  then Ret skill_demand
  else
    match parse_skill_tags (skill_tags a), resource_id a with
    | [], _ | _, None => Ret skill_demand
    | skills, Some resource =>
        match _parse_date (planned_start a), _parse_date (planned_finish a) with
        | Some planned_start, Some planned_finish =>
            let fte := py_or_lit (fte_allocation a) 0 in
            let max_fte := py_or_lit (resource_max_fte a) 1 in
            for_each
              (record_skill a resource planned_start planned_finish fte
                 max_fte)
              skills skill_demand
        | _, _ => Ret skill_demand
        end
    end.

(** The first loop, from the empty dictionary. *)
Definition build_skill_demand (acts : list Activity) : outcome demand_dict :=
  for_each record_activity acts [].

(** The state of the second loop. *)
Definition analysis_state : Type :=
  list Bottleneck * odict (list string) * odict Q.

(** The body of [for activity_detail in data["activities"]]. *)
Definition mark_activity (skill : string)
    (st : odict (list string) * odict Q) (detail : ActivityDetail)
    : odict (list string) * odict Q :=
  let '(activity_skill_risks, variance_increase_map) := st in
  let act_id := detail_activity_id detail in
  let risks := dget_or activity_skill_risks act_id [] in
  let risks := if str_in skill risks then risks else risks ++ [skill] in
  let activity_skill_risks := dset activity_skill_risks act_id risks in
  let num_skills := inject_Z (Z.of_nat (List.length risks)) in
  let variance_multiplier := 1 + num_skills * (2 # 10) in
  let variance_multiplier := Qmin 2 variance_multiplier in
  (activity_skill_risks, dset variance_increase_map act_id variance_multiplier).

(** The dictionary literal [bottleneck = {...}]. *)
Definition bottleneck_of (skill resource : string) (data : Demand)
    : Bottleneck :=
  let total_fte := total_fte data in
  let max_fte := max_fte data in
  let overload_pct := (total_fte / max_fte) * 100 in
  mkBottleneck skill resource (py_round total_fte 2) (py_round max_fte 2)
    (py_round overload_pct 1)
    (map detail_activity_id (demand_activities data))
    (demand_activities data)
    (time_window_start data, time_window_end data).

(** The test [total_fte > max_fte]. *)
Definition overloaded (data : Demand) : bool :=
  Qlt_bool (max_fte data) (total_fte data).

(** The body of [for (skill, resource_id), data in skill_demand.items()]. *)
Definition examine_demand (st : analysis_state)
    (item : (string * string) * Demand) : analysis_state :=
  let '(bottlenecks, activity_skill_risks, variance_increase_map) := st in
  let '((skill, resource), data) := item in
  if overloaded data then
    let bottleneck := bottleneck_of skill resource data in
    let '(activity_skill_risks, variance_increase_map) :=
      fold_left (mark_activity skill) (demand_activities data)
        (activity_skill_risks, variance_increase_map) in
    (bottlenecks ++ [bottleneck], activity_skill_risks, variance_increase_map)
  else st.

(** The second loop and the returned dictionary. *)
Definition analyse (skill_demand : demand_dict) : SkillOverload :=
  let '(bottlenecks, activity_skill_risks, variance_increase_map) :=
    fold_left examine_demand skill_demand ([], [], []) in
  mkSkillOverload bottlenecks activity_skill_risks variance_increase_map.

(** [check_skill_overload] ([reference_date] is never read). *)
Definition check_skill_overload (acts : list Activity)
    : outcome SkillOverload :=
  skill_demand <- build_skill_demand acts ;;
  Ret (analyse skill_demand).

End Dates.

End SkillAnalyzer.

(* ================================================================== *)
(** * [core/forensic_forecast.py] *)
(* ================================================================== *)

Module ForensicForecast.

Import DigitalTwin McForecaster UncertaintyModulator.

Section Pipeline.

Variable simple_cycles : Nx.DiGraph -> outcome (list (list string)).
Variable rng : Type.
Variable draw_triangular : rng -> Q -> Q -> Q -> Q * rng.
Variable draw_random : rng -> Q * rng.
Variable draw_uniform : rng -> Q -> Q -> Q * rng.
Variable np_sqrt : Q -> Q.
Variable set_iter : list string -> list string.

(** The loop that fills [uncertainty_params_map]. *)
Fixpoint build_params_map (acts : list Activity)
    (enriched_features : odict (odict pyval))
    (risk_archetypes : odict (odict Q))
    (topology_metrics : odict (odict pyval))
    (skill_analysis : SkillAnalysis)
    (uncertainty_params_map : odict UncertaintyParams)
    : outcome (odict UncertaintyParams) :=
  match acts with
  | [] => Ret uncertainty_params_map
  | activity :: rest =>
      let activity_id := activity_id activity in
      let features := dget_or enriched_features activity_id [] in
      let archetype :=
        dget_or risk_archetypes activity_id
          (RiskClustering.get_risk_archetype_characteristics 0) in
      let topology := dget_or topology_metrics activity_id [] in
      uncertainty_params <-
        modulate_uncertainty activity features archetype topology
          skill_analysis ;;
      build_params_map rest enriched_features risk_archetypes
        topology_metrics skill_analysis
        (dset uncertainty_params_map activity_id uncertainty_params)
  end.

(** [compute_forensic_forecast], threading the twin cache and the
    generator. *)
Definition compute_forensic_forecast (cache : twin_cache) (s : rng)
    (project_id : string) (acts : list Activity)
    (enriched_features : odict (odict pyval))
    (risk_archetypes : odict (odict Q))
    (topology_metrics : odict (odict pyval))
    (skill_analysis : SkillAnalysis) (num_simulations : nat)
    : outcome (ForecastResult * rng) * twin_cache :=
  match get_or_build_twin simple_cycles cache project_id (Some acts) with
  | (Raise e, cache') => (Raise e, cache')
  | (Ret twin, cache') =>
      (uncertainty_params_map <-
         build_params_map acts enriched_features risk_archetypes
           topology_metrics skill_analysis [] ;;
       monte_carlo_forecast rng draw_triangular draw_random draw_uniform
         np_sqrt set_iter s twin num_simulations
         (Some uncertainty_params_map),
       cache')
  end.

End Pipeline.

End ForensicForecast.

(* ================================================================== *)
(** * Concrete inputs used by the scenarios *)
(* ================================================================== *)

Module Scenario.

Import DigitalTwin McForecaster.

(** An activity with the given id, predecessor list and planned duration and
    nothing else filled in. *)
Definition task (id : string) (preds : list string) (duration : Q)
    : Activity :=
  mkActivity id id None None (Some duration) None None 0 None 0 0 preds []
    false None None None None.

(** An activity that only carries a remaining duration. *)
Definition remaining_only (id : string) (remaining : Q) : Activity :=
  mkActivity id id None None None None (Some remaining) 0 None 0 0 [] []
    false None None None None.

(** An activity whose three duration fields are all zero. *)
Definition zero_durations (id : string) : Activity :=
  mkActivity id id None None (Some 0) (Some 0) (Some 0) 0 None 0 0 [] []
    false None None None None.

(** An activity with a negative remaining duration and a planned duration
    of 8 days. *)
Definition negative_remaining (id : string) : Activity :=
  mkActivity id id None None (Some 8) None (Some (-3)) 0 None 0 0 [] []
    false None None None None.

(** An activity with a baseline duration only. *)
Definition baseline_only (id : string) (baseline : Q) : Activity :=
  mkActivity id id None None None (Some baseline) None 0 None 0 0 [] []
    false None None None None.

(** An activity working on [resource] with the given skill tags and FTE
    from January 1st to May 5th, 2026. *)
Definition skilled (id resource tags : string) (fte max_fte : Q) : Activity :=
  mkActivity id id (Some "2026-01-01") (Some "2026-05-05") None None None 0
    None 0 0 [] [] false (Some resource) (Some fte) (Some max_fte) (Some tags).

(** A generator that always returns the mode of the triangle, one half for
    [random] and the lower bound for [uniform]; its state counts the
    draws. *)
Definition mode_rng_triangular (s : nat) (left mode right : Q) : Q * nat :=
  (mode, S s).
Definition mode_rng_random (s : nat) : Q * nat := (1 # 2, S s).
Definition mode_rng_uniform (s : nat) (low high : Q) : Q * nat := (low, S s).

(** A stand-in for the square root, used only to run the examples. *)
Definition toy_sqrt (x : Q) : Q := x.

Definition no_cycles_listed (g : Nx.DiGraph) : outcome (list (list string)) :=
  Ret [].

(** Two set iteration orders. *)
Definition insertion_order (l : list string) : list string := l.
Definition reverse_order (l : list string) : list string := rev l.

(** The reading of the date strings that the scenarios use.  Both strings
    have day and month equal, so that reading them day first or month first
    gives the same date (its day number is [date.toordinal()]); any other
    string stands for one that pandas cannot read. *)
Definition calendar (s : string) : option SkillAnalyzer.pdate :=
  if String.eqb s "2026-01-01" then Some (SkillAnalyzer.Day 739617)
  else if String.eqb s "2026-05-05" then Some (SkillAnalyzer.Day 739741)
  else Some SkillAnalyzer.NaT.

(** Scenario C: A -> B with durations 5 and 3. *)
Definition chain_AB : list Activity := [task "A" [] 5; task "B" ["A"] 3].
Definition chain_graph : Nx.DiGraph := build_graph (index_activities chain_AB).
Definition chain_durations : odict Q := [("A", 5); ("B", 3)].

(** The twin that [DigitalTwin(chain_AB)] builds. *)
Definition chain_twin : DigitalTwin :=
  mkDigitalTwin (index_activities chain_AB) chain_graph false None.

(** A standard (non-forensic) forecast of [runs] runs on the chain, with
    the mode-returning generator and the given set iteration order. *)
Definition chain_forecast (set_iter : list string -> list string)
    (runs : nat) : outcome (ForecastResult * nat) :=
  monte_carlo_forecast nat mode_rng_triangular mode_rng_random
    mode_rng_uniform toy_sqrt set_iter 0%nat chain_twin runs None.

(** A two-activity dependency cycle: A waits for B and B waits for A. *)
Definition cycle_AB : list Activity := [task "A" ["B"] 5; task "B" ["A"] 3].

(** Scenario B: one resource, two activities tagged ["x"]. *)
Definition overloaded : list Activity :=
  [skilled "A-001" "R001" "x" (6 # 10) 1; skilled "A-002" "R001" "x" (7 # 10) 1].

(** The chain A -> B of scenario C after the data changed: a third activity
    C of 10 days now follows B. *)
Definition chain_ABC : list Activity :=
  [task "A" [] 5; task "B" ["A"] 3; task "C" ["B"] 10].

(** [compute_forensic_forecast] with no forensic signals, run on the
    mode-returning generator. *)
Definition plain_forecast (cache : twin_cache) (project_id : string)
    (acts : list Activity) (runs : nat)
    : outcome (ForecastResult * nat) * twin_cache :=
  ForensicForecast.compute_forensic_forecast no_cycles_listed nat
    mode_rng_triangular mode_rng_random mode_rng_uniform toy_sqrt
    insertion_order cache 0%nat project_id acts [] [] []
    (UncertaintyModulator.mkSkillAnalysis (Some [])) runs.


(** Features of an activity that is late, slipping and critical. *)
Definition severe : RiskModel.Features :=
  RiskModel.mkFeatures (Some 30) (Some 1) (Some 1) (Some true) (Some 1)
    (Some 30) (Some 30) (Some 5%Z) (Some 5%Z) (Some 3%Z) (Some 2) (Some 1)
    (Some 1).


End Scenario.

(* ================================================================== *)
(** * Vocabulary of the statements *)
(* ================================================================== *)

Module Vocabulary.

Import McForecaster.

(** *** Graphs *)

(** The shape every graph built by [add_node] and [add_edge] has. *)
Definition well_formed (g : Nx.DiGraph) : Prop :=
  NoDup (Nx.nodes g) /\ NoDup (Nx.edges g) /\
  forall u v, In (u, v) (Nx.edges g) -> In u (Nx.nodes g) /\ In v (Nx.nodes g).

(** The position of the first occurrence of [v] in [l]. *)
Fixpoint index_of (v : string) (l : list string) : nat :=
  match l with
  | [] => O
  | x :: r => if String.eqb v x then O else S (index_of v r)
  end.

(** [u] and [v] occur in [l], [u] first. *)
Definition before (u v : string) (l : list string) : Prop :=
  In u l /\ In v l /\ (index_of u l < index_of v l)%nat.

(** [order] lists every node once, and every edge points forward. *)
Definition topological_order (g : Nx.DiGraph) (order : list string) : Prop :=
  NoDup order /\
  (forall v, In v order <-> In v (Nx.nodes g)) /\
  (forall u v, In (u, v) (Nx.edges g) -> before u v order).

(** The number of predecessors of [v] outside [processed]. *)
Definition remaining_in_degree (g : Nx.DiGraph) (processed : list string)
    (v : string) : Z :=
  Z.of_nat
    (List.length
       (filter (fun u => negb (str_in u processed)) (Nx.predecessors g v))).

(** A walk along at least one edge. *)
Inductive walk (g : Nx.DiGraph) : string -> string -> Prop :=
  | walk_edge u v : In (u, v) (Nx.edges g) -> walk g u v
  | walk_step u v w : In (u, v) (Nx.edges g) -> walk g v w -> walk g u w.

(** The dependency graph contains a cycle. *)
Definition cyclic (g : Nx.DiGraph) : Prop := exists v, walk g v v.

(** Each element of the list is followed by one of its predecessors. *)
Fixpoint back_chain (g : Nx.DiGraph) (l : list string) : Prop :=
  match l with
  | a :: r =>
      match r with
      | b :: _ => In (b, a) (Nx.edges g) /\ back_chain g r
      | [] => True
      end
  | [] => True
  end.

(** 1 when [v] is among [l], else 0. *)
Definition indicator (v : string) (l : list string) : Z :=
  if str_in v l then 1%Z else 0%Z.

(** The state of Kahn's algorithm between two nodes: [processed] are the
    nodes whose children have been relaxed, [scheduled] the nodes queued in
    the current and in the next generation, [m] the in-degree map. *)
Record kahn_inv (g : Nx.DiGraph) (processed scheduled : list string)
    (m : odict Z) : Prop := mk_kahn_inv {
  inv_nodup : NoDup (processed ++ scheduled);
  inv_nodes : forall v, In v (processed ++ scheduled) -> In v (Nx.nodes g);
  inv_preds : forall v p,
    In v (processed ++ scheduled) -> In p (Nx.predecessors g v) ->
    In p processed /\ before p v (processed ++ scheduled);
  inv_keys : NoDup (dkeys m);
  inv_count : forall v d,
    dget m v = Some d ->
    d = remaining_in_degree g processed v /\ (0 < d)%Z /\
    ~ In v (processed ++ scheduled);
  inv_sched : forall v,
    In v (Nx.nodes g) -> dget m v = None -> In v (processed ++ scheduled)
}.

(** The state while the children of [u] are being relaxed; [relaxed] are
    the children already visited. *)
Record kahn_mid (g : Nx.DiGraph) (processed : list string) (u : string)
    (scheduled relaxed : list string) (m : odict Z) : Prop := mk_kahn_mid {
  mid_nodup : NoDup (processed ++ u :: scheduled);
  mid_nodes : forall v,
    In v (processed ++ u :: scheduled) -> In v (Nx.nodes g);
  mid_preds : forall v p,
    In v (processed ++ u :: scheduled) -> In p (Nx.predecessors g v) ->
    (In p processed \/ (p = u /\ In v relaxed)) /\
    before p v (processed ++ u :: scheduled);
  mid_keys : NoDup (dkeys m);
  mid_count : forall v d,
    dget m v = Some d ->
    d = (remaining_in_degree g processed v - indicator v relaxed)%Z /\
    (0 < d)%Z /\ ~ In v (processed ++ u :: scheduled);
  mid_sched : forall v,
    In v (Nx.nodes g) -> dget m v = None ->
    In v (processed ++ u :: scheduled)
}.

(** A duration field that is filled in with a positive number. *)
Definition given (x : option Q) (value : Q) : Prop :=
  x = Some value /\ 0 < value.

(** A duration field that is missing or zero. *)
Definition missing (x : option Q) : Prop :=
  match x with
  | Some q => q == 0
  | None => True
  end.

(** The starting duration computed at the top of [modulate_uncertainty]. *)
Definition starting_duration (a : Activity) : Q :=
  let b := py_or_lit (first_duration a) 1 in
  if Qle_bool b 0 then 1 else b.

(** The modulated mode of the forensic triangle. *)
Definition modulated_mode (up : UncertaintyParams) : Q :=
  snd (fst (forensic_shape up)).

(** All members of the population have the same raw score for [c]. *)
Definition same_raw_score (c : RiskModel.component)
    (pfs : list RiskModel.Features) : Prop :=
  forall g h,
    In g pfs -> In h pfs -> RiskModel.raw_score c g == RiskModel.raw_score c h.

(** *** Order statistics *)

(** The virtual index [(n-1) * q/100] of [np.percentile]. *)
Definition virtual_index (a : list Q) (q : Q) : Q :=
  inject_Z (Z.of_nat (List.length (Np.sort a) - 1)) * (q / 100).

Definition lower_rank (a : list Q) (q : Q) : nat :=
  Z.to_nat (Qfloor (virtual_index a q)).

Definition upper_rank (a : list Q) (q : Q) : nat :=
  Nat.min (S (lower_rank a q)) (List.length (Np.sort a) - 1).

(** The [i]-th smallest element of the sample. *)
Definition order_statistic (a : list Q) (i : nat) : Q := nth i (Np.sort a) 0.

(** The fractional part of the virtual index. *)
Definition gamma (a : list Q) (q : Q) : Q :=
  virtual_index a q - inject_Z (Qfloor (virtual_index a q)).

(** *** Skill bottlenecks *)

(** The (skill, activity) pairs that the listed bottlenecks touch. *)
Definition touches (bs : list SkillAnalyzer.Bottleneck)
    : list (string * string) :=
  flat_map
    (fun b => map (fun id => (SkillAnalyzer.skill b, id))
                  (SkillAnalyzer.bottleneck_activities b))
    bs.

(** The variance multiplier for [k] overloaded skills. *)
Definition multiplier_for (k : nat) : Q :=
  Qmin 2 (1 + inject_Z (Z.of_nat k) * (2 # 10)).

(** The two maps of the analysis agree with the touches [t] seen so far. *)
Definition risks_agree (t : list (string * string))
    (risks : odict (list string)) (variance : odict Q) : Prop :=
  forall id : string,
    match dget risks id with
    | None => dget variance id = None /\ forall s, ~ In (s, id) t
    | Some rs =>
        rs <> [] /\ NoDup rs /\ (forall s, In s rs <-> In (s, id) t) /\
        dget variance id = Some (multiplier_for (List.length rs))
    end.

(** The keys of the demand dictionary. *)
Definition demand_keys (d : SkillAnalyzer.demand_dict)
    : list (string * string) := map fst d.

(** Every value of the dictionary is non-negative. *)
Definition nonneg_dict (d : odict Q) : Prop :=
  forall k v, In (k, v) d -> 0 <= v.

(** *** Critical-path passes *)

(** The common shape of the forward and of the backward step: a node with a
    duration gets two entries computed from an aggregate [agg] of the
    current state. *)
Definition pass_step (durations : odict Q)
    (agg : odict Q * odict Q -> string -> Q) (first second : Q -> Q -> Q)
    (st : odict Q * odict Q) (node : string) : odict Q * odict Q :=
  match dget durations node with
  | None => st
  | Some d =>
      (dset (fst st) node (first (agg st node) d),
       dset (snd st) node (second (agg st node) d))
  end.

(** [ES(n)]: the largest earliest finish among the predecessors, 0 without
    predecessors. *)
Definition forward_agg (g : Nx.DiGraph) (st : odict Q * odict Q)
    (node : string) : Q :=
  max_list (map (fun pred => dget_or (snd st) pred 0) (Nx.predecessors g node))
    0.

(** [LF(n)]: the smallest latest start among the successors, the project
    finish without successors. *)
Definition backward_agg (g : Nx.DiGraph) (project_finish : Q)
    (st : odict Q * odict Q) (node : string) : Q :=
  min_list
    (map (fun succ => dget_or (fst st) succ project_finish)
         (Nx.successors g node))
    project_finish.

(** The five results of the two passes over [order]:
    [(earliest_start, earliest_finish, project_finish, latest_start,
      latest_finish)]. *)
Definition schedule (g : Nx.DiGraph) (durations : odict Q)
    (order : list string) : odict Q * odict Q * Q * odict Q * odict Q :=
  let '(es, ef) := forward_pass g durations order in
  let project_finish := max_list (dvalues ef) 0 in
  let '(ls, lf) := backward_pass g durations project_finish order in
  (es, ef, project_finish, ls, lf).

End Vocabulary.
Import Vocabulary.


(* ================================================================== *)
(** * [core/forensic_extractor.py] *)
(* ================================================================== *)

Module ForensicExtractor.

(** [calculate_drift_velocity] *)
Definition calculate_drift_velocity (activity : Activity) : odict Q :=
  let baseline := py_or_lit (baseline_duration activity) 0 in
  let planned := py_or_lit (planned_duration activity) 0 in
  let remaining := py_or_lit (remaining_duration activity) 0 in
  let drift_ratio :=
    if Qlt_bool 0 baseline then (planned - baseline) / baseline else 0 in
  let mode_shift_factor := drift_ratio in
  let drift_adjusted_remaining :=
    if Qlt_bool 0 remaining then remaining * (1 + drift_ratio)
    else remaining in
  [ ("drift_ratio", drift_ratio);
    ("drift_adjusted_remaining", drift_adjusted_remaining);
    ("mode_shift_factor", mode_shift_factor) ].

(** [calculate_cost_performance].  The two fields it reads,
    [activity.planned_cost] and [activity.actual_cost_to_date], are read
    nowhere else in the quantitative core and are passed beside the
    activity. *)
Definition calculate_cost_performance
    (planned_cost actual_cost_to_date : option Q) : odict Q :=
  let planned_cost := py_or_lit planned_cost 0 in
  let actual_cost := py_or_lit actual_cost_to_date 0 in
  let cpi_trend :=
    if Qlt_bool 0 actual_cost then planned_cost / actual_cost else 1 in
  let cost_variance := actual_cost - planned_cost in
  let risk_event_prob :=
    if Qlt_bool cpi_trend (9 # 10)
    then Qmin (3 # 10) (((9 # 10) - cpi_trend) * 2)
    else 0 in
  [ ("cpi_trend", cpi_trend);
    ("cost_variance", cost_variance);
    ("risk_event_probability", risk_event_prob) ].

(** [extract_forensic_features] *)
Definition extract_forensic_features (activity : Activity)
    (planned_cost actual_cost_to_date : option Q) : odict pyval :=
  let drift_data := calculate_drift_velocity activity in
  let cost_data := calculate_cost_performance planned_cost actual_cost_to_date in
  [ ("drift_velocity", VDict drift_data);
    ("cost_performance", VDict cost_data) ].

End ForensicExtractor.

(* ================================================================== *)
(** * [core/topology_engine.py] *)
(* ================================================================== *)

Module TopologyEngine.

Import DigitalTwin.

Section Centrality.

(** [nx.betweenness_centrality(graph, normalized=True)] and
    [nx.eigenvector_centrality(graph, max_iter=1000)] are library routines;
    the second raises when the power iteration does not converge. *)
Variable betweenness_centrality : Nx.DiGraph -> outcome (odict Q).
Variable eigenvector_centrality : Nx.DiGraph -> outcome (odict Q).

(** The dictionary stored for one activity. *)
Definition activity_metrics (bet eig : Q) : odict pyval :=
  let combined_centrality := (bet * (7 # 10)) + (eig * (3 # 10)) in
  let variance_multiplier := 1 + (combined_centrality * (5 # 10)) in
  [ ("betweenness_centrality", VNum bet);
    ("eigenvector_centrality", VNum eig);
    ("variance_multiplier", VNum variance_multiplier) ].

(** [calculate_topology_metrics] on a twin that carries no cached
    centralities yet. *)
Definition calculate_topology_metrics (twin : DigitalTwin)
    : odict (odict pyval) :=
  let graph := graph twin in
  let _betweenness_cache := try_except_all (betweenness_centrality graph) [] in
  let _eigenvector_cache := try_except_all (eigenvector_centrality graph) [] in
  fold_left
    (fun topology_metrics activity_id =>
       let bet := dget_or _betweenness_cache activity_id 0 in
       let eig := dget_or _eigenvector_cache activity_id 0 in
       dset topology_metrics activity_id (activity_metrics bet eig))
    (dkeys (activities twin)) [].

End Centrality.

End TopologyEngine.

(* ================================================================== *)
(** * [core/risk_model.py]: the risk factors *)
(* ================================================================== *)

Module RiskFactors.

Import RiskModel.

(** [get_risk_factors].  The key [float_days], which the scorers do not
    read, is passed beside the feature record ([None] when absent). *)
Definition get_risk_factors (f : Features) (float_days : option Q)
    : odict string :=
  let factors : odict string := [] in
  let delay_days := get (delay_baseline_days f) 0 in
  let is_critical := get (is_on_critical_path f) false in
  let float_days := get float_days 999 in
  let factors :=
    if is_critical && Qle_bool float_days 2 then
      if Qle_bool 7 delay_days then dset factors "delay" "high"
      else if Qle_bool 3 delay_days then dset factors "delay" "medium"
      else if Qlt_bool 0 delay_days then dset factors "delay" "medium"
      else dset factors "delay" "low"
    else if is_critical then
      if Qle_bool 10 delay_days then dset factors "delay" "high"
      else if Qle_bool 5 delay_days then dset factors "delay" "medium"
      else if Qlt_bool 0 delay_days then dset factors "delay" "low"
      else dset factors "delay" "low"
    else
      let delay_score := _compute_schedule_delay_score f in
      if Qle_bool 70 delay_score then dset factors "delay" "high"
      else if Qle_bool 40 delay_score then dset factors "delay" "medium"
      else dset factors "delay" "low" in
  let is_on_critical_path := get (is_on_critical_path f) false in
  let factors :=
    if is_on_critical_path then
      if Qle_bool float_days 0 then dset factors "critical_path" "high"
      else if Qle_bool float_days 2 then dset factors "critical_path" "high"
      else if Qle_bool float_days 5 then dset factors "critical_path" "medium"
      else dset factors "critical_path" "medium"
    else dset factors "critical_path" "low" in
  let resource_score := _compute_resource_overload_score f in
  let factors :=
    if Qle_bool 70 resource_score then dset factors "resource" "high"
    else if Qle_bool 40 resource_score then dset factors "resource" "medium"
    else dset factors "resource" "low" in
  factors.

End RiskFactors.

(* ================================================================== *)
(** * [core/features.py]: further blocks of [compute_features] *)
(* ================================================================== *)

Module FeatureBlocks.

(** The resource block:
<<
    fte_ratio = 0.0
    resource_overbooked = False
    if activity.resource_max_fte and activity.resource_max_fte > 0:
        fte_ratio = (activity.fte_allocation or 0.0) / activity.resource_max_fte
        resource_overbooked = fte_ratio > 1.0
>>
    returning [(fte_ratio, resource_overbooked)]. *)
Definition resource_block (activity : Activity) : Q * bool :=
  match resource_max_fte activity with
  | Some max_fte =>
      if truthy (Some max_fte) && Qlt_bool 0 max_fte then
        let fte_ratio := py_or_lit (fte_allocation activity) 0 / max_fte in
        (fte_ratio, Qlt_bool 1 fte_ratio)
      else (0, false)
  | None => (0, false)
  end.

(** [resource_black_hole_flag = 1.0 if resource_overbooked else 0.0] *)
Definition resource_black_hole_flag (resource_overbooked : bool) : Q :=
  if resource_overbooked then 1 else 0.

(** The progress-slip block once both planned dates are parsed; the three
    instants are measured in days:
<<
    time_window = (planned_finish - planned_start).total_seconds() / 86400.0
    if time_window > 0:
        numerator_time = min(reference_datetime, planned_finish)
        elapsed_time = (numerator_time - planned_start).total_seconds() / 86400.0
        elapsed_time = max(0.0, elapsed_time)
        expected_progress = elapsed_time / time_window
        expected_progress = min(1.0, max(0.0, expected_progress))
        actual_progress = activity.percent_complete / 100.0
        progress_slip = max(0.0, expected_progress - actual_progress)
    else:
        progress_slip = 0.0
>> *)
Definition progress_slip (planned_start planned_finish reference_datetime
    percent_complete : Q) : Q :=
  let time_window := planned_finish - planned_start in
  if Qlt_bool 0 time_window then
    let numerator_time := Qmin reference_datetime planned_finish in
    let elapsed_time := numerator_time - planned_start in
    let elapsed_time := Qmax 0 elapsed_time in
    let expected_progress := elapsed_time / time_window in
    let expected_progress := Qmin 1 (Qmax 0 expected_progress) in
    let actual_progress := percent_complete / 100 in
    Qmax 0 (expected_progress - actual_progress)
  else 0.

End FeatureBlocks.

(* ================================================================== *)
(** * [core/skill_analyzer.py]: the lookup *)
(* ================================================================== *)

Module SkillLookup.

Import SkillAnalyzer.

(** [get_activity_skill_risk] on the dictionary returned by
    [check_skill_overload]. *)
Definition get_activity_skill_risk (activity_id : string)
    (skill_analysis : SkillOverload) : bool :=
  dmem (activity_skill_risks skill_analysis) activity_id.

End SkillLookup.

(* ================================================================== *)
(** * [core/mitigation.py]: what-if twins *)
(* ================================================================== *)

Module Mitigation.

Import DigitalTwin.

Section Twins.

Variable simple_cycles : Nx.DiGraph -> outcome (list (list string)).

(** [clone_twin]: dumping an activity and constructing it again from the
    dump rebuilds it field by field. *)
Definition clone_twin (twin : DigitalTwin) : outcome DigitalTwin :=
  let activities_copy := map (fun activity => activity) (dvalues (activities twin)) in
  __init__ simple_cycles activities_copy.

(** The activity rebuilt from [activity_dict] after the updates of
    [modify_activity_duration].  [new_cost] only replaces the field
    [planned_cost], which is outside the record. *)
Definition modified_activity (activity : Activity) (new_duration : option Q)
    (reduce_risk : bool) (new_fte : option Q) : Activity :=
  let planned := match new_duration with
                 | Some d => Some d
                 | None => planned_duration activity
                 end in
  let baseline := match new_duration with
                  | Some d => Some d
                  | None => baseline_duration activity
                  end in
  let probability :=
    if reduce_risk then risk_probability activity * (5 # 10)
    else risk_probability activity in
  let impact :=
    if reduce_risk then risk_delay_impact_days activity * (5 # 10)
    else risk_delay_impact_days activity in
  let fte := match new_fte with
             | Some x => Some x
             | None => fte_allocation activity
             end in
  mkActivity (activity_id activity) (name activity) (planned_start activity)
    (planned_finish activity) planned baseline (remaining_duration activity)
    (percent_complete activity) (total_float activity) probability impact
    (predecessors activity) (successors activity) (on_critical_path activity)
    (resource_id activity) fte (resource_max_fte activity)
    (skill_tags activity).

(** [modify_activity_duration] *)
Definition modify_activity_duration (twin : DigitalTwin)
    (activity_id : string) (new_duration : option Q) (reduce_risk : bool)
    (new_fte : option Q) : outcome DigitalTwin :=
  match dget (activities twin) activity_id with
  | None => Raise ValueError
  | Some activity =>
      let modified := modified_activity activity new_duration reduce_risk new_fte in
      let activities_copy :=
        map (fun item =>
               if String.eqb (fst item) activity_id then modified
               else snd item)
            (activities twin) in
      __init__ simple_cycles activities_copy
  end.

End Twins.

End Mitigation.

(* ================================================================== *)
(** * [core/features.py] on binary64 numbers *)
(* ================================================================== *)

Module Binary64.

Import PrimFloat FloatOps SpecFloat.

(** Python's [max(a, b)] and [min(a, b)] on two floats: the first argument,
    unless the second is larger (smaller). *)
Definition py_max (a b : float) : float := if ltb a b then b else a.
Definition py_min (a b : float) : float := if ltb b a then b else a.

(** The float-score block of [compute_features] with the arithmetic of
    Python's [float]. *)
Definition float_score (float_days : float) : float :=
  if leb float_days 0%float then 1%float
  else if ltb 0%float float_days && ltb float_days 5%float
  then py_max 0%float
         (py_min 1%float (sub 1%float (div float_days 5%float)))
  else 0%float.

(** The numbers that the literals [0.0], [1.0], [5.0] and [0.6] denote,
    and the binary64 numbers nearest to 1e-17 and 2e-17. *)
Definition zero : float := 0%float.
Definition one : float := 1%float.
Definition five : float := 5%float.
Definition near_1e_17 : float := 0x1.70ef54646d497p-57%float.
Definition near_2e_17 : float := 0x1.70ef54646d497p-56%float.

(** The exact value of a finite binary64 number. *)
Definition to_Q (x : float) : Q :=
  match Prim2SF x with
  | S754_finite negative mantissa exponent =>
      let m := if negative then Zneg mantissa else Zpos mantissa in
      if (0 <=? exponent)%Z then inject_Z (m * 2 ^ exponent)
      else inject_Z m / inject_Z (2 ^ (- exponent))
  | _ => 0
  end.

End Binary64.

(* ================================================================== *)
(** * Further vocabulary of the statements *)
(* ================================================================== *)

Module MoreVocabulary.


(** The weighted sum of [predict] over the seven component scores. *)
Definition weighted_sum (score : RiskModel.component -> Q) : Q :=
  RiskModel.weight "schedule_delay" * score RiskModel.ScheduleDelay
  + RiskModel.weight "progress_slip" * score RiskModel.ProgressSlip
  + RiskModel.weight "risk_register" * score RiskModel.RiskRegister
  + RiskModel.weight "float_criticality" * score RiskModel.FloatCriticality
  + RiskModel.weight "dependency" * score RiskModel.Dependency
  + RiskModel.weight "resource_overload" * score RiskModel.ResourceOverload
  + RiskModel.weight "anomaly" * score RiskModel.Anomaly.

(** The activity ids and predecessor lists, which determine the graph. *)
Definition dependencies (acts : list Activity)
    : list (string * list string) :=
  map (fun a => (activity_id a, predecessors a)) acts.

(** *** Skill demand, read off the activities *)

(** [a] is not after [b]: two dates in this order, or twice [NaT]. *)
Definition not_after (a b : SkillAnalyzer.pdate) : Prop :=
  match a, b with
  | SkillAnalyzer.Day x, SkillAnalyzer.Day y => (x <= y)%Z
  | SkillAnalyzer.NaT, SkillAnalyzer.NaT => True
  | _, _ => False
  end.

(** What every entry of the skill-demand dictionary satisfies: it has at
    least one contribution, its time window is the hull of the windows of
    its contributions, and its capacity is not zero. *)
Definition sound_entry (e : SkillAnalyzer.Demand) : Prop :=
  SkillAnalyzer.demand_activities e <> [] /\
  (forall d, In d (SkillAnalyzer.demand_activities e) ->
     not_after (SkillAnalyzer.time_window_start e)
       (SkillAnalyzer.detail_start d) /\
     not_after (SkillAnalyzer.detail_finish d)
       (SkillAnalyzer.time_window_end e)) /\
  (exists d, In d (SkillAnalyzer.demand_activities e) /\
             SkillAnalyzer.detail_start d = SkillAnalyzer.time_window_start e) /\
  (exists d, In d (SkillAnalyzer.demand_activities e) /\
             SkillAnalyzer.detail_finish d = SkillAnalyzer.time_window_end e) /\
  ~ SkillAnalyzer.max_fte e == 0.

(** The FTE an activity asks for, and the capacity it states for its
    resource. *)
Definition fte_of (a : Activity) : Q := py_or_lit (fte_allocation a) 0.
Definition capacity_of (a : Activity) : Q := py_or_lit (resource_max_fte a) 1.

Section SkillDemand.

Variable to_datetime : string -> option SkillAnalyzer.pdate.

(** The activity takes part in the skill analysis: it names skills and a
    resource, and both of its planned dates are handed on by
    [_parse_date]. *)
Definition takes_part (a : Activity) : bool :=
  str_truthy (skill_tags a) && str_truthy (resource_id a)
  && match SkillAnalyzer._parse_date to_datetime (planned_start a),
           SkillAnalyzer._parse_date to_datetime (planned_finish a) with
     | Some _, Some _ => true
     | _, _ => false
     end.

(** The demands of one activity: one for each of its tags, on its
    resource. *)
Definition demands_of (a : Activity) : list ((string * string) * Activity) :=
  match resource_id a with
  | Some resource =>
      if takes_part a
      then map (fun skill => ((skill, resource), a))
               (SkillAnalyzer.parse_skill_tags (skill_tags a))
      else []
  | None => []
  end.

(** The activities that ask for [skill] on [resource], in the order of the
    activity list, each as often as the tag occurs on it. *)
Definition contributions (acts : list Activity) (skill resource : string)
    : list Activity :=
  map snd
    (filter (fun demand => SkillAnalyzer.key_eqb (fst demand) (skill, resource))
       (flat_map demands_of acts)).

(** The summed FTE demand on the pair. *)
Definition pair_demand (acts : list Activity) (skill resource : string) : Q :=
  fold_left (fun total a => total + fte_of a)
    (contributions acts skill resource) 0.

(** The capacity taken for the pair: the one stated by the first activity
    that asks for it. *)
Definition pair_capacity (acts : list Activity) (skill resource : string)
    : Q :=
  match contributions acts skill resource with
  | a :: _ => capacity_of a
  | [] => 1
  end.

(** The pair is clear of the rounding of the binary64 sum: at most 100000
    demands, none above 100 FTE in absolute value, and a summed demand at
    least a thousandth of an FTE away from the capacity. *)
Definition clear_of_rounding (acts : list Activity) (skill resource : string)
    : Prop :=
  (Z.of_nat (List.length (contributions acts skill resource)) <= 100000)%Z /\
  (forall a, In a (contributions acts skill resource) ->
             Qabs (fte_of a) <= 100) /\
  1 # 1000 <= Qabs (pair_demand acts skill resource
                    - pair_capacity acts skill resource).

(** Recording one demand: the body of [for skill in skills] for the
    activity and the tag of the demand. *)
Definition record_demand (skill_demand : SkillAnalyzer.demand_dict)
    (demand : (string * string) * Activity)
    : outcome SkillAnalyzer.demand_dict :=
  let a := snd demand in
  match SkillAnalyzer._parse_date to_datetime (planned_start a),
        SkillAnalyzer._parse_date to_datetime (planned_finish a) with
  | Some planned_start, Some planned_finish =>
      SkillAnalyzer.record_skill a (snd (fst demand)) planned_start
        planned_finish (fte_of a) (capacity_of a) skill_demand
        (fst (fst demand))
  | _, _ => Ret skill_demand
  end.


End SkillDemand.

(** *** Looked-up signals *)

(** What [d.get(key, default)] returns. *)
Definition entry {V : Type} (d : odict V) (key : string) (default value : V)
    : Prop :=
  match dget d key with
  | Some v => value = v
  | None => value = default
  end.

(** What the modulator reads under [field] and [key] of the enriched
    features: the number stored there, and 0 when the field is absent, is
    not a dictionary, or lacks the key. *)
Inductive signal (features : odict pyval) (field key : string) : Q -> Prop :=
  | signal_value (m : odict Q) (v : Q) :
      dget features field = Some (VDict m) -> dget m key = Some v ->
      signal features field key v
  | signal_no_key (m : odict Q) :
      dget features field = Some (VDict m) -> dget m key = None ->
      signal features field key 0
  | signal_no_field :
      dget features field = None -> signal features field key 0
  | signal_not_dict (x : pyval) :
      dget features field = Some x -> (forall m, x <> VDict m) ->
      signal features field key 0.

(** The first of the listed durations that is filled in and is not zero. *)
Fixpoint first_nonzero (candidates : list (option Q)) : option Q :=
  match candidates with
  | [] => None
  | Some q :: rest => if Qeq_bool q 0 then first_nonzero rest else Some q
  | None :: rest => first_nonzero rest
  end.

(** The base duration: the first of remaining, planned and baseline
    duration that is filled in and not zero, and 1 when there is none or
    when it is negative. *)
Definition fallback_duration (a : Activity) : Q :=
  match first_nonzero
          [remaining_duration a; planned_duration a; baseline_duration a] with
  | Some d => if Qlt_bool 0 d then d else 1
  | None => 1
  end.

(** *** Runs of the simulation *)



(** Every listed node is a node of the graph and has a duration. *)
Definition scheduled (g : Nx.DiGraph) (durations : odict Q)
    (path : list string) : Prop :=
  forall n, In n path -> In n (Nx.nodes g) /\ dmem durations n = true.


(** Every entry of the activity dictionary is stored under its own id. *)
Definition keyed_by_id (d : odict Activity) : Prop :=
  forall k a, In (k, a) d -> k = activity_id a.

End MoreVocabulary.
Import MoreVocabulary.
(* ================================================================== *)
(** * Verification *)
(* ================================================================== *)

(** ** Comparisons on rationals *)

Lemma Qlt_bool_iff (a b : Q) : Qlt_bool a b = true <-> a < b.
Proof.
  unfold Qlt_bool. rewrite negb_true_iff.
  split; intro H.
  - apply Qnot_le_lt. intro Hle. apply Qle_bool_iff in Hle. congruence.
  - destruct (Qle_bool b a) eqn:E; [|reflexivity].
    apply Qle_bool_iff in E. exfalso. apply (Qlt_not_le _ _ H E).
Qed.

Lemma Qlt_bool_false_iff (a b : Q) : Qlt_bool a b = false <-> b <= a.
Proof.
  unfold Qlt_bool. rewrite negb_false_iff. apply Qle_bool_iff.
Qed.

Lemma Qle_bool_false_iff (a b : Q) : Qle_bool a b = false <-> b < a.
Proof.
  rewrite <- Qlt_bool_iff. unfold Qlt_bool.
  destruct (Qle_bool a b); simpl; split; congruence.
Qed.

Lemma Qeq_bool_false_iff (a b : Q) : Qeq_bool a b = false <-> ~ a == b.
Proof.
  split.
  - intros H Heq. apply Qeq_bool_iff in Heq. congruence.
  - intro H. destruct (Qeq_bool a b) eqn:E; [|reflexivity].
    apply Qeq_bool_iff in E. contradiction.
Qed.

Lemma Qmax_cases (a b : Q) :
  (a < b /\ Qmax a b == b) \/ (b <= a /\ Qmax a b == a).
Proof.
  destruct (Q.max_spec a b) as [[H1 H2]|[H1 H2]]; [left|right]; split; auto.
Qed.

Lemma Qmin_cases (a b : Q) :
  (a < b /\ Qmin a b == a) \/ (b <= a /\ Qmin a b == b).
Proof.
  destruct (Q.min_spec a b) as [[H1 H2]|[H1 H2]]; [left|right]; split; auto.
Qed.

(** Case analysis on every [Qmax]/[Qmin] of the goal and of the context,
    then linear arithmetic. *)
Ltac split_max a b :=
  let H := fresh "Hcmp" in
  let E := fresh "Hval" in
  let x := fresh "m" in
  destruct (Qmax_cases a b) as [[H E]|[H E]];
  set (x := Qmax a b) in *; clearbody x.

Ltac split_min a b :=
  let H := fresh "Hcmp" in
  let E := fresh "Hval" in
  let x := fresh "m" in
  destruct (Qmin_cases a b) as [[H E]|[H E]];
  set (x := Qmin a b) in *; clearbody x.

Ltac minmax_lra :=
  repeat match goal with
  | |- context [Qmax ?a ?b] => split_max a b
  | |- context [Qmin ?a ?b] => split_min a b
  | _ : context [Qmax ?a ?b] |- _ => split_max a b
  | _ : context [Qmin ?a ?b] |- _ => split_min a b
  end; try lra.

(** Turn boolean comparisons in the context into propositions. *)
Ltac bool_to_prop :=
  repeat match goal with
  | H : Qle_bool _ _ = true |- _ => apply Qle_bool_iff in H
  | H : Qle_bool _ _ = false |- _ => apply Qle_bool_false_iff in H
  | H : Qlt_bool _ _ = true |- _ => apply Qlt_bool_iff in H
  | H : Qlt_bool _ _ = false |- _ => apply Qlt_bool_false_iff in H
  | H : Qeq_bool _ _ = true |- _ => apply Qeq_bool_iff in H
  | H : Qeq_bool _ _ = false |- _ => apply Qeq_bool_false_iff in H
  | H : andb _ _ = true |- _ => apply andb_true_iff in H; destruct H
  end.

(** ** The float score ([core/features.py]) *)

Module FeaturesFacts.

Import Features.

Lemma float_score_ramp (d : Q) :
  0 < d -> d < 5 -> float_score d == 1 - d / 5.
Proof.
  intros H0 H5. unfold float_score.
  destruct (Qle_bool d 0) eqn:E1; bool_to_prop; [lra|].
  destruct (Qlt_bool 0 d) eqn:E2; bool_to_prop; [|lra].
  destruct (Qlt_bool d 5) eqn:E3; bool_to_prop; [|lra].
  simpl.
  assert (Hd : d / 5 == d * (1 # 5)) by (field).
  minmax_lra.
Qed.

(** The float score never grows with the float. *)
Lemma float_score_never_grows (d1 d2 : Q) :
  d1 <= d2 -> float_score d2 <= float_score d1.
Proof.
  intro H. unfold float_score.
  assert (H1 : d1 / 5 == d1 * (1 # 5)) by field.
  assert (H2 : d2 / 5 == d2 * (1 # 5)) by field.
  destruct (Qle_bool d1 0) eqn:A1; destruct (Qle_bool d2 0) eqn:A2;
  destruct (Qlt_bool 0 d1) eqn:B1; destruct (Qlt_bool 0 d2) eqn:B2;
  destruct (Qlt_bool d1 5) eqn:C1; destruct (Qlt_bool d2 5) eqn:C2;
  bool_to_prop; cbn [andb]; solve [minmax_lra].
Qed.

(** C9, as the code has it.  The float score is 1 for a float of at most 0
    days, 0 for a float of at least 5 days, follows the ramp [1 - float/5]
    strictly between the two, and never grows with the float. *)
Theorem float_score_piecewise (float_days : Q) :
  (float_days <= 0 -> float_score float_days == 1) /\
  (5 <= float_days -> float_score float_days == 0) /\
  (0 < float_days -> float_days < 5 ->
     float_score float_days == 1 - float_days / 5) /\
  (forall later : Q,
     float_days <= later -> float_score later <= float_score float_days).
Proof.
  repeat split.
  - intro H. unfold float_score.
    destruct (Qle_bool float_days 0) eqn:E; bool_to_prop; [reflexivity|lra].
  - intro H. unfold float_score.
    destruct (Qle_bool float_days 0) eqn:E1; bool_to_prop; [lra|].
    destruct (Qlt_bool 0 float_days) eqn:E2; simpl; [|reflexivity].
    destruct (Qlt_bool float_days 5) eqn:E3; bool_to_prop; [lra|reflexivity].
  - apply float_score_ramp.
  - intros later H. apply float_score_never_grows. exact H.
Qed.

Lemma float_score_piecewise_witness :
  float_score (-3) == 1 /\ float_score 7 == 0 /\
  float_score 2 == 1 - 2 / 5 /\ float_score 4 <= float_score 2.
Proof.
  destruct (float_score_piecewise (-3)) as [H1 _].
  destruct (float_score_piecewise 7) as [_ [H2 _]].
  destruct (float_score_piecewise 2) as [_ [_ [H3 H4]]].
  split; [apply H1; vm_compute; discriminate|].
  split; [apply H2; vm_compute; discriminate|].
  split; [apply H3; reflexivity|].
  apply H4. vm_compute. discriminate.
Defined.

(** C9, as the claim words it, fails in the arithmetic of the code.  The
    two binary64 numbers nearest to 1e-17 and 2e-17 lie strictly between 0
    and 5 and the second is the larger one, yet both get the float score
    1.0: the quotient by 5.0 is below half the distance from 1.0 to its
    neighbour, so the subtraction rounds to 1.0.  On their exact values the
    ramp is strictly decreasing. *)
Lemma float_score_plateau :
  let a := Binary64.near_1e_17 in
  let b := Binary64.near_2e_17 in
  PrimFloat.ltb Binary64.zero a = true /\ PrimFloat.ltb a b = true /\
  PrimFloat.ltb b Binary64.five = true /\
  Binary64.float_score a = Binary64.one /\
  Binary64.float_score b = Binary64.one /\
  Binary64.to_Q a < Binary64.to_Q b /\
  float_score (Binary64.to_Q b) < float_score (Binary64.to_Q a).
Proof.
  cbv zeta. repeat split; vm_compute; reflexivity.
Qed.

End FeaturesFacts.

(** ** The rule-based scorer ([core/risk_model.py]) *)

Module RiskModelFacts.

Import RiskModel.


Lemma minmax_clamp_compat (x y : Q) :
  x == y -> Qmax 0 (Qmin 100 x) == Qmax 0 (Qmin 100 y).
Proof. intro H. minmax_lra. Qed.



Lemma critical_bonus_range (s : Q) :
  25 <= critical_bonus s /\ critical_bonus s <= 40.
Proof.
  unfold critical_bonus.
  destruct (Qle_bool (8 # 10) s); [lra|].
  destruct (Qle_bool binary64_0_6 s); [lra|].
  destruct (Qle_bool (4 # 10) s); lra.
Qed.

(** The lower the float (the higher the float score), the larger the
    bonus. *)
Lemma critical_bonus_monotone (s1 s2 : Q) :
  s1 <= s2 -> critical_bonus s1 <= critical_bonus s2.
Proof.
  intro H. unfold critical_bonus.
  destruct (Qle_bool (8 # 10) s1) eqn:A1;
  destruct (Qle_bool (8 # 10) s2) eqn:A2;
  destruct (Qle_bool binary64_0_6 s1) eqn:B1;
  destruct (Qle_bool binary64_0_6 s2) eqn:B2;
  destruct (Qle_bool (4 # 10) s1) eqn:C1;
  destruct (Qle_bool (4 # 10) s2) eqn:C2;
  bool_to_prop; unfold binary64_0_6 in *; lra.
Qed.

(** Name each scorer as the corresponding [raw_score]. *)
Ltac fold_raw_scores :=
  change _compute_schedule_delay_score with (raw_score ScheduleDelay);
  change _compute_progress_slip_score with (raw_score ProgressSlip);
  change _compute_risk_register_score with (raw_score RiskRegister);
  change _compute_float_criticality_score with (raw_score FloatCriticality);
  change _compute_dependency_score with (raw_score Dependency);
  change _compute_resource_overload_score with (raw_score ResourceOverload);
  change _compute_anomaly_score with (raw_score Anomaly).







(** *** Degenerate populations *)

Lemma fold_max_constant (v : Q) (r : list Q) (x : Q) :
  x == v -> (forall y, In y r -> y == v) -> fold_left Qmax r x == v.
Proof.
  revert x. induction r as [|y r IH]; intros x Hx Hr; simpl; [exact Hx|].
  apply IH.
  - assert (Hy : y == v) by (apply Hr; left; reflexivity). minmax_lra.
  - intros z Hz. apply Hr. right. exact Hz.
Qed.

Lemma fold_min_constant (v : Q) (r : list Q) (x : Q) :
  x == v -> (forall y, In y r -> y == v) -> fold_left Qmin r x == v.
Proof.
  revert x. induction r as [|y r IH]; intros x Hx Hr; simpl; [exact Hx|].
  apply IH.
  - assert (Hy : y == v) by (apply Hr; left; reflexivity). minmax_lra.
  - intros z Hz. apply Hr. right. exact Hz.
Qed.

Lemma normalize_value_constant (value v : Q) (l : list Q) :
  (forall y, In y l -> y == v) -> normalize_value value l = 0.
Proof.
  intro H. destruct l as [|x r]; [reflexivity|].
  unfold normalize_value, max_list, min_list.
  assert (Hmax : fold_left Qmax r x == v).
  { apply fold_max_constant; intros; apply H; simpl; auto. }
  assert (Hmin : fold_left Qmin r x == v).
  { apply fold_min_constant; intros; apply H; simpl; auto. }
  assert (E : Qeq_bool (fold_left Qmax r x) (fold_left Qmin r x) = true).
  { apply Qeq_bool_iff. rewrite Hmax, Hmin. reflexivity. }
  rewrite E. reflexivity.
Qed.

Lemma normalize_value_degenerate (c : component) (f : Features)
    (pfs : list Features) :
  same_raw_score c pfs ->
  normalize_value (raw_score c f) (map (raw_score c) pfs) = 0.
Proof.
  intro H. destruct pfs as [|g0 r]; [reflexivity|].
  apply (normalize_value_constant _ (raw_score c g0)).
  intros y Hy. apply in_map_iff in Hy. destruct Hy as [g [<- Hg]].
  apply H; simpl; auto.
Qed.

Lemma predict_degenerate (f : Features) (pfs : list Features) :
  (1 < List.length pfs)%nat ->
  (forall c, same_raw_score c pfs) ->
  predict f (Some pfs) == 0.
Proof.
  intros Hlen H. unfold predict.
  assert (E : has_population (Some pfs) = true).
  { simpl. apply Nat.ltb_lt. exact Hlen. }
  rewrite E. cbv beta iota zeta. unfold get.
  fold_raw_scores.
  rewrite !normalize_value_degenerate by apply H.
  vm_compute. reflexivity.
Qed.

(** C10.  With a population of at least two activities, a component whose
    raw score is the same for every member is normalised to 0 whatever that
    raw score is; when this holds of all seven components, in particular
    when all activities have identical features, every activity is scored
    0. *)
Theorem degenerate_normalisation_scores_zero (f : Features)
    (pfs : list Features) :
  (1 < List.length pfs)%nat ->
  (forall c : component,
     same_raw_score c pfs ->
     normalize_value (raw_score c f) (map (raw_score c) pfs) == 0) /\
  ((forall c : component, same_raw_score c pfs) ->
     predict f (Some pfs) == 0) /\
  ((forall g, In g pfs -> g = f) -> predict f (Some pfs) == 0).
Proof.
  intro Hlen. split; [|split].
  - intros c H. rewrite normalize_value_degenerate by exact H. reflexivity.
  - intro H. apply predict_degenerate; assumption.
  - intro H. apply predict_degenerate; [assumption|].
    intros c g h Hg Hh. rewrite (H g Hg), (H h Hh). reflexivity.
Qed.

Lemma degenerate_normalisation_scores_zero_witness :
  predict Scenario.severe (Some [Scenario.severe; Scenario.severe]) == 0 /\
  predict Scenario.severe None == 100.
Proof.
  split; [|reflexivity].
  destruct (degenerate_normalisation_scores_zero Scenario.severe
              [Scenario.severe; Scenario.severe]) as [_ [_ H]].
  - simpl. lia.
  - apply H. intros g [<-|[<-|[]]]; reflexivity.
Defined.

End RiskModelFacts.

(** ** The uncertainty modulator ([core/uncertainty_modulator.py]) *)

Module UncertaintyModulatorFacts.

Import McForecaster UncertaintyModulator.

Lemma truthy_given (x : option Q) (v : Q) : given x v -> truthy x = true.
Proof.
  intros [-> Hv]. simpl. apply negb_true_iff. apply Qeq_bool_false_iff. lra.
Qed.

Lemma truthy_missing (x : option Q) : missing x -> truthy x = false.
Proof.
  destruct x as [q|]; simpl; [|reflexivity].
  intro H. apply negb_false_iff. apply Qeq_bool_iff. exact H.
Qed.

Lemma py_or_lit_given (x : option Q) (v d : Q) :
  given x v -> py_or_lit x d = v.
Proof.
  intros [-> Hv]. simpl.
  assert (E : Qeq_bool v 0 = false) by (apply Qeq_bool_false_iff; lra).
  rewrite E. reflexivity.
Qed.

Lemma py_or_lit_missing (x : option Q) (d : Q) :
  missing x -> py_or_lit x d = d.
Proof.
  destruct x as [q|]; simpl; [|reflexivity].
  intro H. apply Qeq_bool_iff in H. rewrite H. reflexivity.
Qed.

Lemma positive_kept (v : Q) : 0 < v -> (if Qle_bool v 0 then 1 else v) = v.
Proof.
  intro H. destruct (Qle_bool v 0) eqn:E; [|reflexivity].
  bool_to_prop. lra.
Qed.

Lemma starting_duration_cases (a : Activity) :
  (forall v, given (remaining_duration a) v -> starting_duration a = v) /\
  (forall v, missing (remaining_duration a) ->
     given (planned_duration a) v -> starting_duration a = v) /\
  (forall v, missing (remaining_duration a) ->
     missing (planned_duration a) ->
     given (baseline_duration a) v -> starting_duration a = v) /\
  (missing (remaining_duration a) -> missing (planned_duration a) ->
     missing (baseline_duration a) -> starting_duration a = 1).
Proof.
  unfold starting_duration, first_duration, py_or.
  repeat split.
  - intros v H. rewrite (truthy_given _ _ H). rewrite (truthy_given _ _ H).
    rewrite (py_or_lit_given _ _ _ H). apply positive_kept. apply H.
  - intros v H1 H2. rewrite (truthy_missing _ H1).
    rewrite (truthy_given _ _ H2).
    rewrite (py_or_lit_given _ _ _ H2). apply positive_kept. apply H2.
  - intros v H1 H2 H3. rewrite (truthy_missing _ H1).
    rewrite (truthy_missing _ H2).
    rewrite (py_or_lit_given _ _ _ H3). apply positive_kept. apply H3.
  - intros H1 H2 H3. rewrite (truthy_missing _ H1).
    rewrite (truthy_missing _ H2).
    rewrite (py_or_lit_missing _ _ H3). reflexivity.
Qed.

Lemma signal_nested_get (features : odict pyval) (field key : string)
    (v : Q) :
  signal features field key v -> nested_get features field key = v.
Proof.
  unfold nested_get, dget_or.
  intros [m v' H1 H2|m H1 H2|H1|x H1 H2]; rewrite H1.
  - rewrite H2. reflexivity.
  - rewrite H2. reflexivity.
  - reflexivity.
  - destruct x as [q|m|]; [reflexivity| |reflexivity].
    exfalso. apply (H2 m). reflexivity.
Qed.

Lemma entry_dget_or {V : Type} (d : odict V) (key : string)
    (default value : V) :
  entry d key default value -> dget_or d key default = value.
Proof.
  unfold entry, dget_or. destruct (dget d key); intro H; symmetry; exact H.
Qed.

(** The starting duration is the first filled-in, non-zero duration, and 1
    when there is none or when it is negative. *)
Lemma starting_duration_fallback (a : Activity) :
  starting_duration a = fallback_duration a.
Proof.
  unfold starting_duration, fallback_duration, first_duration, py_or,
    first_nonzero, py_or_lit, truthy, Qlt_bool.
  destruct (remaining_duration a) as [r|];
    [destruct (Qeq_bool r 0) eqn:Er; cbn [negb]|];
  (destruct (planned_duration a) as [p|];
    [destruct (Qeq_bool p 0) eqn:Ep; cbn [negb]|]);
  (destruct (baseline_duration a) as [b|];
    [destruct (Qeq_bool b 0) eqn:Eb; cbn [negb]|]);
  rewrite ?Er, ?Ep, ?Eb; cbv beta iota zeta delta [negb];
  rewrite ?Er, ?Ep, ?Eb; cbv beta iota zeta delta [negb];
  try match goal with
      | |- context [Qle_bool ?x 0] => destruct (Qle_bool x 0)
      end;
  reflexivity.
Qed.

(** C6, as the code has it.  For the signals read from its inputs (the
    drift and cost signals of the enriched features, the skill variance of
    the activity, the topology variance under the activity id, and the three
    archetype figures, each with its default), the modulator returns: mode
    shift = drift + archetype mode shift; variance multiplier = skill
    variance * topology variance * archetype variance; failure probability
    = the larger of the archetype's and the cost signal's; base duration =
    the first of remaining, planned and baseline duration that is filled in
    and not zero, and 1 when there is none or when it is negative.  The
    forensic simulation then uses the mode
    [base_duration * (1 + mode_shift)], which is 12 for a base duration of
    10, no drift and archetype 2. *)
Theorem modulate_uncertainty_rules (activity : Activity)
    (enriched_features : odict pyval) (risk_archetype : odict Q)
    (topology_metrics : odict pyval) (skill_analysis : SkillAnalysis)
    (activity_topology : odict Q)
    (drift cost skill_variance topology_variance archetype_shift
       archetype_variance archetype_failure : Q) :
  signal enriched_features "drift_velocity" "mode_shift_factor" drift ->
  signal enriched_features "cost_performance" "risk_event_probability" cost ->
  entry (match variance_increase_map skill_analysis with
         | Some m => m
         | None => []
         end) (activity_id activity) 1 skill_variance ->
  entry topology_metrics (activity_id activity) (VDict [])
    (VDict activity_topology) ->
  entry activity_topology "variance_multiplier" 1 topology_variance ->
  entry risk_archetype "mode_shift_factor" 0 archetype_shift ->
  entry risk_archetype "variance_multiplier" 1 archetype_variance ->
  entry risk_archetype "failure_probability" 0 archetype_failure ->
  exists up : UncertaintyParams,
    modulate_uncertainty activity enriched_features risk_archetype
      topology_metrics skill_analysis = Ret up /\
    mode_shift_factor up = drift + archetype_shift /\
    variance_multiplier up
      = skill_variance * topology_variance * archetype_variance /\
    failure_probability up = Qmax archetype_failure cost /\
    base_duration up = fallback_duration activity /\
    (forall v, given (remaining_duration activity) v -> base_duration up = v) /\
    (forall v, missing (remaining_duration activity) ->
       given (planned_duration activity) v -> base_duration up = v) /\
    (forall v, missing (remaining_duration activity) ->
       missing (planned_duration activity) ->
       given (baseline_duration activity) v -> base_duration up = v) /\
    (missing (remaining_duration activity) ->
       missing (planned_duration activity) ->
       missing (baseline_duration activity) -> base_duration up = 1) /\
    modulated_mode up == base_duration up * (1 + mode_shift_factor up) /\
    (base_duration up == 10 -> drift == 0 ->
     risk_archetype = RiskClustering.get_risk_archetype_characteristics 2 ->
     modulated_mode up == 12).
Proof.
  intros Hdrift Hcost Hskill Htopo Htv Has Hav Haf.
  unfold modulate_uncertainty.
  rewrite (entry_dget_or _ _ _ _ Htopo).
  rewrite (signal_nested_get _ _ _ _ Hdrift).
  rewrite (signal_nested_get _ _ _ _ Hcost).
  rewrite (entry_dget_or _ _ _ _ Hskill).
  rewrite (entry_dget_or _ _ _ _ Htv).
  rewrite (entry_dget_or _ _ _ _ Has).
  rewrite (entry_dget_or _ _ _ _ Hav).
  rewrite (entry_dget_or _ _ _ _ Haf).
  eexists. split; [reflexivity|].
  cbn [mode_shift_factor variance_multiplier failure_probability base_duration].
  fold (starting_duration activity).
  destruct (starting_duration_cases activity) as [B1 [B2 [B3 B4]]].
  split; [reflexivity|]. split; [reflexivity|]. split; [reflexivity|].
  split; [apply starting_duration_fallback|].
  split; [exact B1|]. split; [exact B2|]. split; [exact B3|].
  split; [exact B4|].
  split; [reflexivity|].
  intros Hbase Hd ->.
  unfold entry in Has. cbn in Has. subst archetype_shift.
  unfold modulated_mode, forensic_shape.
  cbn [mode_shift_factor variance_multiplier failure_probability base_duration
       fst snd] in *.
  rewrite Hbase, Hd.
  vm_compute. reflexivity.
Qed.

Lemma modulate_uncertainty_rules_witness :
  exists up : UncertaintyParams,
    modulate_uncertainty (Scenario.remaining_only "A-006" 10)
      [("drift_velocity", VDict [("mode_shift_factor", 1 # 10)]);
       ("cost_performance", VDict [("risk_event_probability", 4 # 10)])]
      (RiskClustering.get_risk_archetype_characteristics 2)
      [("A-006", VDict [("variance_multiplier", 11 # 10)])]
      (mkSkillAnalysis (Some [("A-006", 12 # 10)])) = Ret up /\
    mode_shift_factor up == 3 # 10 /\
    variance_multiplier up == (12 # 10) * (11 # 10) * (15 # 10) /\
    failure_probability up == 4 # 10 /\
    base_duration up == 10.
Proof.
  destruct (modulate_uncertainty_rules (Scenario.remaining_only "A-006" 10)
              [("drift_velocity", VDict [("mode_shift_factor", 1 # 10)]);
               ("cost_performance",
                VDict [("risk_event_probability", 4 # 10)])]
              (RiskClustering.get_risk_archetype_characteristics 2)
              [("A-006", VDict [("variance_multiplier", 11 # 10)])]
              (mkSkillAnalysis (Some [("A-006", 12 # 10)]))
              [("variance_multiplier", 11 # 10)]
              (1 # 10) (4 # 10) (12 # 10) (11 # 10) (2 # 10) (15 # 10)
              (30 # 100))
    as [up [Hret [Hm [Hv [Hf [Hb _]]]]]].
  - apply (signal_value _ _ _ [("mode_shift_factor", 1 # 10)]); reflexivity.
  - apply (signal_value _ _ _ [("risk_event_probability", 4 # 10)]);
      reflexivity.
  - reflexivity.
  - reflexivity.
  - reflexivity.
  - reflexivity.
  - reflexivity.
  - reflexivity.
  - exists up. split; [exact Hret|].
    split; [rewrite Hm; reflexivity|].
    split; [rewrite Hv; reflexivity|].
    split; [rewrite Hf; reflexivity|].
    rewrite Hb. reflexivity.
Defined.

(** C6, as the claim words it, fails on the base duration: with a
    remaining duration of -3 days and a planned duration of 8 days the
    modulator neither keeps the remaining duration nor falls back to the
    planned one; it starts from 1 day. *)
Lemma negative_remaining_duration :
  exists up : UncertaintyParams,
    modulate_uncertainty (Scenario.negative_remaining "A-007") []
      (RiskClustering.get_risk_archetype_characteristics 0) []
      (mkSkillAnalysis None) = Ret up /\
    remaining_duration (Scenario.negative_remaining "A-007") = Some (-3) /\
    planned_duration (Scenario.negative_remaining "A-007") = Some 8 /\
    base_duration up == 1 /\
    ~ base_duration up == -3 /\ ~ base_duration up == 8.
Proof.
  eexists. split; [reflexivity|].
  repeat split; vm_compute; discriminate.
Qed.

End UncertaintyModulatorFacts.

(** ** The twin cache ([core/digital_twin.py], [core/forensic_forecast.py]) *)

Module TwinCacheFacts.

Import DigitalTwin McForecaster Scenario.

(** Once a project id is in [DIGITAL_TWINS], the stored twin is returned and
    the activities passed with the call are not looked at. *)
Lemma cached_twin_is_returned
    (simple_cycles : Nx.DiGraph -> outcome (list (list string)))
    (cache : twin_cache) (project_id : string) (twin : DigitalTwin)
    (acts : option (list Activity)) :
  dget cache project_id = Some twin ->
  get_or_build_twin simple_cycles cache project_id acts = (Ret twin, cache).
Proof.
  intro H. unfold get_or_build_twin. rewrite H. reflexivity.
Qed.

Lemma cached_twin_is_returned_witness :
  get_or_build_twin no_cycles_listed
    [("P1", mkDigitalTwin [] Nx.empty false None)] "P1" (Some chain_ABC)
  = (Ret (mkDigitalTwin [] Nx.empty false None),
     [("P1", mkDigitalTwin [] Nx.empty false None)]).
Proof.
  apply cached_twin_is_returned. reflexivity.
Defined.

(** C5 (the code departs from the claim).  A forecast for project ["P1"] is
    computed from the chain A -> B; the activity data then changes to
    A -> B -> C.  The second call of the pipeline with the same project id
    is served the twin built from the old data: its forecast is the old one
    (8 days, indices for A and B only), although a fresh run on the new
    data gives 18 days. *)
Theorem stale_twin_after_data_change :
  let '(first, cache1) := plain_forecast [] "P1" chain_AB 2 in
  let '(second, cache2) := plain_forecast cache1 "P1" chain_ABC 2 in
  let '(fresh, _) := plain_forecast [] "P1" chain_ABC 2 in
  (exists r s, first = Ret (r, s) /\ p50 r = 8%Z) /\
  (exists r s, second = Ret (r, s) /\ p50 r = 8%Z /\
     dkeys (criticality_indices r) = ["A"; "B"]) /\
  (exists r s, fresh = Ret (r, s) /\ p50 r = 18%Z /\
     dkeys (criticality_indices r) = ["A"; "B"; "C"]) /\
  second = first /\ second <> fresh /\
  dkeys (activities
           (dget_or cache2 "P1" (mkDigitalTwin [] Nx.empty false None)))
    = ["A"; "B"].
Proof.
  vm_compute.
  split; [eexists; eexists; split; reflexivity|].
  split; [eexists; eexists; repeat split; reflexivity|].
  split; [eexists; eexists; repeat split; reflexivity|].
  split; [reflexivity|].
  split; [discriminate|reflexivity].
Qed.

End TwinCacheFacts.

(** ** Dictionaries *)

Module DictFacts.

Lemma str_in_iff (x : string) (xs : list string) :
  str_in x xs = true <-> In x xs.
Proof.
  unfold str_in. rewrite existsb_exists. split.
  - intros [y [Hy E]]. apply String.eqb_eq in E. subst. exact Hy.
  - intro H. exists x. split; [exact H|apply String.eqb_refl].
Qed.

Lemma str_in_false_iff (x : string) (xs : list string) :
  str_in x xs = false <-> ~ In x xs.
Proof.
  rewrite <- str_in_iff. destruct (str_in x xs); split; congruence.
Qed.

Section Dict.

Context {V : Type}.
Implicit Types (d : odict V) (k : string) (v : V).

Lemma dget_In d k v : dget d k = Some v -> In (k, v) d.
Proof.
  induction d as [|[k' v'] r IH]; simpl; [discriminate|].
  destruct (String.eqb_spec k k') as [->|Hne].
  - intros [= ->]. left. reflexivity.
  - intro H. right. apply IH. exact H.
Qed.

Lemma dget_None_iff d k : dget d k = None <-> ~ In k (dkeys d).
Proof.
  induction d as [|[k' v'] r IH]; simpl.
  - split; auto.
  - destruct (String.eqb_spec k k') as [->|Hne].
    + split; [discriminate|]. intro H. exfalso. apply H. left. reflexivity.
    + rewrite IH. split.
      * intros H [E|Hin]; [congruence|contradiction].
      * intros H Hin. apply H. right. exact Hin.
Qed.

Lemma dget_Some_key d k v : dget d k = Some v -> In k (dkeys d).
Proof.
  intro H. destruct (in_dec string_dec k (dkeys d)) as [Hin|Hout]; [exact Hin|].
  apply dget_None_iff in Hout. congruence.
Qed.

Lemma dkeys_dset_present d k v :
  In k (dkeys d) -> dkeys (dset d k v) = dkeys d.
Proof.
  induction d as [|[k' v'] r IH]; simpl; [contradiction|].
  destruct (String.eqb_spec k k') as [->|Hne]; [reflexivity|].
  intros [E|Hin]; [congruence|]. simpl. rewrite IH by exact Hin. reflexivity.
Qed.

Lemma dkeys_dset_absent d k v :
  ~ In k (dkeys d) -> dkeys (dset d k v) = dkeys d ++ [k].
Proof.
  induction d as [|[k' v'] r IH]; simpl; [reflexivity|].
  destruct (String.eqb_spec k k') as [->|Hne].
  - intro H. exfalso. apply H. left. reflexivity.
  - intro H. simpl. rewrite IH; [reflexivity|]. intro Hin. apply H. right.
    exact Hin.
Qed.

Lemma dget_dset_same d k v : dget (dset d k v) k = Some v.
Proof.
  induction d as [|[k' v'] r IH]; simpl.
  - rewrite String.eqb_refl. reflexivity.
  - destruct (String.eqb_spec k k') as [->|Hne]; simpl.
    + rewrite String.eqb_refl. reflexivity.
    + destruct (String.eqb_spec k k'); [congruence|exact IH].
Qed.

Lemma dget_dset_other d k k' v :
  k' <> k -> dget (dset d k v) k' = dget d k'.
Proof.
  intro Hne. induction d as [|[k0 v0] r IH]; simpl.
  - destruct (String.eqb_spec k' k); [congruence|reflexivity].
  - destruct (String.eqb_spec k k0) as [->|Hne0]; simpl.
    + destruct (String.eqb_spec k' k0); [congruence|reflexivity].
    + destruct (String.eqb_spec k' k0); [reflexivity|exact IH].
Qed.

Lemma dget_ddel_other d k k' :
  k' <> k -> dget (ddel d k) k' = dget d k'.
Proof.
  intro Hne. induction d as [|[k0 v0] r IH]; simpl; [reflexivity|].
  destruct (String.eqb_spec k k0) as [->|Hne0]; simpl.
  - destruct (String.eqb_spec k' k0); [congruence|reflexivity].
  - destruct (String.eqb_spec k' k0); [reflexivity|exact IH].
Qed.

Lemma dkeys_ddel_subset d k k' : In k' (dkeys (ddel d k)) -> In k' (dkeys d).
Proof.
  induction d as [|[k0 v0] r IH]; simpl; [auto|].
  destruct (String.eqb_spec k k0) as [->|Hne0]; simpl.
  - auto.
  - intros [E|H]; [left; exact E|right; apply IH; exact H].
Qed.

Lemma dget_ddel_same d k : NoDup (dkeys d) -> dget (ddel d k) k = None.
Proof.
  induction d as [|[k0 v0] r IH]; simpl; [reflexivity|].
  intro Hnd. inversion Hnd as [|? ? Hout Hnd']; subst.
  destruct (String.eqb_spec k k0) as [->|Hne0]; simpl.
  - apply dget_None_iff. exact Hout.
  - destruct (String.eqb_spec k k0); [congruence|]. apply IH. exact Hnd'.
Qed.

Lemma NoDup_dkeys_ddel d k : NoDup (dkeys d) -> NoDup (dkeys (ddel d k)).
Proof.
  induction d as [|[k0 v0] r IH]; simpl; [auto|].
  intro Hnd. inversion Hnd as [|? ? Hout Hnd']; subst.
  destruct (String.eqb_spec k k0) as [->|Hne0]; simpl; [exact Hnd'|].
  constructor; [|apply IH; exact Hnd'].
  intro H. apply Hout. apply (dkeys_ddel_subset r k). exact H.
Qed.

Lemma length_ddel d k v :
  dget d k = Some v -> S (List.length (ddel d k)) = List.length d.
Proof.
  induction d as [|[k0 v0] r IH]; simpl; [discriminate|].
  destruct (String.eqb_spec k k0) as [->|Hne0]; simpl; [reflexivity|].
  intro H. rewrite IH by exact H. reflexivity.
Qed.

Lemma length_dset_present d k v v' :
  dget d k = Some v' -> List.length (dset d k v) = List.length d.
Proof.
  induction d as [|[k0 v0] r IH]; simpl; [discriminate|].
  destruct (String.eqb_spec k k0) as [->|Hne0]; simpl; [reflexivity|].
  intro H. rewrite IH by exact H. reflexivity.
Qed.

End Dict.

End DictFacts.
Import DictFacts.

(** ** Kahn's algorithm ([networkx.topological_sort]) *)

Module NxFacts.

Import Nx.

(** *** The fuel is enough *)

Lemma relax_children_size (children : list string) :
  forall (m : odict Z) (z : list string) (m' : odict Z) (z' : list string),
  relax_children children (m, z) = Ret (m', z') ->
  (List.length m' + List.length z' = List.length m + List.length z)%nat.
Proof.
  induction children as [|c rest IH]; intros m z m' z' H; simpl in H.
  - injection H as <- <-. reflexivity.
  - destruct (dget m c) as [d|] eqn:E; [|discriminate].
    destruct ((d - 1 =? 0)%Z).
    + apply IH in H. rewrite length_app in H. simpl in H.
      pose proof (length_dset_present m c (d - 1)%Z d E) as Hs.
      assert (Hg : dget (dset m c (d - 1)%Z) c = Some (d - 1)%Z)
        by apply dget_dset_same.
      pose proof (length_ddel _ _ _ Hg) as Hd. lia.
    + apply IH in H.
      pose proof (length_dset_present m c (d - 1)%Z d E) as Hs. lia.
Qed.

Lemma relax_generation_size (g : DiGraph) (generation : list string) :
  forall (m : odict Z) (z : list string) (m' : odict Z) (z' : list string),
  relax_generation g generation (m, z) = Ret (m', z') ->
  (List.length m' + List.length z' = List.length m + List.length z)%nat.
Proof.
  induction generation as [|n rest IH]; intros m z m' z' H; simpl in H.
  - injection H as <- <-. reflexivity.
  - destruct (relax_children (successors g n) (m, z)) as [[m1 z1]|e] eqn:E;
      simpl in H; [|discriminate].
    apply relax_children_size in E. apply IH in H. lia.
Qed.

Lemma generations_loop_terminates (g : DiGraph) (fuel : nat) :
  forall (m : odict Z) (zero : list string),
  (List.length m < fuel)%nat -> generations_loop fuel g m zero <> None.
Proof.
  induction fuel as [|fuel IH]; intros m zero Hlen; [lia|].
  simpl. destruct zero as [|z0 zs].
  - destruct m; discriminate.
  - destruct (relax_generation g (z0 :: zs) (m, [])) as [[m' next]|e] eqn:E;
      [|discriminate].
    apply relax_generation_size in E. simpl in E.
    assert (Hnext : generations_loop fuel g m' next <> None).
    { destruct next as [|n1 ns].
      - destruct fuel; simpl; destruct m'; discriminate.
      - apply IH. simpl in E. lia. }
    destruct (generations_loop fuel g m' next) as [[gens|e]|];
      [discriminate|discriminate|congruence].
Qed.

Lemma length_filter_le {A : Type} (p : A -> bool) (l : list A) :
  (List.length (filter p l) <= List.length l)%nat.
Proof.
  induction l as [|x r IH]; simpl; [lia|]. destruct (p x); simpl; lia.
Qed.

(** [enough_fuel] never runs out: the last branch of [topological_sort] is
    dead. *)
Lemma topological_sort_fuel_enough (g : DiGraph) :
  topological_generations_fuel (enough_fuel g) g <> None.
Proof.
  unfold topological_generations_fuel, enough_fuel.
  apply generations_loop_terminates.
  unfold initial_indegree_map. rewrite length_map.
  pose proof (length_filter_le (fun v => (0 <? in_degree g v)%Z) (nodes g)).
  lia.
Qed.

(** *** Adjacency *)

Lemma In_successors (g : DiGraph) (u v : string) :
  In v (successors g u) <-> In (u, v) (edges g).
Proof.
  unfold successors. rewrite in_map_iff. split.
  - intros [[a b] [E H]]. apply filter_In in H. destruct H as [H1 H2].
    simpl in *. apply String.eqb_eq in H2. subst. exact H1.
  - intro H. exists (u, v). split; [reflexivity|].
    apply filter_In. split; [exact H|]. simpl. apply String.eqb_refl.
Qed.

Lemma In_predecessors (g : DiGraph) (u v : string) :
  In u (predecessors g v) <-> In (u, v) (edges g).
Proof.
  unfold predecessors. rewrite in_map_iff. split.
  - intros [[a b] [E H]]. apply filter_In in H. destruct H as [H1 H2].
    simpl in *. apply String.eqb_eq in H2. subst. exact H1.
  - intro H. exists (u, v). split; [reflexivity|].
    apply filter_In. split; [exact H|]. simpl. apply String.eqb_refl.
Qed.

Lemma NoDup_successors (g : DiGraph) (u : string) :
  NoDup (edges g) -> NoDup (successors g u).
Proof.
  unfold successors. generalize (edges g) as l.
  induction l as [|[a b] r IH]; intro Hnd; simpl; [constructor|].
  inversion Hnd as [|? ? Hout Hnd']; subst.
  destruct (String.eqb_spec a u) as [->|Hne]; simpl; [|apply IH; exact Hnd'].
  constructor; [|apply IH; exact Hnd'].
  intro H. apply in_map_iff in H. destruct H as [[a' b'] [E H]].
  apply filter_In in H. destruct H as [H1 H2]. simpl in *.
  apply String.eqb_eq in H2. subst. contradiction.
Qed.

Lemma NoDup_predecessors (g : DiGraph) (v : string) :
  NoDup (edges g) -> NoDup (predecessors g v).
Proof.
  unfold predecessors. generalize (edges g) as l.
  induction l as [|[a b] r IH]; intro Hnd; simpl; [constructor|].
  inversion Hnd as [|? ? Hout Hnd']; subst.
  destruct (String.eqb_spec b v) as [->|Hne]; simpl; [|apply IH; exact Hnd'].
  constructor; [|apply IH; exact Hnd'].
  intro H. apply in_map_iff in H. destruct H as [[a' b'] [E H]].
  apply filter_In in H. destruct H as [H1 H2]. simpl in *.
  apply String.eqb_eq in H2. subst. contradiction.
Qed.

(** *** Positions *)

Lemma index_of_app_in (v : string) (l r : list string) :
  In v l -> index_of v (l ++ r) = index_of v l.
Proof.
  induction l as [|x l IH]; simpl; [contradiction|].
  destruct (String.eqb_spec v x) as [->|Hne]; [reflexivity|].
  intros [E|H]; [congruence|]. rewrite IH by exact H. reflexivity.
Qed.

Lemma index_of_app_notin (v : string) (l r : list string) :
  ~ In v l -> index_of v (l ++ r) = (List.length l + index_of v r)%nat.
Proof.
  induction l as [|x l IH]; simpl; [reflexivity|].
  destruct (String.eqb_spec v x) as [->|Hne].
  - intro H. exfalso. apply H. left. reflexivity.
  - intro H. rewrite IH; [reflexivity|]. intro Hin. apply H. right. exact Hin.
Qed.

Lemma index_of_lt_length (v : string) (l : list string) :
  In v l -> (index_of v l < List.length l)%nat.
Proof.
  induction l as [|x l IH]; simpl; [contradiction|].
  destruct (String.eqb_spec v x) as [->|Hne]; [lia|].
  intros [E|H]; [congruence|]. apply IH in H. lia.
Qed.

Lemma before_app (p v : string) (l r : list string) :
  before p v l -> before p v (l ++ r).
Proof.
  intros [Hp [Hv Hlt]]. unfold before.
  rewrite !index_of_app_in by assumption.
  repeat split; try (apply in_or_app; left; assumption). exact Hlt.
Qed.

Lemma before_new (p v : string) (l : list string) :
  In p l -> ~ In v l -> before p v (l ++ [v]).
Proof.
  intros Hp Hv. unfold before.
  rewrite index_of_app_in by exact Hp.
  rewrite index_of_app_notin by exact Hv.
  repeat split.
  - apply in_or_app. left. exact Hp.
  - apply in_or_app. right. left. reflexivity.
  - pose proof (index_of_lt_length p l Hp). lia.
Qed.

Lemma before_trans (a b c : string) (l : list string) :
  before a b l -> before b c l -> before a c l.
Proof.
  intros [Ha [_ H1]] [_ [Hc H2]]. repeat split; try assumption. lia.
Qed.

Lemma before_irrefl (a : string) (l : list string) : ~ before a a l.
Proof. intros [_ [_ H]]. lia. Qed.

(** An element in front of [v] lies in the prefix that precedes [v]. *)
Lemma before_prefix (p v : string) (l1 l2 : list string) :
  ~ In v l1 -> before p v (l1 ++ v :: l2) -> In p l1.
Proof.
  intros Hv [Hp [_ Hlt]].
  rewrite (index_of_app_notin v) in Hlt by exact Hv.
  simpl in Hlt. rewrite String.eqb_refl in Hlt.
  destruct (in_dec string_dec p l1) as [Hin|Hout]; [exact Hin|].
  rewrite (index_of_app_notin p) in Hlt by exact Hout. lia.
Qed.

(** *** Counting the predecessors that are still to come *)

Lemma str_in_app (x : string) (l r : list string) :
  str_in x (l ++ r) = str_in x l || str_in x r.
Proof. unfold str_in. apply existsb_app. Qed.

Lemma outside_count_step (processed : list string) (u : string)
    (l : list string) :
  NoDup l -> ~ In u processed ->
  Z.of_nat (List.length
              (filter (fun p => negb (str_in p (processed ++ [u]))) l))
  = (Z.of_nat (List.length
                 (filter (fun p => negb (str_in p processed)) l))
     - indicator u l)%Z.
Proof.
  intros Hnd Hu. unfold indicator.
  induction l as [|x l IH]; [reflexivity|].
  inversion Hnd as [|? ? Hx Hnd']; subst.
  specialize (IH Hnd'). cbn [filter].
  rewrite str_in_app.
  change (str_in x [u]) with (String.eqb x u || false).
  change (str_in u (x :: l)) with (String.eqb u x || str_in u l).
  rewrite orb_false_r.
  destruct (String.eqb_spec x u) as [->|Hne].
  - rewrite String.eqb_refl.
    assert (E1 : str_in u processed = false)
      by (apply str_in_false_iff; exact Hu).
    assert (E2 : str_in u l = false) by (apply str_in_false_iff; exact Hx).
    rewrite E1, E2 in *. cbn [orb negb List.length].
    rewrite Nat2Z.inj_succ. lia.
  - destruct (String.eqb_spec u x) as [E|_]; [congruence|].
    rewrite orb_false_r. cbn [orb].
    destruct (str_in x processed); cbn [negb List.length]; [exact IH|].
    rewrite !Nat2Z.inj_succ. lia.
Qed.

Lemma indicator_pred_succ (g : DiGraph) (u v : string) :
  indicator u (predecessors g v) = indicator v (successors g u).
Proof.
  unfold indicator.
  destruct (str_in u (predecessors g v)) eqn:E1;
  destruct (str_in v (successors g u)) eqn:E2; try reflexivity.
  - apply str_in_iff in E1. apply str_in_false_iff in E2.
    exfalso. apply E2. apply In_successors. apply In_predecessors. exact E1.
  - apply str_in_iff in E2. apply str_in_false_iff in E1.
    exfalso. apply E1. apply In_predecessors. apply In_successors. exact E2.
Qed.

Lemma remaining_in_degree_step (g : DiGraph) (processed : list string)
    (u v : string) :
  NoDup (edges g) -> ~ In u processed ->
  remaining_in_degree g (processed ++ [u]) v
  = (remaining_in_degree g processed v - indicator v (successors g u))%Z.
Proof.
  intros Hnd Hu. unfold remaining_in_degree.
  rewrite outside_count_step;
    [|apply NoDup_predecessors; exact Hnd|exact Hu].
  rewrite indicator_pred_succ. reflexivity.
Qed.

(** With a single predecessor left outside, that predecessor is [u]. *)
Lemma last_outside (processed : list string) (u : string) (l : list string) :
  List.length (filter (fun p => negb (str_in p processed)) l) = 1%nat ->
  In u l -> ~ In u processed ->
  forall p, In p l -> In p processed \/ p = u.
Proof.
  intros Hlen Hu Hout p Hp.
  destruct (in_dec string_dec p processed) as [Hin|Hnot]; [left; exact Hin|].
  right.
  assert (Hfu : In u (filter (fun p => negb (str_in p processed)) l)).
  { apply filter_In. split; [exact Hu|]. apply negb_true_iff.
    apply str_in_false_iff. exact Hout. }
  assert (Hfp : In p (filter (fun p => negb (str_in p processed)) l)).
  { apply filter_In. split; [exact Hp|]. apply negb_true_iff.
    apply str_in_false_iff. exact Hnot. }
  destruct (filter (fun p => negb (str_in p processed)) l) as [|a [|b r]];
    simpl in Hlen; try discriminate.
  destruct Hfu as [<-|[]]. destruct Hfp as [<-|[]]. reflexivity.
Qed.

(** *** The invariant of the algorithm *)

Lemma indicator_nil (v : string) : indicator v [] = 0%Z.
Proof. reflexivity. Qed.

Lemma indicator_snoc_same (c : string) (l : list string) :
  ~ In c l -> indicator c (l ++ [c]) = (indicator c l + 1)%Z.
Proof.
  intro H. unfold indicator. rewrite str_in_app.
  assert (E : str_in c l = false) by (apply str_in_false_iff; exact H).
  rewrite E. simpl. rewrite String.eqb_refl. reflexivity.
Qed.

Lemma indicator_snoc_other (v c : string) (l : list string) :
  v <> c -> indicator v (l ++ [c]) = indicator v l.
Proof.
  intro H. unfold indicator. rewrite str_in_app. simpl.
  destruct (String.eqb_spec v c); [congruence|].
  rewrite !orb_false_r. reflexivity.
Qed.

Lemma kahn_start_node (g : DiGraph) (processed : list string) (u : string)
    (scheduled : list string) (m : odict Z) :
  kahn_inv g processed (u :: scheduled) m ->
  kahn_mid g processed u scheduled [] m.
Proof.
  intros [Hnd Hnodes Hpreds Hkeys Hcount Hsched].
  constructor; try assumption.
  - intros v p Hv Hp. destruct (Hpreds v p Hv Hp) as [H1 H2].
    split; [left; exact H1|exact H2].
  - intros v d Hd. destruct (Hcount v d Hd) as [H1 [H2 H3]].
    rewrite indicator_nil. repeat split; try assumption. lia.
Qed.

(** The child about to be relaxed still has an entry in the map. *)
Lemma kahn_child_entry (g : DiGraph) (processed : list string) (u : string)
    (scheduled relaxed : list string) (m : odict Z) (c : string) :
  well_formed g ->
  kahn_mid g processed u scheduled relaxed m ->
  In (u, c) (edges g) -> ~ In c relaxed ->
  exists d, dget m c = Some d /\
            d = remaining_in_degree g processed c /\ (0 < d)%Z /\
            ~ In c (processed ++ u :: scheduled).
Proof.
  intros [_ [_ Hends]] [Hnd Hnodes Hpreds Hkeys Hcount Hsched] Hedge Hc.
  destruct (dget m c) as [d|] eqn:E.
  - exists d. destruct (Hcount c d E) as [H1 [H2 H3]].
    unfold indicator in H1.
    assert (E' : str_in c relaxed = false) by (apply str_in_false_iff; exact Hc).
    rewrite E' in H1. repeat split; try assumption. lia.
  - exfalso.
    assert (Hin : In c (processed ++ u :: scheduled)).
    { apply Hsched; [apply (Hends u c Hedge)|exact E]. }
    assert (Hp : In u (predecessors g c)) by (apply In_predecessors; exact Hedge).
    destruct (Hpreds c u Hin Hp) as [[H|[_ H]] _]; [|contradiction].
    apply NoDup_remove_2 in Hnd. apply Hnd. apply in_or_app. left. exact H.
Qed.

Lemma NoDup_snoc (l : list string) (c : string) :
  NoDup l -> ~ In c l -> NoDup (l ++ [c]).
Proof.
  intros Hnd Hc. apply NoDup_app; [exact Hnd|repeat constructor; auto|].
  intros x Hx [<-|[]]. contradiction.
Qed.

(** The in-degree of the child drops to zero: it joins the next
    generation. *)
Lemma kahn_relax_last (g : DiGraph) (processed : list string) (u : string)
    (scheduled relaxed : list string) (m : odict Z) (c : string) :
  well_formed g ->
  kahn_mid g processed u scheduled relaxed m ->
  In (u, c) (edges g) -> ~ In c relaxed ->
  dget m c = Some 1%Z ->
  kahn_mid g processed u (scheduled ++ [c]) (relaxed ++ [c])
    (ddel (dset m c 0%Z) c).
Proof.
  intros Hwf Hmid Hedge Hc Hone.
  destruct (kahn_child_entry g _ _ _ _ _ c Hwf Hmid Hedge Hc)
    as [d [Hd [Hrem [Hpos Hout]]]].
  rewrite Hone in Hd. injection Hd as <-.
  destruct Hwf as [Hn [He Hends]].
  destruct Hmid as [Hnd Hnodes Hpreds Hkeys Hcount Hsched].
  assert (Hu : ~ In u processed).
  { apply NoDup_remove_2 in Hnd. intro H. apply Hnd. apply in_or_app.
    left. exact H. }
  assert (EL : processed ++ u :: scheduled ++ [c]
               = (processed ++ u :: scheduled) ++ [c]).
  { rewrite <- app_assoc. reflexivity. }
  assert (Hkeys' : NoDup (dkeys (dset m c 0%Z))).
  { rewrite dkeys_dset_present; [exact Hkeys|].
    eapply dget_Some_key. exact Hone. }
  constructor.
  - rewrite EL. apply NoDup_snoc; assumption.
  - rewrite EL. intros v Hv. apply in_app_or in Hv.
    destruct Hv as [Hv|[<-|[]]]; [apply Hnodes; exact Hv|].
    apply (Hends u c Hedge).
  - rewrite EL. intros v p Hv Hp. apply in_app_or in Hv.
    destruct Hv as [Hv|[<-|[]]].
    + destruct (Hpreds v p Hv Hp) as [H1 H2]. split.
      * destruct H1 as [H1|[H1 H1']]; [left; exact H1|].
        right. split; [exact H1|]. apply in_or_app. left. exact H1'.
      * apply before_app. exact H2.
    + assert (Hor : In p processed \/ p = u).
      { apply (last_outside processed u (predecessors g c)).
        - unfold remaining_in_degree in Hrem. lia.
        - apply In_predecessors. exact Hedge.
        - exact Hu.
        - exact Hp. }
      split.
      * destruct Hor as [H|H]; [left; exact H|].
        right. split; [exact H|]. apply in_or_app. right. left. reflexivity.
      * apply before_new; [|exact Hout].
        destruct Hor as [H| ->]; apply in_or_app;
          [left; exact H|right; left; reflexivity].
  - apply NoDup_dkeys_ddel. exact Hkeys'.
  - intros v d Hd.
    destruct (string_dec v c) as [->|Hne].
    { rewrite dget_ddel_same in Hd by exact Hkeys'. discriminate. }
    rewrite dget_ddel_other in Hd by exact Hne.
    rewrite dget_dset_other in Hd by exact Hne.
    destruct (Hcount v d Hd) as [H1 [H2 H3]].
    rewrite indicator_snoc_other by exact Hne.
    repeat split; try assumption.
    rewrite EL. intro H. apply in_app_or in H.
    destruct H as [H|[H|[]]]; [contradiction|congruence].
  - intros v Hv Hd. rewrite EL.
    destruct (string_dec v c) as [->|Hne].
    { apply in_or_app. right. left. reflexivity. }
    rewrite dget_ddel_other in Hd by exact Hne.
    rewrite dget_dset_other in Hd by exact Hne.
    apply in_or_app. left. apply Hsched; assumption.
Qed.

(** The child keeps a positive in-degree. *)
Lemma kahn_relax_more (g : DiGraph) (processed : list string) (u : string)
    (scheduled relaxed : list string) (m : odict Z) (c : string) (d : Z) :
  well_formed g ->
  kahn_mid g processed u scheduled relaxed m ->
  In (u, c) (edges g) -> ~ In c relaxed ->
  dget m c = Some d -> (d - 1)%Z <> 0%Z ->
  kahn_mid g processed u scheduled (relaxed ++ [c]) (dset m c (d - 1)%Z).
Proof.
  intros Hwf Hmid Hedge Hc Hd Hnz.
  destruct (kahn_child_entry g _ _ _ _ _ c Hwf Hmid Hedge Hc)
    as [d' [Hd' [Hrem [Hpos Hout]]]].
  rewrite Hd in Hd'. injection Hd' as <-.
  destruct Hmid as [Hnd Hnodes Hpreds Hkeys Hcount Hsched].
  constructor; try assumption.
  - intros v p Hv Hp. destruct (Hpreds v p Hv Hp) as [H1 H2].
    split; [|exact H2].
    destruct H1 as [H1|[H1 H1']]; [left; exact H1|].
    right. split; [exact H1|]. apply in_or_app. left. exact H1'.
  - rewrite dkeys_dset_present; [exact Hkeys|].
    eapply dget_Some_key. exact Hd.
  - intros v d0 Hd0.
    destruct (string_dec v c) as [->|Hne].
    + rewrite dget_dset_same in Hd0. injection Hd0 as <-.
      rewrite indicator_snoc_same by exact Hc.
      destruct (Hcount c d Hd) as [H1 [H2 H3]].
      repeat split; [lia|lia|exact H3].
    + rewrite dget_dset_other in Hd0 by exact Hne.
      rewrite indicator_snoc_other by exact Hne.
      apply Hcount. exact Hd0.
  - intros v Hv Hd0.
    destruct (string_dec v c) as [->|Hne].
    + rewrite dget_dset_same in Hd0. discriminate.
    + rewrite dget_dset_other in Hd0 by exact Hne. apply Hsched; assumption.
Qed.

(** All children relaxed: [u] is processed. *)
Lemma kahn_finish_node (g : DiGraph) (processed : list string) (u : string)
    (scheduled : list string) (m : odict Z) :
  well_formed g ->
  kahn_mid g processed u scheduled (successors g u) m ->
  kahn_inv g (processed ++ [u]) scheduled m.
Proof.
  intros [Hn [He Hends]] [Hnd Hnodes Hpreds Hkeys Hcount Hsched].
  assert (Hu : ~ In u processed).
  { apply NoDup_remove_2 in Hnd. intro H. apply Hnd. apply in_or_app.
    left. exact H. }
  assert (EL : (processed ++ [u]) ++ scheduled = processed ++ u :: scheduled).
  { rewrite <- app_assoc. reflexivity. }
  constructor; rewrite ?EL; try assumption.
  - intros v p Hv Hp. destruct (Hpreds v p Hv Hp) as [H1 H2].
    split; [|exact H2].
    apply in_or_app. destruct H1 as [H1|[-> _]];
      [left; exact H1|right; left; reflexivity].
  - intros v d Hd. destruct (Hcount v d Hd) as [H1 [H2 H3]].
    rewrite remaining_in_degree_step by assumption.
    repeat split; assumption.
Qed.

(** *** The loops preserve the invariant *)

Lemma relax_children_inv (g : DiGraph) (processed : list string) (u : string)
    (pending : list string) :
  well_formed g ->
  forall (children relaxed : list string) (m : odict Z) (zero : list string),
  kahn_mid g processed u (pending ++ zero) relaxed m ->
  NoDup (relaxed ++ children) ->
  (forall c, In c children -> In (u, c) (edges g)) ->
  exists m' zero',
    relax_children children (m, zero) = Ret (m', zero') /\
    kahn_mid g processed u (pending ++ zero') (relaxed ++ children) m'.
Proof.
  intro Hwf.
  induction children as [|c rest IH]; intros relaxed m zero Hmid Hnd Hedges.
  - exists m, zero. rewrite app_nil_r. split; [reflexivity|exact Hmid].
  - assert (Hc : ~ In c relaxed).
    { apply NoDup_remove_2 in Hnd. intro H. apply Hnd. apply in_or_app.
      left. exact H. }
    assert (Hedge : In (u, c) (edges g)) by (apply Hedges; left; reflexivity).
    destruct (kahn_child_entry g _ _ _ _ _ c Hwf Hmid Hedge Hc)
      as [d [Hd _]].
    assert (Hnd' : NoDup ((relaxed ++ [c]) ++ rest)).
    { rewrite <- app_assoc. exact Hnd. }
    assert (Hedges' : forall c', In c' rest -> In (u, c') (edges g)).
    { intros c' H. apply Hedges. right. exact H. }
    simpl. rewrite Hd.
    destruct ((d - 1 =? 0)%Z) eqn:E.
    + apply Z.eqb_eq in E.
      assert (d = 1%Z) by lia. subst d.
      change (1 - 1)%Z with 0%Z.
      pose proof (kahn_relax_last g _ _ _ _ _ c Hwf Hmid Hedge Hc Hd) as Hmid'.
      rewrite <- app_assoc in Hmid'.
      destruct (IH _ _ _ Hmid' Hnd' Hedges') as [m' [zero' [Hrun Hres]]].
      exists m', zero'. split; [exact Hrun|].
      rewrite <- app_assoc in Hres. exact Hres.
    + apply Z.eqb_neq in E.
      pose proof (kahn_relax_more g _ _ _ _ _ c d Hwf Hmid Hedge Hc Hd E)
        as Hmid'.
      destruct (IH _ _ _ Hmid' Hnd' Hedges') as [m' [zero' [Hrun Hres]]].
      exists m', zero'. split; [exact Hrun|].
      rewrite <- app_assoc in Hres. exact Hres.
Qed.

Lemma relax_generation_inv (g : DiGraph) :
  well_formed g ->
  forall (generation processed : list string) (m : odict Z)
         (zero : list string),
  kahn_inv g processed (generation ++ zero) m ->
  exists m' zero',
    relax_generation g generation (m, zero) = Ret (m', zero') /\
    kahn_inv g (processed ++ generation) zero' m'.
Proof.
  intro Hwf.
  induction generation as [|u rest IH]; intros processed m zero Hinv.
  - exists m, zero. rewrite app_nil_r. split; [reflexivity|exact Hinv].
  - simpl in Hinv. apply kahn_start_node in Hinv.
    destruct (relax_children_inv g processed u rest Hwf (successors g u) []
                m zero Hinv) as [m1 [zero1 [Hrun Hmid]]].
    { simpl. apply NoDup_successors. apply Hwf. }
    { intros c Hc. apply In_successors. exact Hc. }
    simpl in Hmid. apply kahn_finish_node in Hmid; [|exact Hwf].
    destruct (IH _ _ _ Hmid) as [m' [zero' [Hrun' Hres]]].
    exists m', zero'. split.
    + simpl. rewrite Hrun. simpl. exact Hrun'.
    + rewrite <- app_assoc in Hres. exact Hres.
Qed.

(** When the queue and the map are both empty, every node has been
    processed in a topological order. *)
Lemma kahn_inv_final (g : DiGraph) (processed : list string) :
  well_formed g ->
  kahn_inv g processed [] [] -> topological_order g processed.
Proof.
  intros [Hn [He Hends]] [Hnd Hnodes Hpreds Hkeys Hcount Hsched].
  rewrite app_nil_r in *.
  repeat split.
  - exact Hnd.
  - apply Hnodes.
  - intro H. apply Hsched; [exact H|reflexivity].
  - apply Hsched; [apply (Hends u v H)|reflexivity].
  - apply Hsched; [apply (Hends u v H)|reflexivity].
  - assert (Hv : In v processed)
      by (apply Hsched; [apply (Hends u v H)|reflexivity]).
    apply (Hpreds v u Hv). apply In_predecessors. exact H.
Qed.

Lemma generations_loop_inv (g : DiGraph) :
  well_formed g ->
  forall (fuel : nat) (processed zero : list string) (m : odict Z),
  kahn_inv g processed zero m ->
  match generations_loop fuel g m zero with
  | Some (Ret gens) => topological_order g (processed ++ List.concat gens)
  | Some (Raise e) =>
      e = NetworkXUnfeasible /\
      exists processed' m', kahn_inv g processed' [] m' /\ m' <> []
  | None => True
  end.
Proof.
  intro Hwf.
  assert (Hend : forall processed m,
    kahn_inv g processed [] m ->
    match
      match m with
      | [] => Some (Ret [])
      | _ :: _ => Some (Raise NetworkXUnfeasible)
      end
    with
    | Some (Ret gens) => topological_order g (processed ++ List.concat gens)
    | Some (Raise e) =>
        e = NetworkXUnfeasible /\
        exists processed' m', kahn_inv g processed' [] m' /\ m' <> []
    | None => True
    end).
  { intros processed m Hinv. destruct m as [|kv m].
    - simpl. rewrite app_nil_r. apply kahn_inv_final; assumption.
    - split; [reflexivity|]. exists processed, (kv :: m).
      split; [exact Hinv|discriminate]. }
  induction fuel as [|fuel IH]; intros processed zero m Hinv.
  - simpl. destruct zero; [|exact I]. apply Hend. exact Hinv.
  - simpl. destruct zero as [|z0 zs]; [apply Hend; exact Hinv|].
    assert (Hinv' : kahn_inv g processed ((z0 :: zs) ++ []) m).
    { rewrite app_nil_r. exact Hinv. }
    destruct (relax_generation_inv g Hwf _ _ _ _ Hinv')
      as [m' [next [Hrun Hres]]].
    rewrite Hrun.
    specialize (IH _ _ _ Hres).
    destruct (generations_loop fuel g m' next) as [[gens|e]|];
      [|exact IH|exact I].
    rewrite <- app_assoc in IH. exact IH.
Qed.

(** *** Soundness of [topological_sort] *)

Lemma dkeys_initial_indegree_map (g : DiGraph) :
  dkeys (initial_indegree_map g)
  = filter (fun v => (0 <? in_degree g v)%Z) (nodes g).
Proof.
  unfold dkeys, initial_indegree_map. rewrite map_map. simpl. apply map_id.
Qed.

Lemma remaining_in_degree_nil (g : DiGraph) (v : string) :
  remaining_in_degree g [] v = in_degree g v.
Proof.
  unfold remaining_in_degree, in_degree. f_equal. f_equal.
  induction (predecessors g v) as [|x l IH]; [reflexivity|].
  cbn [filter str_in existsb negb]. f_equal. exact IH.
Qed.

Lemma kahn_inv_initial (g : DiGraph) :
  well_formed g ->
  kahn_inv g [] (initial_zero_indegree g) (initial_indegree_map g).
Proof.
  intros [Hn [He Hends]]. unfold initial_zero_indegree.
  constructor; simpl.
  - apply NoDup_filter. exact Hn.
  - intros v Hv. apply filter_In in Hv. apply Hv.
  - intros v p Hv Hp. apply filter_In in Hv. destruct Hv as [_ Hv].
    apply Z.eqb_eq in Hv. unfold in_degree in Hv.
    destruct (predecessors g v); [contradiction|simpl in Hv; lia].
  - rewrite dkeys_initial_indegree_map. apply NoDup_filter. exact Hn.
  - intros v d Hd. apply dget_In in Hd. unfold initial_indegree_map in Hd.
    apply in_map_iff in Hd. destruct Hd as [x [E Hx]].
    injection E as -> <-. apply filter_In in Hx. destruct Hx as [_ Hx].
    apply Z.ltb_lt in Hx. rewrite remaining_in_degree_nil.
    repeat split; [exact Hx|].
    intro H. apply filter_In in H. destruct H as [_ H].
    apply Z.eqb_eq in H. lia.
  - intros v Hv Hd. apply dget_None_iff in Hd.
    rewrite dkeys_initial_indegree_map in Hd.
    apply filter_In. split; [exact Hv|]. apply Z.eqb_eq.
    destruct (Z.ltb_spec 0 (in_degree g v)) as [Hlt|Hge].
    + exfalso. apply Hd. apply filter_In. split; [exact Hv|].
      apply Z.ltb_lt. exact Hlt.
    + unfold in_degree in *. lia.
Qed.

(** On a well-formed graph [topological_sort] either returns a topological
    order or raises [NetworkXUnfeasible]. *)
Lemma topological_sort_sound (g : DiGraph) (order : list string) :
  well_formed g -> topological_sort g = Ret order -> topological_order g order.
Proof.
  intros Hwf H. unfold topological_sort, topological_generations_fuel in H.
  pose proof (generations_loop_inv g Hwf (enough_fuel g) [] _ _
                (kahn_inv_initial g Hwf)) as Hloop.
  destruct (generations_loop (enough_fuel g) g (initial_indegree_map g)
              (initial_zero_indegree g)) as [[gens|e]|];
    try discriminate.
  injection H as <-. exact Hloop.
Qed.

Lemma topological_sort_raises (g : DiGraph) (e : exn_class) :
  well_formed g -> topological_sort g = Raise e -> e = NetworkXUnfeasible.
Proof.
  intros Hwf H. unfold topological_sort in H.
  pose proof (topological_sort_fuel_enough g) as Hfuel.
  unfold topological_generations_fuel in *.
  pose proof (generations_loop_inv g Hwf (enough_fuel g) [] _ _
                (kahn_inv_initial g Hwf)) as Hloop.
  destruct (generations_loop (enough_fuel g) g (initial_indegree_map g)
              (initial_zero_indegree g)) as [[gens|e']|];
    [discriminate| |congruence].
  injection H as <-. apply Hloop.
Qed.

Lemma walk_before (g : DiGraph) (order : list string) (u v : string) :
  topological_order g order -> walk g u v -> before u v order.
Proof.
  intros [_ [_ Hedges]] Hw. induction Hw as [u v H|u v w H _ IH].
  - apply Hedges. exact H.
  - apply (before_trans u v w); [apply Hedges; exact H|exact IH].
Qed.

Lemma topological_order_acyclic (g : DiGraph) (order : list string) :
  topological_order g order -> ~ cyclic g.
Proof.
  intros Hord [v Hw]. apply (before_irrefl v order).
  apply (walk_before g order v v Hord Hw).
Qed.

(** A cyclic graph makes [topological_sort] raise [NetworkXUnfeasible]. *)
Lemma topological_sort_cyclic (g : DiGraph) :
  well_formed g -> cyclic g -> topological_sort g = Raise NetworkXUnfeasible.
Proof.
  intros Hwf Hc. destruct (topological_sort g) as [order|e] eqn:E.
  - exfalso. apply (topological_order_acyclic g order); [|exact Hc].
    apply topological_sort_sound; assumption.
  - f_equal. apply (topological_sort_raises g e Hwf E).
Qed.

(** *** Completeness: a stuck run exhibits a cycle *)

Lemma walk_snoc (g : DiGraph) (u v w : string) :
  walk g u v -> In (v, w) (edges g) -> walk g u w.
Proof.
  intros Hw He. induction Hw as [u v H|u v x H _ IH].
  - apply (walk_step g u v w H). apply walk_edge. exact He.
  - apply (walk_step g u v w H). apply IH. exact He.
Qed.

Lemma back_chain_suffix (g : DiGraph) (l1 l2 : list string) :
  back_chain g (l1 ++ l2) -> back_chain g l2.
Proof.
  induction l1 as [|a l1 IH]; [auto|].
  simpl app. intro H. apply IH.
  destruct (l1 ++ l2); [exact I|]. apply H.
Qed.

Lemma back_chain_walk (g : DiGraph) (l3 : list string) :
  forall (l2 : list string) (x y : string),
  back_chain g (x :: l2 ++ y :: l3) -> walk g y x.
Proof.
  induction l2 as [|z l2 IH]; intros x y H.
  - apply walk_edge. apply H.
  - destruct H as [H1 H2].
    apply (walk_snoc g y z x); [apply IH; exact H2|exact H1].
Qed.

Lemma back_chain_exists (g : DiGraph) (S : list string) :
  (forall v, In v S -> exists p, In (p, v) (edges g) /\ In p S) ->
  forall (n : nat) (v : string), In v S ->
  exists r, List.length r = n /\ back_chain g (v :: r) /\ incl r S.
Proof.
  intro Hpred. induction n as [|n IH]; intros v Hv.
  - exists []. repeat split. intros x [].
  - destruct (Hpred v Hv) as [p [He Hp]].
    destruct (IH p Hp) as [r [Hlen [Hch Hincl]]].
    exists (p :: r). split; [simpl; lia|].
    split; [split; assumption|].
    intros x [<-|H]; [exact Hp|apply Hincl; exact H].
Qed.

Lemma string_eq_decidable (x y : string) : Decidable.decidable (x = y).
Proof. destruct (string_dec x y); [left|right]; assumption. Qed.

(** A set of nodes each of which has a predecessor in the set contains a
    cycle. *)
Lemma closed_under_pred_cyclic (g : DiGraph) (S : list string) (v0 : string) :
  In v0 S ->
  (forall v, In v S -> exists p, In (p, v) (edges g) /\ In p S) ->
  cyclic g.
Proof.
  intros Hv0 Hpred.
  destruct (back_chain_exists g S Hpred (List.length S) v0 Hv0)
    as [r [Hlen [Hch Hincl]]].
  assert (Hdup : ~ NoDup (v0 :: r)).
  { intro Hnd.
    assert (Hi : incl (v0 :: r) S).
    { intros x [<-|H]; [exact Hv0|apply Hincl; exact H]. }
    pose proof (NoDup_incl_length Hnd Hi) as Hle. simpl in Hle. lia. }
  destruct (not_NoDup string_eq_decidable Hdup) as [a [l1 [l2 [l3 E]]]].
  rewrite E in Hch. apply back_chain_suffix in Hch.
  exists a. apply (back_chain_walk g l3 l2 a a Hch).
Qed.

Lemma filter_nonempty_witness {A : Type} (p : A -> bool) (l : list A) :
  (0 < List.length (filter p l))%nat -> exists x, In x l /\ p x = true.
Proof.
  intro H. destruct (filter p l) as [|x r] eqn:E; [simpl in H; lia|].
  exists x. apply filter_In. rewrite E. left. reflexivity.
Qed.

Lemma stuck_cyclic (g : DiGraph) (processed : list string) (m : odict Z) :
  well_formed g -> kahn_inv g processed [] m -> m <> [] -> cyclic g.
Proof.
  intros [Hn [He Hends]] [Hnd Hnodes Hpreds Hkeys Hcount Hsched] Hm.
  destruct m as [|[k0 d0] m']; [congruence|].
  apply (closed_under_pred_cyclic g (dkeys ((k0, d0) :: m')) k0).
  { left. reflexivity. }
  intros v Hv.
  destruct (dget ((k0, d0) :: m') v) as [d|] eqn:E.
  2: { apply dget_None_iff in E. contradiction. }
  destruct (Hcount v d E) as [Hd [Hpos _]].
  unfold remaining_in_degree in Hd.
  destruct (filter_nonempty_witness
              (fun u => negb (str_in u processed)) (predecessors g v))
    as [p [Hp Hout]]; [lia|].
  apply negb_true_iff in Hout. apply str_in_false_iff in Hout.
  apply In_predecessors in Hp.
  exists p. split; [exact Hp|].
  destruct (dget ((k0, d0) :: m') p) as [dp|] eqn:Ep.
  - eapply dget_Some_key. exact Ep.
  - exfalso. apply Hout.
    assert (H : In p (processed ++ [])).
    { apply Hsched; [apply (Hends p v Hp)|exact Ep]. }
    rewrite app_nil_r in H. exact H.
Qed.

(** [topological_sort] returns exactly on the acyclic graphs. *)
Lemma topological_sort_acyclic (g : DiGraph) :
  well_formed g -> ~ cyclic g ->
  exists order, topological_sort g = Ret order /\ topological_order g order.
Proof.
  intros Hwf Hac. destruct (topological_sort g) as [order|e] eqn:E.
  - exists order. split; [reflexivity|].
    apply topological_sort_sound; assumption.
  - exfalso. apply Hac.
    unfold topological_sort in E.
    pose proof (topological_sort_fuel_enough g) as Hfuel.
    unfold topological_generations_fuel in *.
    pose proof (generations_loop_inv g Hwf (enough_fuel g) [] _ _
                  (kahn_inv_initial g Hwf)) as Hloop.
    destruct (generations_loop (enough_fuel g) g (initial_indegree_map g)
                (initial_zero_indegree g)) as [[gens|e']|];
      [discriminate| |congruence].
    destruct Hloop as [_ [processed' [m' [Hinv Hm]]]].
    apply (stuck_cyclic g processed' m' Hwf Hinv Hm).
Qed.

(** *** Graphs built by the digital twin are well formed *)

Lemma well_formed_empty : well_formed empty.
Proof.
  repeat split; simpl; try constructor; contradiction.
Qed.

Lemma well_formed_add_node (g : DiGraph) (n : string) :
  well_formed g -> well_formed (add_node g n).
Proof.
  intros [Hn [He Hends]]. unfold add_node, has_node.
  destruct (str_in n (nodes g)) eqn:E; [split; [|split]; assumption|].
  apply str_in_false_iff in E.
  repeat split; simpl.
  - apply NoDup_snoc; assumption.
  - exact He.
  - apply in_or_app. left. apply (Hends u v H).
  - apply in_or_app. left. apply (Hends u v H).
Qed.

Lemma add_node_has (g : DiGraph) (n x : string) :
  In x (nodes (add_node g n)) <-> In x (nodes g) \/ x = n.
Proof.
  unfold add_node, has_node.
  destruct (str_in n (nodes g)) eqn:E.
  - apply str_in_iff in E. split; [auto|]. intros [H| ->]; assumption.
  - simpl. rewrite in_app_iff. simpl. split.
    + intros [H|[H|[]]]; auto.
    + intros [H|H]; auto.
Qed.

Lemma has_edge_iff (g : DiGraph) (u v : string) :
  has_edge g u v = true <-> In (u, v) (edges g).
Proof.
  unfold has_edge. rewrite existsb_exists. split.
  - intros [[a b] [H E]]. unfold edge_eqb in E. simpl in E.
    apply andb_true_iff in E. destruct E as [E1 E2].
    apply String.eqb_eq in E1. apply String.eqb_eq in E2. subst. exact H.
  - intro H. exists (u, v). split; [exact H|].
    unfold edge_eqb. simpl. rewrite !String.eqb_refl. reflexivity.
Qed.

Lemma well_formed_add_edge (g : DiGraph) (u v : string) :
  well_formed g -> well_formed (add_edge g u v).
Proof.
  intro Hwf. unfold add_edge.
  assert (Hwf2 : well_formed (add_node (add_node g u) v))
    by (apply well_formed_add_node, well_formed_add_node; exact Hwf).
  destruct (has_edge (add_node (add_node g u) v) u v) eqn:E; [exact Hwf2|].
  destruct Hwf2 as [Hn [He Hends]].
  assert (Hnot : ~ In (u, v) (edges (add_node (add_node g u) v))).
  { intro H. apply has_edge_iff in H. congruence. }
  split; [exact Hn|]. split; simpl.
  - apply NoDup_app; [exact He|repeat constructor; auto|].
    intros x Hx [<-|[]]. contradiction.
  - intros a b H. apply in_app_or in H. destruct H as [H|[H|[]]].
    + apply (Hends a b H).
    + injection H as <- <-. split.
      * apply add_node_has. left. apply add_node_has. right. reflexivity.
      * apply add_node_has. right. reflexivity.
Qed.

Lemma well_formed_add_activity (g : DiGraph) (a : Activity) :
  well_formed g -> well_formed (DigitalTwin.add_activity g a).
Proof.
  intro Hwf. unfold DigitalTwin.add_activity.
  assert (H0 : well_formed (add_node g (activity_id a)))
    by (apply well_formed_add_node; exact Hwf).
  revert H0. generalize (add_node g (activity_id a)) as g0.
  induction (Models.predecessors a) as [|p ps IH]; intros g0 H0; simpl;
    [exact H0|].
  apply IH. destruct (strip_nonempty p); [|exact H0].
  apply well_formed_add_edge. exact H0.
Qed.

Lemma well_formed_build_graph (acts : odict Activity) :
  well_formed (DigitalTwin.build_graph acts).
Proof.
  unfold DigitalTwin.build_graph.
  assert (H0 : well_formed empty) by apply well_formed_empty.
  revert H0. generalize empty as g0.
  induction (dvalues acts) as [|a l IH]; intros g0 H0; simpl; [exact H0|].
  apply IH. apply well_formed_add_activity. exact H0.
Qed.

End NxFacts.

(** ** Cyclic input ([core/digital_twin.py], [core/mc_forecaster.py]) *)

Module CycleFacts.

Import DigitalTwin McForecaster NxFacts Scenario.

(** [except nx.NetworkXError] does not catch what [topological_sort] raises
    on a cycle. *)
Lemma unfeasible_not_caught : issubclass NetworkXUnfeasible NetworkXError = false.
Proof. reflexivity. Qed.

(** Whatever the activities, a cycle in their dependency graph makes the
    constructor of the twin raise. *)
Lemma build_raises_on_cycle
    (simple_cycles : Nx.DiGraph -> outcome (list (list string)))
    (acts : list Activity) :
  cyclic (build_graph (index_activities acts)) ->
  __init__ simple_cycles acts = Raise NetworkXUnfeasible.
Proof.
  intro Hc. unfold __init__, _build.
  rewrite (topological_sort_cyclic _ (well_formed_build_graph _) Hc).
  reflexivity.
Qed.

(** A twin that was built never carries the cycle flag or a warning. *)
Lemma built_twin_has_no_cycle_flag
    (simple_cycles : Nx.DiGraph -> outcome (list (list string)))
    (acts : list Activity) (twin : DigitalTwin) :
  __init__ simple_cycles acts = Ret twin ->
  has_cycles twin = false /\ cycle_warning twin = None.
Proof.
  unfold __init__, _build.
  destruct (Nx.topological_sort (build_graph (index_activities acts)))
    as [order|e] eqn:E; simpl.
  - intros [= <-]. split; reflexivity.
  - rewrite (topological_sort_raises _ e (well_formed_build_graph _) E).
    simpl. discriminate.
Qed.

(** Both critical-path routines raise on a cyclic graph as well. *)
Lemma critical_path_raises_on_cycle (g : Nx.DiGraph)
    (simulated_durations : odict Q) :
  well_formed g -> cyclic g ->
  compute_critical_path_length g simulated_durations
    = Raise NetworkXUnfeasible /\
  compute_critical_path_activities g simulated_durations
    = Raise NetworkXUnfeasible.
Proof.
  intros Hwf Hc.
  unfold compute_critical_path_length, compute_critical_path_activities.
  rewrite (topological_sort_cyclic g Hwf Hc). split; reflexivity.
Qed.

(** The warning that the handler would word for a cycle of six nodes. *)
Lemma cycle_message_truncates :
  cycle_message ["a"; "b"; "c"; "d"; "e"; "f"]
  = "Graph contains cycles (e.g., a -> b -> c -> d -> e...). Critical path calculations may be approximate."
  /\ cycle_message ["a"; "b"]
  = "Graph contains cycles (e.g., a -> b). Critical path calculations may be approximate.".
Proof. split; reflexivity. Qed.

Lemma cycle_AB_is_cyclic : cyclic (build_graph (index_activities cycle_AB)).
Proof.
  exists "A". apply (walk_step _ "A" "B" "A").
  - vm_compute. right. left. reflexivity.
  - apply walk_edge. vm_compute. left. reflexivity.
Qed.

Lemma build_raises_on_cycle_witness :
  __init__ no_cycles_listed cycle_AB = Raise NetworkXUnfeasible.
Proof.
  apply build_raises_on_cycle. apply cycle_AB_is_cyclic.
Defined.

(** C1 (the code departs from the claim).  For the two activities A and B
    that wait for each other the dependency graph is cyclic; building the
    twin raises [NetworkXUnfeasible] whichever cycle enumeration is plugged
    in, no twin reaches the cache, and the forecast pipeline raises the
    same exception instead of returning a forecast. *)
Theorem cyclic_input_raises
    (simple_cycles : Nx.DiGraph -> outcome (list (list string))) :
  cyclic (build_graph (index_activities cycle_AB)) /\
  __init__ simple_cycles cycle_AB = Raise NetworkXUnfeasible /\
  get_or_build_twin simple_cycles [] "P1" (Some cycle_AB)
    = (Raise NetworkXUnfeasible, []) /\
  ForensicForecast.compute_forensic_forecast simple_cycles nat
    mode_rng_triangular mode_rng_random mode_rng_uniform toy_sqrt
    insertion_order [] 0%nat "P1" cycle_AB [] [] []
    (UncertaintyModulator.mkSkillAnalysis (Some [])) 2
    = (Raise NetworkXUnfeasible, []).
Proof.
  split; [apply cycle_AB_is_cyclic|].
  repeat split; reflexivity.
Qed.

End CycleFacts.

(** ** The critical-path method ([core/mc_forecaster.py]) *)

Module CriticalPathFacts.

Import DigitalTwin McForecaster NxFacts Scenario.

Lemma NoDup_app_apart (l1 l2 : list string) (k : string) :
  NoDup (l1 ++ l2) -> In k l1 -> ~ In k l2.
Proof.
  induction l1 as [|x l1 IH]; simpl; [contradiction|].
  intros Hnd [->|Hk] H2; inversion Hnd as [|? ? Hx Hnd']; subst.
  - apply Hx. apply in_or_app. right. exact H2.
  - apply (IH Hnd' Hk H2).
Qed.

(** *** A pass over a list whose dependencies come first *)

Section Pass.

Variable durations : odict Q.
Variable agg : odict Q * odict Q -> string -> Q.
Variables first second : Q -> Q -> Q.
Variable deps : string -> list string.

(** [agg] reads the state only at the dependencies of the node. *)
Hypothesis agg_local : forall st st' node,
  (forall k, In k (deps node) ->
     dget (fst st) k = dget (fst st') k /\ dget (snd st) k = dget (snd st') k) ->
  agg st node = agg st' node.

Local Abbreviation step := (pass_step durations agg first second).

Lemma pass_untouched (l : list string) :
  forall (st : odict Q * odict Q) (k : string),
  ~ In k l ->
  dget (fst (fold_left step l st)) k = dget (fst st) k /\
  dget (snd (fold_left step l st)) k = dget (snd st) k.
Proof.
  induction l as [|n l IH]; intros st k Hk; [split; reflexivity|].
  simpl. destruct (IH (step st n) k) as [H1 H2].
  { intro H. apply Hk. right. exact H. }
  rewrite H1, H2.
  assert (Hne : k <> n) by (intro E; apply Hk; left; symmetry; exact E).
  unfold step, pass_step. destruct (dget durations n); [|split; reflexivity].
  simpl. rewrite !dget_dset_other by exact Hne. split; reflexivity.
Qed.

Lemma pass_recurrence (l : list string) (st0 : odict Q * odict Q) :
  NoDup l ->
  (forall n k, In n l -> In k (deps n) -> before k n l) ->
  forall (n : string) (d : Q),
  In n l -> dget durations n = Some d ->
  let st := fold_left step l st0 in
  dget (fst st) n = Some (first (agg st n) d) /\
  dget (snd st) n = Some (second (agg st n) d).
Proof.
  intros Hnd Hdeps n d Hn Hd st.
  destruct (in_split n l Hn) as [l1 [l2 E]].
  assert (Hn1 : ~ In n l1).
  { rewrite E in Hnd. apply NoDup_remove_2 in Hnd. intro H. apply Hnd.
    apply in_or_app. left. exact H. }
  assert (Hn2 : ~ In n l2).
  { rewrite E in Hnd. apply NoDup_remove_2 in Hnd. intro H. apply Hnd.
    apply in_or_app. right. exact H. }
  assert (Hst : st = fold_left step l2 (step (fold_left step l1 st0) n)).
  { unfold st. rewrite E. rewrite fold_left_app. reflexivity. }
  set (st1 := fold_left step l1 st0) in *.
  assert (Hagg : agg st n = agg st1 n).
  { apply agg_local. intros k Hk.
    assert (Hk1 : In k l1).
    { apply (before_prefix k n l1 l2 Hn1). rewrite <- E.
      apply Hdeps; assumption. }
    assert (Hk2 : ~ In k l2).
    { intro H. rewrite E in Hnd.
      apply (NoDup_app_apart l1 (n :: l2) k Hnd Hk1). right. exact H. }
    assert (Hkn : k <> n) by (intro Ek; subst; contradiction).
    rewrite Hst. destruct (pass_untouched l2 (step st1 n) k Hk2) as [H1 H2].
    rewrite H1, H2. unfold step, pass_step. rewrite Hd. simpl.
    rewrite !dget_dset_other by exact Hkn. split; reflexivity. }
  rewrite Hagg. rewrite Hst.
  destruct (pass_untouched l2 (step st1 n) n Hn2) as [H1 H2].
  rewrite H1, H2. unfold step, pass_step. rewrite Hd. simpl.
  rewrite !dget_dset_same. split; reflexivity.
Qed.

End Pass.

(** *** The two passes of the source are such passes *)

Lemma fold_left_pointwise {A B : Type} (f h : A -> B -> A) (l : list B) :
  (forall a b, f a b = h a b) ->
  forall a, fold_left f l a = fold_left h l a.
Proof.
  intro H. induction l as [|x l IH]; intro a; [reflexivity|].
  simpl. rewrite H. apply IH.
Qed.

Lemma forward_step_as_pass (g : Nx.DiGraph) (durations : odict Q)
    (st : odict Q * odict Q) (node : string) :
  forward_step g durations st node
  = pass_step durations (forward_agg g) (fun x _ => x) (fun x d => x + d)
      st node.
Proof.
  destruct st as [es ef]. unfold forward_step, pass_step, forward_agg.
  destruct (dget durations node); reflexivity.
Qed.

Lemma backward_step_as_pass (g : Nx.DiGraph) (durations : odict Q)
    (project_finish : Q) (st : odict Q * odict Q) (node : string) :
  backward_step g durations project_finish st node
  = pass_step durations (backward_agg g project_finish)
      (fun x d => x - d) (fun x _ => x) st node.
Proof.
  destruct st as [ls lf]. unfold backward_step, pass_step, backward_agg.
  destruct (dget durations node); reflexivity.
Qed.

Lemma forward_agg_local (g : Nx.DiGraph) (st st' : odict Q * odict Q)
    (node : string) :
  (forall k, In k (Nx.predecessors g node) ->
     dget (fst st) k = dget (fst st') k /\ dget (snd st) k = dget (snd st') k) ->
  forward_agg g st node = forward_agg g st' node.
Proof.
  intro H. unfold forward_agg. f_equal. apply map_ext_in.
  intros p Hp. unfold dget_or. destruct (H p Hp) as [_ ->]. reflexivity.
Qed.

Lemma backward_agg_local (g : Nx.DiGraph) (project_finish : Q)
    (st st' : odict Q * odict Q) (node : string) :
  (forall k, In k (Nx.successors g node) ->
     dget (fst st) k = dget (fst st') k /\ dget (snd st) k = dget (snd st') k) ->
  backward_agg g project_finish st node
  = backward_agg g project_finish st' node.
Proof.
  intro H. unfold backward_agg. f_equal. apply map_ext_in.
  intros p Hp. unfold dget_or. destruct (H p Hp) as [-> _]. reflexivity.
Qed.

Lemma before_rev (u v : string) (l : list string) :
  NoDup l -> before u v l -> before v u (rev l).
Proof.
  intros Hnd Hb. destruct Hb as [Hu [Hv Hlt]].
  destruct (in_split v l Hv) as [l1 [l2 E]].
  assert (Hv1 : ~ In v l1).
  { rewrite E in Hnd. apply NoDup_remove_2 in Hnd. intro H. apply Hnd.
    apply in_or_app. left. exact H. }
  assert (Hu1 : In u l1).
  { apply (before_prefix u v l1 l2 Hv1). rewrite <- E.
    repeat split; assumption. }
  assert (Hu2 : ~ In u (v :: l2)).
  { rewrite E in Hnd. apply (NoDup_app_apart l1 (v :: l2) u Hnd Hu1). }
  assert (Er : rev l = rev (v :: l2) ++ rev l1).
  { rewrite E. apply rev_app_distr. }
  assert (Hvr : In v (rev (v :: l2))).
  { apply in_rev. rewrite rev_involutive. left. reflexivity. }
  assert (Hur : ~ In u (rev (v :: l2))).
  { intro H. apply Hu2. apply in_rev. exact H. }
  unfold before. rewrite Er.
  rewrite (index_of_app_in v) by exact Hvr.
  rewrite (index_of_app_notin u) by exact Hur.
  repeat split.
  - apply in_or_app. left. exact Hvr.
  - apply in_or_app. right. apply in_rev. rewrite rev_involutive. exact Hu1.
  - pose proof (index_of_lt_length v _ Hvr). lia.
Qed.

(** The recurrences of the critical-path method hold of the dictionaries
    that the two passes return. *)
Lemma schedule_recurrences (g : Nx.DiGraph) (durations : odict Q)
    (order : list string) :
  well_formed g -> topological_order g order ->
  let '(es, ef, pf, ls, lf) := schedule g durations order in
  forall (n : string) (d : Q),
  In n (Nx.nodes g) -> dget durations n = Some d ->
  dget es n
    = Some (max_list
              (map (fun p => dget_or ef p 0) (Nx.predecessors g n)) 0) /\
  dget ef n = Some (dget_or es n 0 + d) /\
  dget lf n
    = Some (min_list
              (map (fun s => dget_or ls s pf) (Nx.successors g n)) pf) /\
  dget ls n = Some (dget_or lf n pf - d).
Proof.
  intros Hwf [Hnd [Hall Hedges]]. unfold schedule.
  destruct (forward_pass g durations order) as [es ef] eqn:Ef.
  set (pf := max_list (dvalues ef) 0).
  destruct (backward_pass g durations pf order) as [ls lf] eqn:Eb.
  intros n d Hn Hd.
  assert (Hin : In n order) by (apply Hall; exact Hn).
  (* forward *)
  unfold forward_pass in Ef.
  rewrite (fold_left_pointwise _ _ order (forward_step_as_pass g durations))
    in Ef.
  pose proof (pass_recurrence durations (forward_agg g) (fun x _ => x)
                (fun x d => x + d) (Nx.predecessors g) (forward_agg_local g)
                order ([], []) Hnd) as Hf.
  simpl in Hf. rewrite Ef in Hf.
  destruct (Hf (fun m k Hm Hk =>
                  Hedges k m (proj1 (In_predecessors g k m) Hk)) n d Hin Hd)
    as [Hes Hef].
  simpl in Hes, Hef.
  (* backward *)
  unfold backward_pass in Eb.
  rewrite (fold_left_pointwise _ _ (rev order)
             (backward_step_as_pass g durations pf)) in Eb.
  pose proof (pass_recurrence durations (backward_agg g pf)
                (fun x d => x - d) (fun x _ => x) (Nx.successors g)
                (backward_agg_local g pf) (rev order) ([], [])
                (NoDup_rev Hnd)) as Hb.
  simpl in Hb. rewrite Eb in Hb.
  destruct (Hb (fun m k Hm Hk =>
                  before_rev m k order Hnd
                    (Hedges m k (proj1 (In_successors g m k) Hk)))
               n d (proj1 (in_rev order n) Hin) Hd) as [Hls Hlf].
  simpl in Hls, Hlf.
  unfold forward_agg in Hes, Hef. unfold backward_agg in Hls, Hlf.
  simpl in Hes, Hef, Hls, Hlf.
  repeat split.
  - exact Hes.
  - unfold dget_or. rewrite Hes. exact Hef.
  - exact Hlf.
  - unfold dget_or at 1. rewrite Hlf. exact Hls.
Qed.

Lemma chain_graph_well_formed : well_formed chain_graph.
Proof. apply well_formed_build_graph. Qed.

Lemma chain_graph_acyclic : ~ cyclic chain_graph.
Proof.
  apply (topological_order_acyclic chain_graph ["A"; "B"]).
  apply topological_sort_sound; [apply chain_graph_well_formed|reflexivity].
Qed.

(** C7.  For A -> B with durations 5 and 3 the project finishes at 8, both
    activities are critical and both have float [LS - ES = 0].  For every
    acyclic graph and every duration assignment both routines return, the
    finish time is the largest earliest finish, an activity is classified
    as critical exactly when it has a duration and [|ES - LS| < 0.01], and
    the dictionaries satisfy [ES(n) = max EF(pred)] (0 without
    predecessors), [EF(n) = ES(n) + duration(n)], [LF(n) = min LS(succ)]
    (project finish without successors) and [LS(n) = LF(n) - duration(n)]. *)
Theorem critical_path_method :
  (compute_critical_path_length chain_graph chain_durations = Ret 8 /\
   compute_critical_path_activities chain_graph chain_durations
     = Ret ["A"; "B"] /\
   (let '(es, ef, pf, ls, lf) :=
      schedule chain_graph chain_durations ["A"; "B"] in
    dget_or ls "A" pf - dget_or es "A" 0 == 0 /\
    dget_or ls "B" pf - dget_or es "B" 0 == 0)) /\
  forall (g : Nx.DiGraph) (simulated_durations : odict Q),
  well_formed g -> ~ cyclic g ->
  exists order : list string,
    Nx.topological_sort g = Ret order /\ topological_order g order /\
    let '(es, ef, pf, ls, lf) := schedule g simulated_durations order in
    compute_critical_path_length g simulated_durations = Ret pf /\
    (exists critical : list string,
       compute_critical_path_activities g simulated_durations = Ret critical /\
       forall n : string,
         In n critical <->
         In n (Nx.nodes g) /\ dmem simulated_durations n = true /\
         Qabs (dget_or es n 0 - dget_or ls n pf) < 1 # 100) /\
    forall (n : string) (d : Q),
      In n (Nx.nodes g) -> dget simulated_durations n = Some d ->
      dget es n
        = Some (max_list
                  (map (fun p => dget_or ef p 0) (Nx.predecessors g n)) 0) /\
      dget ef n = Some (dget_or es n 0 + d) /\
      dget lf n
        = Some (min_list
                  (map (fun s => dget_or ls s pf) (Nx.successors g n)) pf) /\
      dget ls n = Some (dget_or lf n pf - d).
Proof.
  split.
  { split; [reflexivity|]. split; [reflexivity|]. vm_compute.
    split; reflexivity. }
  intros g durations Hwf Hac.
  destruct (topological_sort_acyclic g Hwf Hac) as [order [Hts Hord]].
  exists order. split; [exact Hts|]. split; [exact Hord|].
  pose proof (schedule_recurrences g durations order Hwf Hord) as Hrec.
  unfold schedule in *.
  destruct (forward_pass g durations order) as [es ef] eqn:Ef.
  destruct (backward_pass g durations (max_list (dvalues ef) 0) order)
    as [ls lf] eqn:Eb.
  split; [|split; [|exact Hrec]].
  - unfold compute_critical_path_length. rewrite Hts.
    cbn [bind try_except]. rewrite Ef. reflexivity.
  - unfold compute_critical_path_activities. rewrite Hts.
    cbn [bind try_except]. rewrite Ef, Eb.
    eexists. split; [reflexivity|].
    intro n. rewrite filter_In. rewrite andb_true_iff.
    unfold is_critical. rewrite Qlt_bool_iff.
    destruct Hord as [_ [Hall _]]. rewrite Hall. tauto.
Qed.

Lemma critical_path_method_witness :
  exists order : list string,
    Nx.topological_sort chain_graph = Ret order /\
    compute_critical_path_length chain_graph chain_durations = Ret 8 /\
    let '(es, ef, pf, ls, lf) := schedule chain_graph chain_durations order in
    dget ef "B" = Some (dget_or es "B" 0 + 3) /\
    dget ls "A" = Some (dget_or lf "A" pf - 5).
Proof.
  destruct critical_path_method as [_ H].
  destruct (H chain_graph chain_durations chain_graph_well_formed
              chain_graph_acyclic) as [order [Hts [_ Hrest]]].
  exists order. split; [exact Hts|]. split; [reflexivity|].
  destruct (schedule chain_graph chain_durations order)
    as [[[[es ef] pf] ls] lf].
  destruct Hrest as [_ [_ Hrec]].
  split.
  - destruct (Hrec "B" 3) as [_ [H2 _]];
      [vm_compute; right; left; reflexivity|reflexivity|exact H2].
  - destruct (Hrec "A" 5) as [_ [_ [_ H4]]];
      [vm_compute; left; reflexivity|reflexivity|exact H4].
Defined.

End CriticalPathFacts.

(** ** Order statistics ([np.percentile]) *)

Module NpFacts.

Import Np.

Lemma insert_sorted_permutation (x : Q) (l : list Q) :
  Permutation (insert_sorted x l) (x :: l).
Proof.
  induction l as [|y r IH]; simpl; [apply Permutation_refl|].
  destruct (Qle_bool x y); [apply Permutation_refl|].
  apply Permutation_trans with (y :: x :: r).
  - apply perm_skip. exact IH.
  - apply perm_swap.
Qed.

Lemma sort_permutation (l : list Q) : Permutation (sort l) l.
Proof.
  induction l as [|x r IH]; simpl; [apply Permutation_refl|].
  apply Permutation_trans with (x :: sort r).
  - apply insert_sorted_permutation.
  - apply perm_skip. exact IH.
Qed.

Lemma sort_length (l : list Q) : List.length (sort l) = List.length l.
Proof. apply Permutation_length. apply sort_permutation. Qed.

Lemma insert_sorted_sorted (x : Q) (l : list Q) :
  StronglySorted Qle l -> StronglySorted Qle (insert_sorted x l).
Proof.
  induction l as [|y r IH]; intro Hs; simpl.
  - constructor; constructor.
  - inversion Hs as [|? ? Hr Hy]; subst.
    destruct (Qle_bool x y) eqn:E.
    + apply Qle_bool_iff in E. constructor; [exact Hs|].
      constructor; [exact E|].
      apply Forall_impl with (P := Qle y); [|exact Hy].
      intros z Hz. apply Qle_trans with y; assumption.
    + apply Qle_bool_false_iff in E. constructor; [apply IH; exact Hr|].
      apply Forall_forall. intros z Hz.
      apply (Permutation_in _ (insert_sorted_permutation x r)) in Hz.
      destruct Hz as [<-|Hz]; [apply Qlt_le_weak; exact E|].
      rewrite Forall_forall in Hy. apply Hy. exact Hz.
Qed.

Lemma sort_sorted (l : list Q) : StronglySorted Qle (sort l).
Proof.
  induction l as [|x r IH]; simpl; [constructor|].
  apply insert_sorted_sorted. exact IH.
Qed.

Lemma sorted_nth_le (l : list Q) :
  StronglySorted Qle l ->
  forall i j : nat, (i <= j)%nat -> (j < List.length l)%nat ->
  nth i l 0 <= nth j l 0.
Proof.
  intro Hs. induction Hs as [|x r Hr IH Hx]; intros i j Hij Hj.
  - simpl in Hj. lia.
  - destruct j as [|j].
    + assert (i = 0%nat) by lia. subst. simpl. apply Qle_refl.
    + destruct i as [|i].
      * simpl. rewrite Forall_forall in Hx. apply Hx. apply nth_In.
        simpl in Hj. lia.
      * simpl. apply IH; simpl in Hj; lia.
Qed.

Lemma order_statistic_monotone (a : list Q) (i j : nat) :
  (i <= j)%nat -> (j < List.length a)%nat ->
  order_statistic a i <= order_statistic a j.
Proof.
  intros Hij Hj. unfold order_statistic.
  apply sorted_nth_le; [apply sort_sorted|exact Hij|].
  rewrite sort_length. exact Hj.
Qed.

Lemma order_statistic_nonneg (a : list Q) (i : nat) :
  (forall x, In x a -> 0 <= x) -> 0 <= order_statistic a i.
Proof.
  intro H. unfold order_statistic.
  destruct (Nat.lt_ge_cases i (List.length (sort a))) as [Hi|Hi].
  - apply H. apply (Permutation_in _ (sort_permutation a)).
    apply nth_In. exact Hi.
  - rewrite nth_overflow by exact Hi. apply Qle_refl.
Qed.

(** Both branches of NumPy's interpolation are the same affine
    combination. *)
Lemma percentile_interpolates (a : list Q) (q : Q) :
  percentile a q ==
    order_statistic a (lower_rank a q)
    + (order_statistic a (upper_rank a q)
       - order_statistic a (lower_rank a q)) * gamma a q.
Proof.
  unfold percentile. cbv zeta.
  fold (virtual_index a q). fold (lower_rank a q). fold (upper_rank a q).
  fold (order_statistic a (lower_rank a q)).
  fold (order_statistic a (upper_rank a q)).
  fold (gamma a q).
  destruct (Qle_bool (1 # 2) (gamma a q)); ring.
Qed.

Section Ranks.

Variable a : list Q.
Hypothesis nonempty : a <> [].

Lemma sample_size_positive : (0 < List.length a)%nat.
Proof. destruct a; [congruence|simpl; lia]. Qed.


Lemma virtual_index_range (q : Q) :
  0 <= q -> q <= 100 ->
  0 <= virtual_index a q /\
  virtual_index a q <= inject_Z (Z.of_nat (List.length a - 1)).
Proof.
  intros H0 H100. unfold virtual_index. rewrite sort_length.
  assert (Hn : 0 <= inject_Z (Z.of_nat (List.length a - 1))).
  { change 0 with (inject_Z 0). rewrite <- Zle_Qle. lia. }
  set (n := inject_Z (Z.of_nat (List.length a - 1))) in *.
  assert (E : q / 100 == q * (1 # 100)) by field.
  rewrite E. split; nra.
Qed.

Lemma lower_rank_range (q : Q) :
  0 <= q -> q <= 100 ->
  (0 <= Qfloor (virtual_index a q))%Z /\
  (lower_rank a q <= List.length a - 1)%nat.
Proof.
  intros H0 H100. destruct (virtual_index_range q H0 H100) as [Hlo Hhi].
  assert (Hf0 : (0 <= Qfloor (virtual_index a q))%Z).
  { change 0%Z with (Qfloor (inject_Z 0)). apply Qfloor_resp_le. exact Hlo. }
  split; [exact Hf0|].
  unfold lower_rank.
  apply Qfloor_resp_le in Hhi. rewrite Qfloor_Z in Hhi. lia.
Qed.

Lemma gamma_range (q : Q) : 0 <= gamma a q /\ gamma a q < 1.
Proof.
  unfold gamma.
  pose proof (Qfloor_le (virtual_index a q)) as H1.
  pose proof (Qlt_floor (virtual_index a q)) as H2.
  rewrite inject_Z_plus in H2. change (inject_Z 1) with 1 in H2.
  split; lra.
Qed.

Lemma lower_le_upper_rank (q : Q) :
  0 <= q -> q <= 100 ->
  (lower_rank a q <= upper_rank a q)%nat /\
  (upper_rank a q < List.length a)%nat.
Proof.
  intros H0 H100. destruct (lower_rank_range q H0 H100) as [_ H].
  pose proof sample_size_positive as Hn.
  unfold upper_rank. rewrite sort_length. lia.
Qed.

(** A percentile lies between its two neighbouring order statistics. *)
Lemma percentile_between (q : Q) :
  0 <= q -> q <= 100 ->
  order_statistic a (lower_rank a q) <= percentile a q /\
  percentile a q <= order_statistic a (upper_rank a q).
Proof.
  intros H0 H100. rewrite percentile_interpolates.
  destruct (lower_le_upper_rank q H0 H100) as [Hlu Hu].
  pose proof (order_statistic_monotone a _ _ Hlu Hu) as Hle.
  destruct (gamma_range q) as [Hg0 Hg1].
  set (lo := order_statistic a (lower_rank a q)) in *.
  set (hi := order_statistic a (upper_rank a q)) in *.
  set (g := gamma a q) in *.
  split; nra.
Qed.


Lemma percentile_nonneg (q : Q) :
  (forall x, In x a -> 0 <= x) -> 0 <= q -> q <= 100 -> 0 <= percentile a q.
Proof.
  intros Hpos H0 H100.
  destruct (percentile_between q H0 H100) as [Hlow _].
  apply Qle_trans with (order_statistic a (lower_rank a q)); [|exact Hlow].
  apply order_statistic_nonneg. exact Hpos.
Qed.

End Ranks.

(** [int()] is the floor on non-negative numbers. *)
Lemma py_int_floor (x : Q) : 0 <= x -> py_int x = Qfloor x.
Proof.
  intro H. unfold py_int. destruct x as [n d]. simpl.
  apply Z.quot_div_nonneg; [|reflexivity].
  unfold Qle in H. simpl in H. lia.
Qed.

End NpFacts.

(** ** The Monte Carlo forecaster ([core/mc_forecaster.py]) *)

Module ForecastFacts.

Import DigitalTwin McForecaster NpFacts.

(** *** Finish times are never negative *)

Lemma In_dset {V : Type} (d : odict V) (k : string) (v : V)
    (k' : string) (v' : V) :
  In (k', v') (dset d k v) -> In (k', v') d \/ v' = v.
Proof.
  induction d as [|[k0 v0] r IH]; simpl.
  - intros [[= <- <-]|[]]. right. reflexivity.
  - destruct (String.eqb k k0).
    + intros [[= <- <-]|H]; [right; reflexivity|left; right; exact H].
    + intros [H|H]; [left; left; exact H|].
      destruct (IH H) as [H'|H']; [left; right; exact H'|right; exact H'].
Qed.

Lemma nonneg_dict_nil : nonneg_dict [].
Proof. intros k v []. Qed.

Lemma nonneg_dict_dset (d : odict Q) (k : string) (v : Q) :
  nonneg_dict d -> 0 <= v -> nonneg_dict (dset d k v).
Proof.
  intros Hd Hv k' v' H. apply In_dset in H.
  destruct H as [H| ->]; [apply (Hd k' v' H)|exact Hv].
Qed.

Lemma nonneg_dict_get (d : odict Q) (k : string) :
  nonneg_dict d -> 0 <= dget_or d k 0.
Proof.
  intro Hd. unfold dget_or. destruct (dget d k) as [v|] eqn:E.
  - apply (Hd k v). apply dget_In. exact E.
  - apply Qle_refl.
Qed.

Lemma fold_max_ge (r : list Q) (x : Q) : x <= fold_left Qmax r x.
Proof.
  revert x. induction r as [|y r IH]; intro x; simpl; [apply Qle_refl|].
  apply Qle_trans with (Qmax x y); [apply Q.le_max_l|apply IH].
Qed.

Lemma max_list_nonneg (xs : list Q) :
  (forall x, In x xs -> 0 <= x) -> 0 <= max_list xs 0.
Proof.
  intro H. destruct xs as [|x r]; simpl; [apply Qle_refl|].
  apply Qle_trans with x; [apply H; left; reflexivity|apply fold_max_ge].
Qed.

Lemma nonneg_dict_values (d : odict Q) :
  nonneg_dict d -> forall x, In x (dvalues d) -> 0 <= x.
Proof.
  intros Hd x Hx. unfold dvalues in Hx. apply in_map_iff in Hx.
  destruct Hx as [[k v] [<- H]]. apply (Hd k v H).
Qed.

Lemma forward_step_nonneg (g : Nx.DiGraph) (durations : odict Q)
    (st : odict Q * odict Q) (node : string) :
  nonneg_dict durations -> nonneg_dict (snd st) ->
  nonneg_dict (snd (forward_step g durations st node)).
Proof.
  intros Hd Hst. destruct st as [es ef]. unfold forward_step.
  destruct (dget durations node) as [d|] eqn:E; [|exact Hst].
  simpl. apply nonneg_dict_dset; [exact Hst|].
  assert (H0 : 0 <= d) by (apply (Hd node d); apply dget_In; exact E).
  assert (H1 : 0 <= max_list
                      (map (fun pred => dget_or ef pred 0)
                           (Nx.predecessors g node)) 0).
  { apply max_list_nonneg. intros x Hx. apply in_map_iff in Hx.
    destruct Hx as [p [<- _]]. apply nonneg_dict_get. exact Hst. }
  lra.
Qed.

Lemma forward_pass_nonneg (g : Nx.DiGraph) (durations : odict Q)
    (order : list string) :
  nonneg_dict durations ->
  nonneg_dict (snd (forward_pass g durations order)).
Proof.
  intro Hd. unfold forward_pass.
  assert (H0 : nonneg_dict (snd (([], []) : odict Q * odict Q))).
  { intros k v []. }
  revert H0. generalize (([], []) : odict Q * odict Q) as st.
  induction order as [|n l IH]; intros st Hst; simpl; [exact Hst|].
  apply IH. apply forward_step_nonneg; assumption.
Qed.

Lemma critical_path_length_nonneg (g : Nx.DiGraph) (durations : odict Q)
    (x : Q) :
  nonneg_dict durations ->
  compute_critical_path_length g durations = Ret x -> 0 <= x.
Proof.
  intros Hd. unfold compute_critical_path_length.
  destruct (Nx.topological_sort g) as [order|e]; cbn [bind try_except].
  - pose proof (forward_pass_nonneg g durations order Hd) as Hf.
    destruct (forward_pass g durations order) as [es ef]. simpl in Hf.
    intros [= <-]. apply max_list_nonneg. apply nonneg_dict_values. exact Hf.
  - destruct (issubclass e NetworkXError); [|discriminate].
    intros [= <-]. apply max_list_nonneg. apply nonneg_dict_values. exact Hd.
Qed.

Lemma dkeys_tally_step (counts : odict Z) (id : string) :
  dkeys (tally_step counts id) = dkeys counts.
Proof.
  unfold tally_step. destruct (dget counts id) as [c|] eqn:E; [|reflexivity].
  apply dkeys_dset_present. eapply dget_Some_key. exact E.
Qed.

Lemma tally_keys (set_iter : list string -> list string) (counts : odict Z)
    (critical : list string) :
  dkeys (tally set_iter counts critical) = dkeys counts.
Proof.
  unfold tally. generalize (set_iter critical) as l. intro l.
  revert counts. induction l as [|x l IH]; intro counts; simpl; [reflexivity|].
  rewrite IH. apply dkeys_tally_step.
Qed.

Section Runs.

Variable rng : Type.
Variable draw_triangular : rng -> Q -> Q -> Q -> Q * rng.
Variable draw_random : rng -> Q * rng.
Variable draw_uniform : rng -> Q -> Q -> Q * rng.
Variable np_sqrt : Q -> Q.
Variable set_iter : list string -> list string.

Local Abbreviation simulate :=
  (simulate_activity_duration rng draw_triangular draw_random draw_uniform).
Local Abbreviation simulate_everything :=
  (simulate_all rng draw_triangular draw_random draw_uniform).
Local Abbreviation loop :=
  (simulation_loop rng draw_triangular draw_random draw_uniform set_iter).
Local Abbreviation forecast :=
  (monte_carlo_forecast rng draw_triangular draw_random draw_uniform np_sqrt
     set_iter).

Lemma maximum_floor (floor : Q) (l : list Q) (x : Q) :
  In x (Np.maximum floor l) -> floor <= x.
Proof.
  unfold Np.maximum. intro H. apply in_map_iff in H.
  destruct H as [y [<- _]]. apply Q.le_max_l.
Qed.

(** Every simulated duration is at least a tenth of a day. *)
Lemma simulated_duration_floor (s s' : rng) (a : Activity) (n : nat)
    (up : option UncertaintyParams) (durations : list Q) :
  simulate s a n up = Ret (durations, s') ->
  forall x, In x durations -> 1 # 10 <= x.
Proof.
  unfold simulate, simulate_activity_duration.
  destruct up as [up|].
  - unfold simulate_activity_duration_forensic.
    destruct (forensic_shape up) as [[mn md] mx].
    destruct (np_random_triangular rng draw_triangular s mn md mx n)
      as [[ds s1]|e]; cbn [bind]; [|discriminate].
    match goal with
    | |- context [let '(d, s2) := ?c in Ret (Np.maximum (1 # 10) d, s2)] =>
        destruct c as [d2 s2]
    end.
    intros [= <- <-] x Hx. apply (maximum_floor _ _ _ Hx).
  - destruct (standard_shape a) as [[mn md] mx].
    destruct (np_random_triangular rng draw_triangular s mn md mx n)
      as [[ds s1]|e]; cbn [bind]; [|discriminate].
    intros [= <- <-] x Hx. apply (maximum_floor _ _ _ Hx).
Qed.

Lemma simulate_all_nonneg (items : list (string * Activity))
    (upm : option (odict UncertaintyParams)) :
  forall (s s' : rng) (sim0 sim : odict Q),
  nonneg_dict sim0 ->
  simulate_everything s items upm sim0 = Ret (sim, s') ->
  nonneg_dict sim.
Proof.
  unfold simulate_everything.
  induction items as [|[id a] rest IH]; intros s s' sim0 sim H0 H; simpl in H.
  - injection H as <- <-. exact H0.
  - match type of H with
    | context [simulate_activity_duration _ _ _ _ s a 1 ?up] =>
        destruct (simulate_activity_duration rng draw_triangular draw_random
                    draw_uniform s a 1 up) as [[ds s1]|e] eqn:E
    end; cbn [bind] in H; [|discriminate].
    destruct ds as [|d0 ds]; [discriminate|].
    apply (IH _ _ _ _ (nonneg_dict_dset sim0 id d0 H0
                         ltac:(pose proof (simulated_duration_floor _ _ _ _ _ _ E d0
                                             (or_introl eq_refl)); lra)) H).
Qed.

(** The simulation loop adds one non-negative finish time per run. *)
Lemma simulation_loop_sample (twin : DigitalTwin)
    (upm : option (odict UncertaintyParams)) :
  forall (runs : nat) (s s' : rng) (pd0 pd : list Q) (c0 c : odict Z),
  (forall x, In x pd0 -> 0 <= x) ->
  loop runs twin upm s pd0 c0 = Ret (s', pd, c) ->
  (forall x, In x pd -> 0 <= x) /\
  List.length pd = (List.length pd0 + runs)%nat /\
  dkeys c = dkeys c0.
Proof.
  unfold loop.
  induction runs as [|k IH]; intros s s' pd0 pd c0 c H0 H; simpl in H.
  - injection H as <- <- <-. repeat split; [exact H0|lia].
  - destruct (simulate_all rng draw_triangular draw_random draw_uniform s
                (activities twin) upm []) as [[sim s1]|e] eqn:Es;
      cbn [bind] in H; [|discriminate].
    assert (Hsim : nonneg_dict sim).
    { apply (simulate_all_nonneg _ _ _ _ _ _ nonneg_dict_nil Es). }
    destruct (compute_critical_path_length (graph twin) sim) as [x|e] eqn:Ex;
      cbn [bind] in H; [|discriminate].
    destruct (compute_critical_path_activities (graph twin) sim)
      as [crit|e] eqn:Ec; cbn [bind] in H; [|discriminate].
    apply IH in H.
    + destruct H as [H1 [H2 H3]]. split; [exact H1|].
      split; [rewrite H2, length_app; simpl; lia|].
      rewrite H3. apply tally_keys.
    + intros y Hy. apply in_app_or in Hy. destruct Hy as [Hy|[<-|[]]].
      * apply H0. exact Hy.
      * apply (critical_path_length_nonneg _ _ _ Hsim Ex).
Qed.

Lemma dget_map_values {V W : Type} (f : V -> W) (d : odict V) (k : string) :
  dget (map (fun kv => (fst kv, f (snd kv))) d) k = option_map f (dget d k).
Proof.
  induction d as [|[k0 v0] r IH]; simpl; [reflexivity|].
  destruct (String.eqb k k0); [reflexivity|exact IH].
Qed.

End Runs.

End ForecastFacts.

(** ** Reproducibility of the forecast *)

Module DeterminismFacts.

Import DigitalTwin McForecaster.

Lemma dset_present_comm {V : Type} (d : odict V) (a b : string) (x y : V) :
  a <> b -> In a (dkeys d) -> In b (dkeys d) ->
  dset (dset d a x) b y = dset (dset d b y) a x.
Proof.
  intro Hab. induction d as [|[k v] r IH]; simpl; [contradiction|].
  intros Ha Hb.
  destruct (String.eqb_spec a k) as [->|Hak];
  destruct (String.eqb_spec b k) as [->|Hbk]; simpl.
  - congruence.
  - rewrite String.eqb_refl.
    destruct (String.eqb_spec b k); [congruence|reflexivity].
  - rewrite String.eqb_refl.
    destruct (String.eqb_spec a k); [congruence|reflexivity].
  - destruct (String.eqb_spec a k); [congruence|].
    destruct (String.eqb_spec b k); [congruence|].
    f_equal. apply IH.
    + destruct Ha as [E|Ha]; [congruence|exact Ha].
    + destruct Hb as [E|Hb]; [congruence|exact Hb].
Qed.

(** Counting two activities in either order gives the same dictionary. *)
Lemma tally_step_comm (counts : odict Z) (a b : string) :
  tally_step (tally_step counts a) b = tally_step (tally_step counts b) a.
Proof.
  destruct (string_dec a b) as [->|Hab]; [reflexivity|].
  unfold tally_step.
  destruct (dget counts a) as [x|] eqn:Ea;
  destruct (dget counts b) as [y|] eqn:Eb;
    rewrite ?(dget_dset_other counts a b) by congruence;
    rewrite ?(dget_dset_other counts b a) by congruence;
    rewrite ?Ea, ?Eb; try reflexivity.
  apply dset_present_comm; [exact Hab| |].
  - eapply dget_Some_key. exact Ea.
  - eapply dget_Some_key. exact Eb.
Qed.

Lemma fold_tally_permutation (l1 l2 : list string) :
  Permutation l1 l2 ->
  forall counts, fold_left tally_step l1 counts = fold_left tally_step l2 counts.
Proof.
  induction 1 as [|x l1 l2 _ IH|x y l|l1 l2 l3 _ IH1 _ IH2]; intro counts;
    simpl.
  - reflexivity.
  - apply IH.
  - rewrite tally_step_comm. reflexivity.
  - rewrite IH1. apply IH2.
Qed.

Section TwoOrders.

Variable rng : Type.
Variable draw_triangular : rng -> Q -> Q -> Q -> Q * rng.
Variable draw_random : rng -> Q * rng.
Variable draw_uniform : rng -> Q -> Q -> Q * rng.
Variable np_sqrt : Q -> Q.
Variables set_iter1 set_iter2 : list string -> list string.

Hypothesis iter1_permutes : forall l, Permutation l (set_iter1 l).
Hypothesis iter2_permutes : forall l, Permutation l (set_iter2 l).

Lemma tally_order_irrelevant (counts : odict Z) (critical : list string) :
  tally set_iter1 counts critical = tally set_iter2 counts critical.
Proof.
  unfold tally. apply fold_tally_permutation.
  apply Permutation_trans with critical.
  - apply Permutation_sym. apply iter1_permutes.
  - apply iter2_permutes.
Qed.

Lemma simulation_loop_order_irrelevant (twin : DigitalTwin)
    (upm : option (odict UncertaintyParams)) (runs : nat) :
  forall (s : rng) (pd : list Q) (counts : odict Z),
  simulation_loop rng draw_triangular draw_random draw_uniform set_iter1
    runs twin upm s pd counts
  = simulation_loop rng draw_triangular draw_random draw_uniform set_iter2
      runs twin upm s pd counts.
Proof.
  induction runs as [|k IH]; intros s pd counts; simpl; [reflexivity|].
  destruct (simulate_all rng draw_triangular draw_random draw_uniform s
              (activities twin) upm []) as [[sim s1]|e]; cbn [bind];
    [|reflexivity].
  destruct (compute_critical_path_length (graph twin) sim) as [x|e];
    cbn [bind]; [|reflexivity].
  destruct (compute_critical_path_activities (graph twin) sim) as [crit|e];
    cbn [bind]; [|reflexivity].
  rewrite tally_order_irrelevant. apply IH.
Qed.

(** C4.  With the initial state of the generator, the twin, the parameter
    map and the number of runs fixed, the whole outcome of
    [monte_carlo_forecast] (the percentiles, every other field and the
    final generator state) is fixed: it does not depend on the order in
    which the interpreter happens to iterate over the critical sets, which
    is the only thing that may differ between two runs. *)
Theorem forecast_deterministic (s : rng) (twin : DigitalTwin)
    (num_simulations : nat)
    (uncertainty_params_map : option (odict UncertaintyParams)) :
  monte_carlo_forecast rng draw_triangular draw_random draw_uniform np_sqrt
    set_iter1 s twin num_simulations uncertainty_params_map
  = monte_carlo_forecast rng draw_triangular draw_random draw_uniform np_sqrt
      set_iter2 s twin num_simulations uncertainty_params_map.
Proof.
  unfold monte_carlo_forecast.
  rewrite simulation_loop_order_irrelevant. reflexivity.
Qed.

End TwoOrders.

Lemma forecast_deterministic_witness :
  Scenario.chain_forecast Scenario.insertion_order 3
  = Scenario.chain_forecast Scenario.reverse_order 3.
Proof.
  apply forecast_deterministic.
  - intro l. apply Permutation_refl.
  - intro l. apply Permutation_rev.
Defined.

End DeterminismFacts.

(** ** The skill analyzer ([core/skill_analyzer.py]) *)

Module SkillFacts.

Import SkillAnalyzer.

(** *** The demand dictionary *)

Lemma key_eqb_eq (k1 k2 : string * string) : key_eqb k1 k2 = true <-> k1 = k2.
Proof.
  destruct k1 as [a b], k2 as [c d]. unfold key_eqb. simpl.
  rewrite andb_true_iff, !String.eqb_eq. split.
  - intros [-> ->]. reflexivity.
  - intros [= -> ->]. split; reflexivity.
Qed.

Lemma key_eqb_refl (k : string * string) : key_eqb k k = true.
Proof. apply key_eqb_eq. reflexivity. Qed.

Lemma demand_get_In (d : demand_dict) (k : string * string) (e : Demand) :
  demand_get d k = Some e -> In (k, e) d.
Proof.
  induction d as [|[k' v] r IH]; simpl; [discriminate|].
  destruct (key_eqb k k') eqn:E.
  - apply key_eqb_eq in E. subst. intros [= ->]. left. reflexivity.
  - intro H. right. apply IH. exact H.
Qed.

Lemma demand_get_None (d : demand_dict) (k : string * string) :
  demand_get d k = None -> ~ In k (demand_keys d).
Proof.
  induction d as [|[k' v] r IH]; simpl; [auto|].
  destruct (key_eqb k k') eqn:E; [discriminate|].
  intros H [Hk|Hk].
  - subst. rewrite key_eqb_refl in E. discriminate.
  - apply (IH H Hk).
Qed.

Lemma In_demand_get (d : demand_dict) (k : string * string) (e : Demand) :
  NoDup (demand_keys d) -> In (k, e) d -> demand_get d k = Some e.
Proof.
  induction d as [|[k' v] r IH]; simpl; [contradiction|].
  intros Hnd H. inversion Hnd as [|? ? Hout Hnd']; subst.
  destruct (key_eqb k k') eqn:E.
  - apply key_eqb_eq in E. subst.
    destruct H as [[= ->]|H]; [reflexivity|].
    exfalso. apply Hout. unfold demand_keys.
    apply in_map_iff. exists (k', e). split; [reflexivity|exact H].
  - destruct H as [[= -> ->]|H].
    + rewrite key_eqb_refl in E. discriminate.
    + apply IH; assumption.
Qed.

Lemma demand_keys_set (d : demand_dict) (k : string * string) (e : Demand) :
  demand_keys (demand_set d k e)
  = if existsb (key_eqb k) (demand_keys d) then demand_keys d
    else demand_keys d ++ [k].
Proof.
  induction d as [|[k' v] r IH]; simpl; [reflexivity|].
  destruct (key_eqb k k') eqn:E; simpl; [reflexivity|].
  rewrite IH. destruct (existsb (key_eqb k) (demand_keys r)); reflexivity.
Qed.

Lemma NoDup_demand_set (d : demand_dict) (k : string * string) (e : Demand) :
  NoDup (demand_keys d) -> NoDup (demand_keys (demand_set d k e)).
Proof.
  intro Hnd. rewrite demand_keys_set.
  destruct (existsb (key_eqb k) (demand_keys d)) eqn:E; [exact Hnd|].
  apply NoDup_app; [exact Hnd|repeat constructor; auto|].
  intros x Hx [<-|[]].
  assert (Ht : existsb (key_eqb k) (demand_keys d) = true).
  { apply existsb_exists. exists k. split; [exact Hx|apply key_eqb_refl]. }
  congruence.
Qed.

Lemma In_demand_set (d : demand_dict) (k : string * string) (e : Demand)
    (k' : string * string) (e' : Demand) :
  In (k', e') (demand_set d k e) -> In (k', e') d \/ e' = e.
Proof.
  induction d as [|[k0 v0] r IH]; simpl.
  - intros [[= <- <-]|[]]. right. reflexivity.
  - destruct (key_eqb k k0).
    + intros [[= <- <-]|H]; [right; reflexivity|left; right; exact H].
    + intros [H|H]; [left; left; exact H|].
      destruct (IH H) as [H'|H']; [left; right; exact H'|right; exact H'].
Qed.

Lemma demand_get_set (d : demand_dict) (k k' : string * string)
    (e : Demand) :
  demand_get (demand_set d k e) k'
  = if key_eqb k' k then Some e else demand_get d k'.
Proof.
  induction d as [|[k0 v0] r IH]; simpl.
  - destruct (key_eqb k' k); reflexivity.
  - destruct (key_eqb k k0) eqn:E; simpl.
    + apply key_eqb_eq in E. subst k0.
      destruct (key_eqb k' k); reflexivity.
    + rewrite IH. destruct (key_eqb k' k0) eqn:E0; [|reflexivity].
      apply key_eqb_eq in E0. subst k0.
      destruct (key_eqb k' k) eqn:E1; [|reflexivity].
      apply key_eqb_eq in E1. subst k'. rewrite key_eqb_refl in E.
      discriminate.
Qed.

Lemma key_eqb_sym (k1 k2 : string * string) : key_eqb k1 k2 = key_eqb k2 k1.
Proof.
  destruct (key_eqb k1 k2) eqn:E1; destruct (key_eqb k2 k1) eqn:E2;
    try reflexivity.
  - apply key_eqb_eq in E1. subst. rewrite key_eqb_refl in E2. discriminate.
  - apply key_eqb_eq in E2. subst. rewrite key_eqb_refl in E1. discriminate.
Qed.

(** *** Loops that can raise *)

Lemma for_each_app {S A : Type} (body : S -> A -> outcome S)
    (xs ys : list A) (s : S) :
  for_each body (xs ++ ys) s
  = bind (for_each body xs s) (for_each body ys).
Proof.
  revert s. induction xs as [|x xs IH]; intro s; simpl; [reflexivity|].
  destruct (body s x) as [s'|e]; simpl; [apply IH|reflexivity].
Qed.

Lemma for_each_ext {S A : Type} (body body' : S -> A -> outcome S)
    (xs : list A) (s : S) :
  (forall s x, In x xs -> body s x = body' s x) ->
  for_each body xs s = for_each body' xs s.
Proof.
  revert s. induction xs as [|x xs IH]; intros s H; simpl; [reflexivity|].
  rewrite (H s x (or_introl eq_refl)).
  destruct (body' s x) as [s'|e]; simpl; [|reflexivity].
  apply IH. intros s0 x0 Hx. apply H. right. exact Hx.
Qed.

Lemma for_each_flat_map {S A B : Type} (body : S -> B -> outcome S)
    (f : A -> list B) (xs : list A) (s : S) :
  for_each body (flat_map f xs) s
  = for_each (fun s x => for_each body (f x) s) xs s.
Proof.
  revert s. induction xs as [|x xs IH]; intro s; simpl; [reflexivity|].
  rewrite for_each_app.
  destruct (for_each body (f x) s) as [s'|e]; simpl; [apply IH|reflexivity].
Qed.

(** *** The first loop *)

(** What [record_skill] returns when neither comparison raises. *)
Lemma record_skill_returns (a : Activity) (resource : string) (ps pf : pdate)
    (fte mx : Q) (d d' : demand_dict) (s : string) :
  record_skill a resource ps pf fte mx d s = Ret d' ->
  let entry :=
    match demand_get d (s, resource) with
    | Some e => e
    | None => mkDemand 0 mx [] ps pf
    end in
  exists earlier later : bool,
    date_lt ps (time_window_start entry) = Ret earlier /\
    date_lt (time_window_end entry) pf = Ret later /\
    d' = demand_set d (s, resource)
           (mkDemand (total_fte entry + fte) (max_fte entry)
              (demand_activities entry
               ++ [mkActivityDetail (activity_id a) (name a) fte ps pf])
              (if earlier then ps else time_window_start entry)
              (if later then pf else time_window_end entry)).
Proof.
  unfold record_skill. cbv zeta.
  set (entry := match demand_get d (s, resource) with
                | Some e => e
                | None => mkDemand 0 mx [] ps pf
                end).
  destruct (date_lt ps (time_window_start entry)) as [earlier|e1];
    cbn [bind]; [|discriminate].
  destruct (date_lt (time_window_end entry) pf) as [later|e2];
    cbn [bind]; [|discriminate].
  intros [= <-]. exists earlier, later. repeat split.
Qed.

Section Dates.

Variable to_datetime : string -> option pdate.

Local Abbreviation parse := (_parse_date to_datetime).
Local Abbreviation record := (record_demand to_datetime).
Local Abbreviation demands := (demands_of to_datetime).

(** The demands that the recorded ones add up to, for one pair. *)
Local Abbreviation asking evs k :=
  (map (@snd (string * string) Activity)
     (filter (fun demand => key_eqb (fst demand) k) evs)).

(** The first loop records the demands of the activities one by one. *)
Lemma record_activity_as_demands (d : demand_dict) (a : Activity) :
  record_activity to_datetime d a = for_each record (demands a) d.
Proof.
  unfold record_activity, demands_of, takes_part.
  destruct (str_truthy (skill_tags a)) eqn:Et; cbn [negb orb andb];
    [|destruct (resource_id a); reflexivity].
  destruct (resource_id a) as [[|c rs]|] eqn:Er;
    cbn [str_truthy negb andb]; [reflexivity| |reflexivity].
  set (resource := String c rs).
  destruct (parse (planned_start a)) as [ps|] eqn:Eps;
    [|destruct (parse_skill_tags (skill_tags a)); reflexivity].
  destruct (parse (planned_finish a)) as [pf|] eqn:Epf;
    [|destruct (parse_skill_tags (skill_tags a)); reflexivity].
  assert (H : forall skills d0,
            for_each (record_skill a resource ps pf
                        (py_or_lit (fte_allocation a) 0)
                        (py_or_lit (resource_max_fte a) 1)) skills d0
            = for_each record
                (map (fun skill => ((skill, resource), a)) skills) d0).
  { induction skills as [|s skills IH]; intro d0; simpl; [reflexivity|].
    unfold record_demand at 1. cbn [fst snd]. rewrite Eps, Epf.
    unfold fte_of, capacity_of.
    destruct (record_skill a resource ps pf (py_or_lit (fte_allocation a) 0)
                (py_or_lit (resource_max_fte a) 1) d0 s) as [d1|e];
      simpl; [apply IH|reflexivity]. }
  rewrite <- H.
  destruct (parse_skill_tags (skill_tags a)); reflexivity.
Qed.

Lemma build_skill_demand_as_demands (acts : list Activity) :
  build_skill_demand to_datetime acts
  = for_each record (flat_map demands acts) [].
Proof.
  unfold build_skill_demand. rewrite for_each_flat_map.
  apply for_each_ext. intros d a _. apply record_activity_as_demands.
Qed.

(** Every demand of an activity comes from an activity that takes part in
    the analysis. *)
Lemma demands_take_part (acts : list Activity) :
  Forall (fun demand => takes_part to_datetime (snd demand) = true)
    (flat_map demands acts).
Proof.
  apply Forall_forall. intros ev Hev. apply in_flat_map in Hev.
  destruct Hev as [a [_ Ha]]. unfold demands_of in Ha.
  destruct (resource_id a) as [resource|]; [|contradiction].
  destruct (takes_part to_datetime a) eqn:E; [|contradiction].
  apply in_map_iff in Ha. destruct Ha as [s [<- _]]. exact E.
Qed.

Lemma takes_part_dates (a : Activity) :
  takes_part to_datetime a = true ->
  exists ps pf, parse (planned_start a) = Some ps /\
                parse (planned_finish a) = Some pf.
Proof.
  unfold takes_part. intro H. apply andb_true_iff in H. destruct H as [_ H].
  destruct (parse (planned_start a)) as [ps|]; [|discriminate].
  destruct (parse (planned_finish a)) as [pf|]; [|discriminate].
  exists ps, pf. split; reflexivity.
Qed.

(** The demand dictionary in terms of the demands recorded so far. *)
Lemma recorded_demands (evs : list ((string * string) * Activity)) :
  Forall (fun demand => takes_part to_datetime (snd demand) = true) evs ->
  forall d : demand_dict,
  for_each record evs [] = Ret d ->
  NoDup (demand_keys d) /\
  forall k : string * string,
    match demand_get d k with
    | None => asking evs k = []
    | Some e =>
        asking evs k <> [] /\
        map detail_activity_id (demand_activities e)
        = map activity_id (asking evs k) /\
        total_fte e
        = fold_left (fun total a => total + fte_of a) (asking evs k) 0 /\
        max_fte e = match asking evs k with
                    | a :: _ => capacity_of a
                    | [] => 1
                    end
    end.
Proof.
  induction evs as [|ev evs IH] using rev_ind; intros Hall d H.
  - injection H as <-. split; [constructor|]. intro k. reflexivity.
  - apply Forall_app in Hall. destruct Hall as [Hall Hev].
    inversion Hev as [|? ? Hpart _]; subst.
    rewrite for_each_app in H.
    destruct (for_each record evs []) as [d1|e] eqn:E1; cbn [bind] in H;
      [|discriminate].
    destruct (IH Hall d1 eq_refl) as [Hnd Hinv]. clear IH.
    cbn [for_each] in H.
    destruct (record d1 ev) as [d2|e] eqn:E2; cbn [bind] in H;
      [|discriminate].
    injection H as <-.
    destruct ev as [[s r] a]. unfold record_demand in E2. cbn [fst snd] in *.
    destruct (takes_part_dates a Hpart) as [ps [pf [Eps Epf]]].
    rewrite Eps, Epf in E2.
    destruct (record_skill_returns _ _ _ _ _ _ _ _ _ E2)
      as [earlier [later [_ [_ ->]]]].
    split; [apply NoDup_demand_set; exact Hnd|].
    intro k. rewrite demand_get_set. rewrite filter_app, map_app.
    cbn [filter fst]. rewrite (key_eqb_sym (s, r) k).
    destruct (key_eqb k (s, r)) eqn:Ek.
    + apply key_eqb_eq in Ek. subst k.
      cbn [map snd total_fte max_fte demand_activities].
      specialize (Hinv (s, r)).
      destruct (demand_get d1 (s, r)) as [e0|].
      * destruct Hinv as [Hne [Hids [Htot Hmax]]].
        split; [intro E0; apply app_eq_nil in E0; destruct E0; discriminate|].
        split; [rewrite !map_app, Hids; reflexivity|].
        split; [rewrite fold_left_app, Htot; reflexivity|].
        rewrite Hmax. destruct (asking evs (s, r)); [congruence|reflexivity].
      * rewrite Hinv. cbn [app map fold_left total_fte max_fte
                           demand_activities detail_activity_id].
        split; [discriminate|]. repeat split.
    + cbn [map]. rewrite app_nil_r. apply Hinv.
Qed.



End Dates.

(** *** The second loop *)

Lemma In_touches (bs : list Bottleneck) (s id : string) :
  In (s, id) (touches bs) <->
  exists b, In b bs /\ skill b = s /\ In id (bottleneck_activities b).
Proof.
  unfold touches. rewrite in_flat_map. split.
  - intros [b [Hb H]]. apply in_map_iff in H. destruct H as [x [[= <- <-] Hx]].
    exists b. repeat split; assumption.
  - intros [b [Hb [<- Hid]]]. exists b. split; [exact Hb|].
    apply in_map_iff. exists id. split; [reflexivity|exact Hid].
Qed.

Lemma touches_snoc (bs : list Bottleneck) (s r : string) (data : Demand) :
  touches (bs ++ [bottleneck_of s r data])
  = touches bs ++ map (fun d => (s, detail_activity_id d))
                      (demand_activities data).
Proof.
  unfold touches. rewrite flat_map_app. simpl. rewrite app_nil_r.
  rewrite map_map. reflexivity.
Qed.

(** What the invariant says of the list read by [mark_activity]. *)
Lemma risks_agree_current (t : list (string * string))
    (risks : odict (list string)) (variance : odict Q) (id : string) :
  risks_agree t risks variance ->
  NoDup (dget_or risks id []) /\
  forall s, In s (dget_or risks id []) <-> In (s, id) t.
Proof.
  intro H. specialize (H id). unfold dget_or.
  destruct (dget risks id) as [rs|].
  - destruct H as [_ [Hnd [Hin _]]]. split; assumption.
  - destruct H as [_ Hout]. split; [constructor|].
    intro s. split; [contradiction|]. intro Hs. exact (Hout s Hs).
Qed.

Lemma mark_activity_agrees (t : list (string * string)) (s : string)
    (risks : odict (list string)) (variance : odict Q)
    (detail : ActivityDetail) :
  risks_agree t risks variance ->
  risks_agree (t ++ [(s, detail_activity_id detail)])
    (fst (mark_activity s (risks, variance) detail))
    (snd (mark_activity s (risks, variance) detail)).
Proof.
  intro H. unfold mark_activity. cbn [fst snd].
  set (id0 := detail_activity_id detail).
  destruct (risks_agree_current t risks variance id0 H) as [Hnd Hin].
  set (rs0 := dget_or risks id0 []) in *.
  set (rs1 := if str_in s rs0 then rs0 else rs0 ++ [s]).
  fold (multiplier_for (List.length rs1)).
  assert (Hne1 : rs1 <> []).
  { unfold rs1. destruct (str_in s rs0) eqn:E.
    - apply str_in_iff in E. intro E0. rewrite E0 in E. contradiction.
    - intro E0. apply app_eq_nil in E0. destruct E0 as [_ E0]. discriminate. }
  assert (Hnd1 : NoDup rs1).
  { unfold rs1. destruct (str_in s rs0) eqn:E; [exact Hnd|].
    apply str_in_false_iff in E. apply NxFacts.NoDup_snoc; assumption. }
  assert (Hin1 : forall s', In s' rs1 <-> In (s', id0) (t ++ [(s, id0)])).
  { intro s'. rewrite in_app_iff. rewrite <- Hin. unfold rs1.
    destruct (str_in s rs0) eqn:E.
    - apply str_in_iff in E. split; [auto|].
      intros [Hs|[[= <-]|[]]]; assumption.
    - rewrite in_app_iff. simpl. split.
      + intros [Hs|[<-|[]]]; auto.
      + intros [Hs|[[= <-]|[]]]; auto. }
  intro id. destruct (string_dec id id0) as [->|Hne].
  - rewrite dget_dset_same. rewrite dget_dset_same.
    repeat split; try assumption; apply Hin1.
  - rewrite !dget_dset_other by exact Hne.
    specialize (H id). destruct (dget risks id) as [rs|].
    + destruct H as [H1 [H2 [H3 H4]]]. repeat split; try assumption.
      * intro Hs. apply in_or_app. left. apply H3. exact Hs.
      * intro Hs. apply in_app_or in Hs.
        destruct Hs as [Hs|[[= _ E]|[]]]; [apply H3; exact Hs|].
        congruence.
    + destruct H as [H1 H2]. split; [exact H1|].
      intros s' Hs. apply in_app_or in Hs.
      destruct Hs as [Hs|[[= _ E]|[]]]; [exact (H2 s' Hs)|congruence].
Qed.

Lemma mark_all_agree (s : string) (details : list ActivityDetail) :
  forall (t : list (string * string)) (risks : odict (list string))
         (variance : odict Q),
  risks_agree t risks variance ->
  risks_agree (t ++ map (fun d => (s, detail_activity_id d)) details)
    (fst (fold_left (mark_activity s) details (risks, variance)))
    (snd (fold_left (mark_activity s) details (risks, variance))).
Proof.
  induction details as [|d details IH]; intros t risks variance H;
    cbn [fold_left map].
  - rewrite app_nil_r. exact H.
  - pose proof (mark_activity_agrees t s risks variance d H) as H1.
    destruct (mark_activity s (risks, variance) d) as [risks1 variance1].
    cbn [fst snd] in H1. apply IH in H1. rewrite <- app_assoc in H1.
    exact H1.
Qed.

Lemma examine_demand_agrees (st : analysis_state)
    (item : (string * string) * Demand) :
  risks_agree (touches (fst (fst st))) (snd (fst st)) (snd st) ->
  let st' := examine_demand st item in
  risks_agree (touches (fst (fst st'))) (snd (fst st')) (snd st') /\
  fst (fst st')
  = fst (fst st)
    ++ (if overloaded (snd item)
        then [bottleneck_of (fst (fst item)) (snd (fst item)) (snd item)]
        else []).
Proof.
  destruct st as [[bs risks] variance]. destruct item as [[s r] data].
  cbn [fst snd]. intro H. unfold examine_demand.
  destruct (overloaded data).
  - pose proof (mark_all_agree s (demand_activities data) _ _ _ H) as H1.
    destruct (fold_left (mark_activity s) (demand_activities data)
                (risks, variance)) as [risks1 variance1].
    cbn [fst snd] in *. rewrite touches_snoc. split; [exact H1|reflexivity].
  - cbn [fst snd]. rewrite app_nil_r. split; [exact H|reflexivity].
Qed.

Lemma examine_all_agree (items : demand_dict) :
  forall st : analysis_state,
  risks_agree (touches (fst (fst st))) (snd (fst st)) (snd st) ->
  let st' := fold_left examine_demand items st in
  risks_agree (touches (fst (fst st'))) (snd (fst st')) (snd st') /\
  fst (fst st')
  = fst (fst st)
    ++ map (fun item => bottleneck_of (fst (fst item)) (snd (fst item))
                          (snd item))
           (filter (fun item => overloaded (snd item)) items).
Proof.
  induction items as [|item items IH]; intros st H; simpl.
  - rewrite app_nil_r. split; [exact H|reflexivity].
  - destruct (examine_demand_agrees st item H) as [H1 E1].
    destruct (IH _ H1) as [H2 E2]. split; [exact H2|].
    rewrite E2, E1. rewrite <- app_assoc.
    destruct (overloaded (snd item)); reflexivity.
Qed.

Lemma risks_agree_initial : risks_agree (touches []) [] [].
Proof. intro id. simpl. split; [reflexivity|]. intros s []. Qed.

(** The returned dictionary in terms of the demand dictionary. *)
Lemma analyse_parts (demand : demand_dict) :
  let result := analyse demand in
  risks_agree (touches (skill_bottlenecks result))
    (activity_skill_risks result) (variance_increase_map result) /\
  forall b, In b (skill_bottlenecks result) <->
    exists s r data, In ((s, r), data) demand /\
      overloaded data = true /\ b = bottleneck_of s r data.
Proof.
  intro result.
  destruct (examine_all_agree demand ([], [], []) risks_agree_initial)
    as [Hagree Ebs].
  unfold result, analyse.
  destruct (fold_left examine_demand demand ([], [], []))
    as [[bs risks] variance].
  cbn [fst snd app] in Hagree, Ebs.
  cbn [skill_bottlenecks activity_skill_risks variance_increase_map].
  split; [exact Hagree|].
  intro b. rewrite Ebs. rewrite in_map_iff. split.
  - intros [[[s r] data] [<- H]]. apply filter_In in H.
    exists s, r, data. cbn [fst snd] in *.
    destruct H as [H1 H2]. repeat split; assumption.
  - intros [s [r [data [H1 [H2 ->]]]]]. exists ((s, r), data).
    split; [reflexivity|]. apply filter_In. split; assumption.
Qed.

(** [check_skill_overload] returns exactly when the first loop does. *)
Lemma check_skill_overload_returns (to_datetime : string -> option pdate)
    (acts : list Activity) (result : SkillOverload) :
  check_skill_overload to_datetime acts = Ret result ->
  exists demand : demand_dict,
    build_skill_demand to_datetime acts = Ret demand /\
    result = analyse demand.
Proof.
  unfold check_skill_overload.
  destruct (build_skill_demand to_datetime acts) as [demand|e];
    cbn [bind]; [|discriminate].
  intros [= <-]. exists demand. split; reflexivity.
Qed.

(** The entry of a pair in the demand dictionary, read off the
    activities. *)
Lemma demand_of_pair (to_datetime : string -> option pdate)
    (acts : list Activity) (demand : demand_dict) :
  build_skill_demand to_datetime acts = Ret demand ->
  NoDup (demand_keys demand) /\
  forall s r : string,
    match demand_get demand (s, r) with
    | None =>
        contributions to_datetime acts s r = [] /\
        ~ pair_capacity to_datetime acts s r
          < pair_demand to_datetime acts s r
    | Some e =>
        contributions to_datetime acts s r <> [] /\
        map detail_activity_id (demand_activities e)
        = map activity_id (contributions to_datetime acts s r) /\
        total_fte e = pair_demand to_datetime acts s r /\
        max_fte e = pair_capacity to_datetime acts s r
    end.
Proof.
  intro H. rewrite build_skill_demand_as_demands in H.
  destruct (recorded_demands to_datetime _ (demands_take_part to_datetime acts)
              demand H) as [Hnd Hinv].
  split; [exact Hnd|]. intros s r. specialize (Hinv (s, r)).
  unfold pair_demand, pair_capacity, contributions.
  destruct (demand_get demand (s, r)) as [e|]; [exact Hinv|].
  rewrite Hinv. split; [reflexivity|]. cbn [fold_left]. lra.
Qed.




End SkillFacts.

(* ================================================================== *)
(** * Further properties of the engine *)
(* ================================================================== *)

(** ** Building and caching twins ([core/digital_twin.py]) *)

Module TwinBuildFacts.

Import Nx DigitalTwin NxFacts.

(** [topological_sort] only raises on a graph that has a cycle. *)
Lemma topological_sort_stuck (g : DiGraph) (e : exn_class) :
  well_formed g -> topological_sort g = Raise e ->
  e = NetworkXUnfeasible /\ cyclic g.
Proof.
  intros Hwf E. split; [apply (topological_sort_raises g e Hwf E)|].
  unfold topological_sort in E.
  pose proof (topological_sort_fuel_enough g) as Hfuel.
  unfold topological_generations_fuel in *.
  pose proof (generations_loop_inv g Hwf (enough_fuel g) [] _ _
                (kahn_inv_initial g Hwf)) as Hloop.
  destruct (generations_loop (enough_fuel g) g (initial_indegree_map g)
              (initial_zero_indegree g)) as [[gens|e']|];
    [discriminate| |congruence].
  destruct Hloop as [_ [processed' [m' [Hinv Hm]]]].
  apply (stuck_cyclic g processed' m' Hwf Hinv Hm).
Qed.

Lemma add_node_edges (g : DiGraph) (n : string) :
  edges (add_node g n) = edges g.
Proof. unfold add_node. destruct (has_node g n); reflexivity. Qed.

Lemma add_edge_nodes (g : DiGraph) (u v x : string) :
  In x (nodes (add_edge g u v)) <-> In x (nodes g) \/ x = u \/ x = v.
Proof.
  unfold add_edge.
  destruct (has_edge (add_node (add_node g u) v) u v); simpl;
    rewrite !add_node_has; tauto.
Qed.

Lemma add_edge_edges (g : DiGraph) (u v : string) (e : string * string) :
  In e (edges (add_edge g u v)) <-> In e (edges g) \/ e = (u, v).
Proof.
  unfold add_edge.
  destruct (has_edge (add_node (add_node g u) v) u v) eqn:E; simpl.
  - apply has_edge_iff in E. rewrite !add_node_edges in *.
    split; [auto|]. intros [H| ->]; assumption.
  - rewrite in_app_iff, !add_node_edges. simpl. split.
    + intros [H|[H|[]]]; auto.
    + intros [H|H]; auto.
Qed.

(** The inner loop of [_build] over the predecessor references of the
    activity [id], which is already a node. *)
Lemma add_references (id : string) (ps : list string) :
  forall g0 : DiGraph,
  In id (nodes g0) ->
  let g := fold_left
             (fun g p => if strip_nonempty p then add_edge g p id else g)
             ps g0 in
  (forall x, In x (nodes g) <->
     In x (nodes g0) \/ (In x ps /\ strip_nonempty x = true)) /\
  (forall e, In e (edges g) <->
     In e (edges g0) \/
     exists p, e = (p, id) /\ In p ps /\ strip_nonempty p = true).
Proof.
  induction ps as [|p ps IH]; intros g0 Hid; cbn zeta; simpl fold_left.
  - split; [intro x|intro e]; split; auto.
    + intros [H|[[] _]]; exact H.
    + intros [H|[p [_ [[] _]]]]; exact H.
  - destruct (strip_nonempty p) eqn:Ep.
    + assert (Hid' : In id (nodes (add_edge g0 p id)))
        by (apply add_edge_nodes; auto).
      destruct (IH _ Hid') as [Hn He]. split.
      * intro x. rewrite Hn, add_edge_nodes. simpl. split.
        -- intros [[H|[->| ->]]|[H1 H2]]; auto.
        -- intros [H|[[<-|H1] H2]]; auto.
      * intro e. rewrite He, add_edge_edges. split.
        -- intros [[H| ->]|[q [-> [H1 H2]]]]; auto.
           ++ right. exists p. simpl. auto.
           ++ right. exists q. simpl. auto.
        -- intros [H|[q [-> [[<-|H1] H2]]]]; auto.
           right. exists q. auto.
    + destruct (IH _ Hid) as [Hn He]. split.
      * intro x. rewrite Hn. simpl. split.
        -- intros [H|[H1 H2]]; auto.
        -- intros [H|[[<-|H1] H2]]; auto. congruence.
      * intro e. rewrite He. split.
        -- intros [H|[q [-> [H1 H2]]]]; auto.
           right. exists q. simpl. auto.
        -- intros [H|[q [-> [[<-|H1] H2]]]]; auto; [congruence|].
           right. exists q. auto.
Qed.

(** What one activity adds to the graph. *)
Lemma add_activity_content (g0 : DiGraph) (a : Activity) :
  let g := add_activity g0 a in
  (forall x, In x (nodes g) <->
     In x (nodes g0) \/ x = activity_id a \/
     (In x (Models.predecessors a) /\ strip_nonempty x = true)) /\
  (forall u v, In (u, v) (edges g) <->
     In (u, v) (edges g0) \/
     (v = activity_id a /\ In u (Models.predecessors a) /\
      strip_nonempty u = true)).
Proof.
  cbn zeta. unfold add_activity.
  assert (Hid : In (activity_id a) (nodes (add_node g0 (activity_id a))))
    by (apply add_node_has; auto).
  destruct (add_references (activity_id a) (Models.predecessors a) _ Hid)
    as [Hn He].
  split.
  - intro x. rewrite Hn, add_node_has. tauto.
  - intros u v. rewrite He, add_node_edges. split.
    + intros [H|[p [E [H1 H2]]]]; auto. injection E as -> ->. auto.
    + intros [H|[-> [H1 H2]]]; auto. right. exists u. auto.
Qed.

Lemma fold_add_activity_content (l : list Activity) :
  forall g0 : DiGraph,
  let g := fold_left add_activity l g0 in
  (forall x, In x (nodes g) <->
     In x (nodes g0) \/
     exists a, In a l /\
       (x = activity_id a \/
        (In x (Models.predecessors a) /\ strip_nonempty x = true))) /\
  (forall u v, In (u, v) (edges g) <->
     In (u, v) (edges g0) \/
     exists a, In a l /\ v = activity_id a /\
       In u (Models.predecessors a) /\ strip_nonempty u = true).
Proof.
  induction l as [|a l IH]; intros g0; cbn zeta; simpl fold_left.
  - split; [intro x|intros u v]; split; auto.
    + intros [H|[a [[] _]]]; exact H.
    + intros [H|[a [[] _]]]; exact H.
  - destruct (IH (add_activity g0 a)) as [Hn He].
    destruct (add_activity_content g0 a) as [Hn1 He1]. split.
    + intro x. rewrite Hn, Hn1. split.
      * intros [[H|H]|[b [Hb H]]]; auto.
        -- right. exists a. simpl. auto.
        -- right. exists b. simpl. auto.
      * intros [H|[b [[<-|Hb] H]]]; [tauto|tauto|].
        right. exists b. auto.
    + intros u v. rewrite He, He1. split.
      * intros [[H|H]|[b [Hb H]]]; auto.
        -- right. exists a. simpl. auto.
        -- right. exists b. simpl. auto.
      * intros [H|[b [[<-|Hb] H]]]; [tauto|tauto|].
        right. exists b. auto.
Qed.

(** Nodes and edges of the graph built from an activity dictionary. *)
Lemma build_graph_nodes_edges (acts : odict Activity) :
  let g := build_graph acts in
  (forall n, In n (nodes g) <->
     exists a, In a (dvalues acts) /\
       (n = activity_id a \/
        (In n (Models.predecessors a) /\ strip_nonempty n = true))) /\
  (forall u v, In (u, v) (edges g) <->
     exists a, In a (dvalues acts) /\ v = activity_id a /\
       In u (Models.predecessors a) /\ strip_nonempty u = true).
Proof.
  cbn zeta. unfold build_graph.
  destruct (fold_add_activity_content (dvalues acts) empty) as [Hn He].
  split.
  - intro n. rewrite Hn. simpl. split; [intros [[]|H]; exact H|auto].
  - intros u v. rewrite He. simpl. split; [intros [[]|H]; exact H|auto].
Qed.

(** The two outcomes of the constructor. *)
Lemma init_cases
    (simple_cycles : DiGraph -> outcome (list (list string)))
    (acts : list Activity) :
  match __init__ simple_cycles acts with
  | Ret twin =>
      ~ cyclic (build_graph (index_activities acts)) /\
      twin = mkDigitalTwin (index_activities acts)
               (build_graph (index_activities acts)) false None
  | Raise e =>
      cyclic (build_graph (index_activities acts)) /\ e = NetworkXUnfeasible
  end.
Proof.
  unfold __init__, _build.
  pose proof (well_formed_build_graph (index_activities acts)) as Hwf.
  destruct (topological_sort (build_graph (index_activities acts)))
    as [order|e] eqn:E; simpl.
  - split; [|reflexivity].
    apply (topological_order_acyclic _ order).
    apply topological_sort_sound; assumption.
  - destruct (topological_sort_stuck _ e Hwf E) as [-> Hc].
    simpl. split; [exact Hc|reflexivity].
Qed.

(** X1.  Constructing a twin has exactly two outcomes.  When the dependency
    graph of the activities has no cycle, the twin is returned with the
    indexed activities, the graph, [has_cycles = False] and no warning.
    When it has a cycle, the construction raises [NetworkXUnfeasible]; no
    twin with [has_cycles = True] is ever produced. *)
Theorem twin_construction_outcome
    (simple_cycles : DiGraph -> outcome (list (list string)))
    (acts : list Activity) :
  let g := build_graph (index_activities acts) in
  match __init__ simple_cycles acts with
  | Ret twin =>
      ~ cyclic g /\
      twin = mkDigitalTwin (index_activities acts) g false None
  | Raise e => cyclic g /\ e = NetworkXUnfeasible
  end.
Proof. exact (init_cases simple_cycles acts). Qed.

(** X2.  The dependency graph built from the activity dictionary is well
    formed; its nodes are the activity ids together with every non-blank
    predecessor reference (also one that names no activity), and its edges
    are exactly the pairs (reference, activity id) for the non-blank
    predecessor references.  The [successors] lists play no part. *)
Theorem build_graph_content (acts : odict Activity) :
  let g := build_graph acts in
  well_formed g /\
  (forall n, In n (nodes g) <->
     exists a, In a (dvalues acts) /\
       (n = activity_id a \/
        (In n (Models.predecessors a) /\ strip_nonempty n = true))) /\
  (forall u v, In (u, v) (edges g) <->
     exists a, In a (dvalues acts) /\ v = activity_id a /\
       In u (Models.predecessors a) /\ strip_nonempty u = true).
Proof.
  cbn zeta. split; [apply well_formed_build_graph|].
  apply build_graph_nodes_edges.
Qed.

(** *** The activity index *)

Lemma index_activities_snoc (l : list Activity) (a : Activity) :
  index_activities (l ++ [a])
  = dset (index_activities l) (activity_id a) a.
Proof. unfold index_activities. rewrite fold_left_app. reflexivity. Qed.

Lemma NoDup_dkeys_dset {V : Type} (d : odict V) (k : string) (v : V) :
  NoDup (dkeys d) -> NoDup (dkeys (dset d k v)).
Proof.
  intro H. destruct (in_dec string_dec k (dkeys d)) as [Hin|Hout].
  - rewrite dkeys_dset_present; assumption.
  - rewrite dkeys_dset_absent by assumption. apply NoDup_snoc; assumption.
Qed.

Lemma In_dkeys_dset {V : Type} (d : odict V) (k : string) (v : V)
    (x : string) :
  In x (dkeys (dset d k v)) <-> In x (dkeys d) \/ x = k.
Proof.
  destruct (in_dec string_dec k (dkeys d)) as [Hin|Hout].
  - rewrite dkeys_dset_present by assumption. split; [auto|].
    intros [H| ->]; assumption.
  - rewrite dkeys_dset_absent by assumption. rewrite in_app_iff. simpl.
    split; [intros [H|[H|[]]]; auto|intros [H|H]; auto].
Qed.

(** The index: distinct keys, one per id, the last activity wins. *)
Lemma index_activities_spec (acts : list Activity) :
  NoDup (dkeys (index_activities acts)) /\
  (forall id, In id (dkeys (index_activities acts))
              <-> In id (map activity_id acts)) /\
  (forall earlier a later,
     acts = earlier ++ a :: later ->
     ~ In (activity_id a) (map activity_id later) ->
     dget (index_activities acts) (activity_id a) = Some a).
Proof.
  induction acts as [|b l IH] using rev_ind.
  - split; [constructor|]. split; [intro id; simpl; tauto|].
    intros earlier a later E. destruct earlier; discriminate.
  - destruct IH as [Hnd [Hkeys Hlast]].
    rewrite index_activities_snoc.
    split; [apply NoDup_dkeys_dset; exact Hnd|].
    split.
    { intro id. rewrite In_dkeys_dset, Hkeys, map_app, in_app_iff. simpl.
      split; [intros [H| ->]; auto|intros [H|[H|[]]]; auto]. }
    intros earlier a later E Hlater.
    destruct later as [|c later'] using rev_ind.
    + apply app_inj_tail in E. destruct E as [_ <-].
      apply dget_dset_same.
    + clear IHlater'.
      replace (earlier ++ a :: later' ++ [c])
        with ((earlier ++ a :: later') ++ [c]) in E
        by (rewrite <- app_assoc; reflexivity).
      apply app_inj_tail in E. destruct E as [El <-].
      rewrite map_app, in_app_iff in Hlater. simpl in Hlater.
      rewrite dget_dset_other by (intro H; apply Hlater; auto).
      apply (Hlast earlier a later' El). tauto.
Qed.

(** X3.  The activity index has one entry per distinct activity id; a
    lookup returns the last activity of the input list that carries the id,
    and finds nothing for an id that no activity carries. *)
Theorem index_activities_last_wins (acts : list Activity) :
  let d := index_activities acts in
  NoDup (dkeys d) /\
  (forall id, In id (dkeys d) <-> In id (map activity_id acts)) /\
  (forall id, ~ In id (map activity_id acts) -> dget d id = None) /\
  (forall earlier a later,
     acts = earlier ++ a :: later ->
     ~ In (activity_id a) (map activity_id later) ->
     dget d (activity_id a) = Some a).
Proof.
  cbn zeta. destruct (index_activities_spec acts) as [Hnd [Hkeys Hlast]].
  split; [exact Hnd|]. split; [exact Hkeys|]. split; [|exact Hlast].
  intros id Hid. apply dget_None_iff. rewrite Hkeys. exact Hid.
Qed.

Lemma index_activities_last_wins_witness :
  dget (index_activities
          [Scenario.task "A" [] 5; Scenario.task "B" ["A"] 3;
           Scenario.task "A" [] 7]) "A"
  = Some (Scenario.task "A" [] 7) /\
  dget (index_activities
          [Scenario.task "A" [] 5; Scenario.task "B" ["A"] 3;
           Scenario.task "A" [] 7]) "C"
  = None.
Proof.
  pose proof (index_activities_last_wins
                [Scenario.task "A" [] 5; Scenario.task "B" ["A"] 3;
                 Scenario.task "A" [] 7]) as H.
  cbn zeta in H. destruct H as [_ [_ [Hnone Hlast]]]. split.
  - apply (Hlast [Scenario.task "A" [] 5; Scenario.task "B" ["A"] 3]
             (Scenario.task "A" [] 7) []); [reflexivity|].
    simpl. tauto.
  - apply Hnone. simpl. intros [H|[H|[H|[]]]]; discriminate.
Defined.

(** X4.  A successful [get_or_build_twin] leaves the twin under the project
    id, leaves every other project's entry alone, and any later call for
    the project returns the same twin without touching the cache; a call
    that raises leaves the cache as it was, and raises [ValueError] when no
    activities were passed and [NetworkXUnfeasible] when they contain a
    dependency cycle. *)
Theorem get_or_build_twin_outcome
    (simple_cycles : DiGraph -> outcome (list (list string)))
    (cache : twin_cache) (project_id : string)
    (acts : option (list Activity)) :
  match get_or_build_twin simple_cycles cache project_id acts with
  | (Ret twin, cache') =>
      dget cache' project_id = Some twin /\
      (forall other, other <> project_id ->
         dget cache' other = dget cache other) /\
      (forall later,
         get_or_build_twin simple_cycles cache' project_id later
         = (Ret twin, cache'))
  | (Raise e, cache') =>
      cache' = cache /\ dget cache project_id = None /\
      match acts with
      | None => e = ValueError
      | Some l =>
          e = NetworkXUnfeasible /\
          cyclic (build_graph (index_activities l))
      end
  end.
Proof.
  unfold get_or_build_twin.
  destruct (dget cache project_id) as [twin|] eqn:E.
  - split; [exact E|]. split; [reflexivity|].
    intro later. rewrite E. reflexivity.
  - destruct acts as [l|]; [|auto].
    pose proof (init_cases simple_cycles l) as H.
    destruct (__init__ simple_cycles l) as [twin|e].
    + split; [apply dget_dset_same|].
      split; [intros other Ho; apply dget_dset_other; exact Ho|].
      intro later. rewrite dget_dset_same. reflexivity.
    + destruct H as [Hc ->]. auto.
Qed.

End TwinBuildFacts.

(** ** Sampling activity durations ([core/mc_forecaster.py]) *)

Module SamplingFacts.

Import DigitalTwin McForecaster.

Lemma starting_duration_positive (a : Activity) : 0 < starting_duration a.
Proof.
  unfold starting_duration.
  destruct (Qle_bool (py_or_lit (first_duration a) 1) 0) eqn:E;
    bool_to_prop; lra.
Qed.

(** The standard triangle is centred on the starting duration, with a
    relative half-width between 20% and 50%. *)
Lemma standard_shape_spec (a : Activity) :
  exists u : Q,
    2 # 10 <= u /\ u <= 1 # 2 /\
    standard_shape a
    = (Qmax (1 # 10) (starting_duration a * (1 - u)),
       starting_duration a,
       starting_duration a * (1 + u)).
Proof.
  unfold standard_shape, starting_duration. cbv zeta.
  match goal with
  | |- context [Qmax (2 # 10) ?r] => exists (Qmax (2 # 10) r)
  end.
  split; [apply Q.le_max_l|]. split; [|reflexivity].
  match goal with
  | |- context [if ?c then _ else _] => destruct c
  end; minmax_lra.
Qed.

Lemma forensic_shape_spec (up : UncertaintyParams) :
  forensic_shape up
  = (Qmax (1 # 10)
       (modulated_mode up
        * (1 - Qmin (1 # 2) ((2 # 10) * variance_multiplier up))),
     modulated_mode up,
     modulated_mode up
     * (1 + Qmin (1 # 2) ((2 # 10) * variance_multiplier up))).
Proof. reflexivity. Qed.

Lemma apply_failures_length (durations : list Q) :
  forall (mask : list bool) (delays : list Q),
  List.length (apply_failures durations mask delays) = List.length durations.
Proof.
  induction durations as [|d ds IH]; intros mask delays; [reflexivity|].
  destruct mask as [|m ms]; [reflexivity|].
  destruct delays as [|f fs]; [reflexivity|].
  simpl. rewrite IH. reflexivity.
Qed.

Section Draws.

Variable rng : Type.
Variable draw_triangular : rng -> Q -> Q -> Q -> Q * rng.
Variable draw_random : rng -> Q * rng.
Variable draw_uniform : rng -> Q -> Q -> Q * rng.

Local Abbreviation triangular := (np_random_triangular rng draw_triangular).
Local Abbreviation simulate :=
  (simulate_activity_duration rng draw_triangular draw_random draw_uniform).
Local Abbreviation simulate_forensic :=
  (simulate_activity_duration_forensic rng draw_triangular draw_random
     draw_uniform).

Lemma draws_length (draw : rng -> Q * rng) (n : nat) :
  forall s : rng, List.length (fst (draws rng draw n s)) = n.
Proof.
  induction n as [|n IH]; intro s; [reflexivity|].
  simpl. destruct (draw s) as [x s1]. specialize (IH s1).
  destruct (draws rng draw n s1) as [xs s2]. simpl in *. congruence.
Qed.

Lemma triangular_returns (s : rng) (left mode right : Q) (n : nat) :
  left <= mode -> mode <= right -> ~ left == right ->
  triangular s left mode right n
  = Ret (draws rng (fun s => draw_triangular s left mode right) n s).
Proof.
  intros H1 H2 H3. unfold np_random_triangular.
  apply Qlt_bool_false_iff in H1. apply Qlt_bool_false_iff in H2.
  apply Qeq_bool_false_iff in H3. rewrite H1, H2, H3. reflexivity.
Qed.

Lemma triangular_raises (s : rng) (left mode right : Q) (n : nat) :
  mode < left \/ right < mode \/ left == right ->
  triangular s left mode right n = Raise ValueError.
Proof.
  intro H. unfold np_random_triangular.
  destruct (Qlt_bool mode left) eqn:E1; [reflexivity|].
  destruct (Qlt_bool right mode) eqn:E2; [reflexivity|].
  destruct (Qeq_bool left right) eqn:E3; [reflexivity|].
  bool_to_prop. exfalso. destruct H as [H|[H|H]]; [lra|lra|contradiction].
Qed.

(** The part of the forensic routine that follows the triangular draws
    keeps the number of durations. *)
Lemma forensic_tail_length (failure_prob : Q) (n : nat) (durations : list Q)
    (s1 : rng) :
  List.length durations = n ->
  List.length
    (fst (if Qlt_bool 0 failure_prob then
            let '(u, s2) := draws rng draw_random n s1 in
            let failure_mask := map (fun x => Qlt_bool x failure_prob) u in
            if existsb (fun b => b) failure_mask then
              let '(failure_delays, s3) :=
                draws rng (fun s => draw_uniform s (1 # 2) 1) n s2 in
              (apply_failures durations failure_mask failure_delays, s3)
            else (durations, s2)
          else (durations, s1))) = n.
Proof.
  intro Hlen. destruct (Qlt_bool 0 failure_prob); [|exact Hlen].
  destruct (draws rng draw_random n s1) as [u s2]. cbv zeta.
  destruct (existsb (fun b => b) (map (fun x => Qlt_bool x failure_prob) u));
    [|exact Hlen].
  destruct (draws rng (fun s => draw_uniform s (1 # 2) 1) n s2) as [fd s3].
  simpl. rewrite apply_failures_length. exact Hlen.
Qed.

Lemma maximum_at_least (floor : Q) (l : list Q) (x : Q) :
  In x (Np.maximum floor l) -> floor <= x.
Proof.
  unfold Np.maximum. intro H. apply in_map_iff in H.
  destruct H as [y [<- _]]. apply Q.le_max_l.
Qed.

(** The two outcomes of standard sampling. *)
Lemma standard_sampling_cases (s : rng) (a : Activity) (n : nat) :
  (starting_duration a < 1 # 10 -> simulate s a n None = Raise ValueError) /\
  (1 # 10 <= starting_duration a ->
   exists (durations : list Q) (s' : rng),
     simulate s a n None = Ret (durations, s') /\
     List.length durations = n /\
     forall x, In x durations -> 1 # 10 <= x).
Proof.
  destruct (standard_shape_spec a) as [u [Hu1 [Hu2 Eshape]]].
  pose proof (starting_duration_positive a) as Hpos.
  unfold simulate_activity_duration. rewrite Eshape. split; intro Hb.
  - rewrite triangular_raises; [reflexivity|].
    left. minmax_lra.
  - rewrite triangular_returns.
    + cbn [bind].
      pose proof (draws_length
                    (fun s0 =>
                       draw_triangular s0
                         (Qmax (1 # 10) (starting_duration a * (1 - u)))
                         (starting_duration a)
                         (starting_duration a * (1 + u))) n s) as Hlen.
      destruct (draws rng _ n s) as [ds s1]. simpl in Hlen.
      exists (Np.maximum (1 # 10) ds), s1.
      split; [reflexivity|]. split.
      * unfold Np.maximum. rewrite length_map. exact Hlen.
      * intros x Hx. apply (maximum_at_least _ _ _ Hx).
    + assert (starting_duration a * (1 - u) <= starting_duration a) by nra.
      minmax_lra.
    + nra.
    + assert (starting_duration a * (1 - u) < starting_duration a * (1 + u))
        by nra.
      assert (starting_duration a < starting_duration a * (1 + u)) by nra.
      minmax_lra.
Qed.

(** X5.  Without forensic parameters, sampling an activity raises
    [ValueError] exactly when its starting duration (remaining, else
    planned, else baseline, else 1 day) is below a tenth of a day;
    otherwise it returns the requested number of durations, each at least a
    tenth of a day. *)
Theorem standard_sampling_outcome (s : rng) (a : Activity) (n : nat) :
  (starting_duration a < 1 # 10 -> simulate s a n None = Raise ValueError) /\
  (1 # 10 <= starting_duration a ->
   exists (durations : list Q) (s' : rng),
     simulate s a n None = Ret (durations, s') /\
     List.length durations = n /\
     forall x, In x durations -> 1 # 10 <= x).
Proof. exact (standard_sampling_cases s a n). Qed.

(** The two outcomes of forensic sampling. *)
Lemma forensic_sampling_cases (s : rng) (up : UncertaintyParams) (n : nat) :
  (1 # 10 <= modulated_mode up -> 0 < variance_multiplier up ->
   exists (durations : list Q) (s' : rng),
     simulate_forensic s up n = Ret (durations, s') /\
     List.length durations = n /\
     forall x, In x durations -> 1 # 10 <= x) /\
  (modulated_mode up < 1 # 10 \/ variance_multiplier up <= 0 ->
   simulate_forensic s up n = Raise ValueError).
Proof.
  unfold simulate_activity_duration_forensic.
  rewrite forensic_shape_spec.
  set (m := modulated_mode up). set (v := variance_multiplier up).
  split.
  - intros Hm Hv. rewrite triangular_returns.
    + cbn [bind].
      pose proof (draws_length
                    (fun s0 =>
                       draw_triangular s0
                         (Qmax (1 # 10) (m * (1 - Qmin (1 # 2) ((2 # 10) * v))))
                         m (m * (1 + Qmin (1 # 2) ((2 # 10) * v)))) n s)
        as Hlen.
      destruct (draws rng _ n s) as [ds s1]. simpl in Hlen.
      pose proof (forensic_tail_length (failure_probability up) n ds s1 Hlen)
        as Htail.
      match goal with
      | |- context [let '(d, s2) := ?c in Ret (Np.maximum (1 # 10) d, s2)] =>
          destruct c as [d2 s2]
      end.
      simpl in Htail.
      exists (Np.maximum (1 # 10) d2), s2.
      split; [reflexivity|]. split.
      * unfold Np.maximum. rewrite length_map. exact Htail.
      * intros x Hx. apply (maximum_at_least _ _ _ Hx).
    + split_min (1 # 2) ((2 # 10) * v);
        (assert (m * (1 - m0) <= m) by nra); minmax_lra.
    + split_min (1 # 2) ((2 # 10) * v); nra.
    + split_min (1 # 2) ((2 # 10) * v);
        (assert (m * (1 - m0) < m * (1 + m0)) by nra);
        (assert (m < m * (1 + m0)) by nra); minmax_lra.
  - intro H. rewrite triangular_raises; [reflexivity|].
    destruct (Qlt_le_dec m (1 # 10)) as [Hm|Hm].
    + left. minmax_lra.
    + destruct H as [H|Hv]; [lra|].
      destruct (Qlt_le_dec v 0) as [Hneg|Hzero].
      * left. split_min (1 # 2) ((2 # 10) * v);
          (assert (m < m * (1 - m0)) by nra); minmax_lra.
      * right. right. assert (Hv0 : v == 0) by lra.
        split_min (1 # 2) ((2 # 10) * v); [lra|].
        assert (Hm0 : m0 == 0) by lra.
        assert (E1 : m * (1 - m0) == m) by (rewrite Hm0; ring).
        assert (E2 : m * (1 + m0) == m) by (rewrite Hm0; ring).
        minmax_lra.
Qed.


End Draws.

Lemma standard_sampling_outcome_witness :
  simulate_activity_duration nat Scenario.mode_rng_triangular
    Scenario.mode_rng_random Scenario.mode_rng_uniform 0%nat
    (Scenario.task "A" [] (1 # 20)) 3 None
  = Raise ValueError /\
  exists (durations : list Q) (s' : nat),
    simulate_activity_duration nat Scenario.mode_rng_triangular
      Scenario.mode_rng_random Scenario.mode_rng_uniform 0%nat
      (Scenario.task "A" [] 5) 3 None
    = Ret (durations, s') /\
    List.length durations = 3%nat /\
    forall x, In x durations -> 1 # 10 <= x.
Proof.
  split.
  - apply (standard_sampling_outcome nat Scenario.mode_rng_triangular
             Scenario.mode_rng_random Scenario.mode_rng_uniform 0%nat
             (Scenario.task "A" [] (1 # 20)) 3).
    vm_compute. reflexivity.
  - apply (standard_sampling_outcome nat Scenario.mode_rng_triangular
             Scenario.mode_rng_random Scenario.mode_rng_uniform 0%nat
             (Scenario.task "A" [] 5) 3).
    vm_compute. discriminate.
Defined.


End SamplingFacts.

(** ** Largest and smallest elements *)

Module ExtremaFacts.

Lemma fold_max_init (r : list Q) (x : Q) : x <= fold_left Qmax r x.
Proof.
  revert x. induction r as [|y r IH]; intro x; simpl; [apply Qle_refl|].
  apply Qle_trans with (Qmax x y); [apply Q.le_max_l|apply IH].
Qed.

Lemma fold_max_elem (r : list Q) :
  forall x y : Q, In y r -> y <= fold_left Qmax r x.
Proof.
  induction r as [|z r IH]; intros x y Hy; [contradiction|].
  simpl. destruct Hy as [->|Hy]; [|apply IH; exact Hy].
  apply Qle_trans with (Qmax x y); [apply Q.le_max_r|apply fold_max_init].
Qed.



Lemma fold_min_init (r : list Q) (x : Q) : fold_left Qmin r x <= x.
Proof.
  revert x. induction r as [|y r IH]; intro x; simpl; [apply Qle_refl|].
  apply Qle_trans with (Qmin x y); [apply IH|apply Q.le_min_l].
Qed.

Lemma fold_min_elem (r : list Q) :
  forall x y : Q, In y r -> fold_left Qmin r x <= y.
Proof.
  induction r as [|z r IH]; intros x y Hy; [contradiction|].
  simpl. destruct Hy as [->|Hy]; [|apply IH; exact Hy].
  apply Qle_trans with (Qmin x y); [apply fold_min_init|apply Q.le_min_r].
Qed.

Lemma fold_min_glb (r : list Q) (b : Q) :
  forall x : Q, b <= x -> (forall y, In y r -> b <= y) ->
  b <= fold_left Qmin r x.
Proof.
  induction r as [|z r IH]; intros x Hx Hr; [exact Hx|].
  simpl. apply IH.
  - apply Q.min_glb; [exact Hx|apply Hr; left; reflexivity].
  - intros y Hy. apply Hr. right. exact Hy.
Qed.

Lemma max_list_ge (xs : list Q) (e x : Q) : In x xs -> x <= max_list xs e.
Proof.
  destruct xs as [|y r]; [contradiction|]. simpl.
  intros [->|H]; [apply fold_max_init|apply fold_max_elem; exact H].
Qed.



Lemma min_list_le (xs : list Q) (e x : Q) : In x xs -> min_list xs e <= x.
Proof.
  destruct xs as [|y r]; [contradiction|]. simpl.
  intros [->|H]; [apply fold_min_init|apply fold_min_elem; exact H].
Qed.

Lemma min_list_glb (xs : list Q) (e b : Q) :
  b <= e -> (forall x, In x xs -> b <= x) -> b <= min_list xs e.
Proof.
  intros He H. destruct xs as [|y r]; [exact He|]. simpl.
  apply fold_min_glb.
  - apply H. left. reflexivity.
  - intros z Hz. apply H. right. exact Hz.
Qed.


End ExtremaFacts.

(** ** The schedule of a run ([core/mc_forecaster.py]) *)

Module ScheduleFacts.

Import DigitalTwin McForecaster NxFacts CriticalPathFacts ExtremaFacts.






Lemma In_dget_NoDup {V : Type} (d : odict V) (k : string) (v : V) :
  NoDup (dkeys d) -> In (k, v) d -> dget d k = Some v.
Proof.
  induction d as [|[k' v'] d IH]; intros Hnd Hin; [contradiction|].
  simpl in Hnd. inversion Hnd as [|? ? Hk' Hnd']; subst.
  simpl. destruct Hin as [[= -> ->]|Hin].
  - rewrite String.eqb_refl. reflexivity.
  - destruct (String.eqb k k') eqn:E; [|apply IH; assumption].
    apply String.eqb_eq in E. subst. exfalso. apply Hk'.
    unfold dkeys. apply in_map_iff. exists (k', v). split; [reflexivity|].
    exact Hin.
Qed.







(** *** Bounds on the project duration *)






(** *** The project finish is the longest chain *)






End ScheduleFacts.

(** ** The figures of a forecast ([core/mc_forecaster.py]) *)

Module ForecastBoundsFacts.

Import DigitalTwin McForecaster NxFacts NpFacts ExtremaFacts.

(** Counting a duplicate-free critical set raises the tally of its members
    by one and leaves the other tallies alone. *)
Lemma fold_tally_indicator (l : list string) :
  NoDup l ->
  forall (counts : odict Z) (id : string),
  dget (fold_left tally_step l counts) id
  = option_map (fun x => (x + indicator id l)%Z) (dget counts id).
Proof.
  induction 1 as [|a l Ha Hnd IH]; intros counts id.
  - simpl fold_left. unfold indicator. cbn [str_in existsb].
    destruct (dget counts id); cbn [option_map];
      [rewrite Z.add_0_r|]; reflexivity.
  - simpl fold_left. rewrite IH. unfold indicator. cbn [str_in existsb].
    fold (str_in id l).
    destruct (String.eqb_spec id a) as [->|Hne]; cbn [orb].
    + assert (Hout : str_in a l = false) by (apply str_in_false_iff; exact Ha).
      rewrite Hout. unfold tally_step.
      destruct (dget counts a) as [v|] eqn:Ea.
      * rewrite dget_dset_same. cbn [option_map]. f_equal. lia.
      * rewrite Ea. reflexivity.
    + unfold tally_step.
      destruct (dget counts a) as [v|] eqn:Ea; [|reflexivity].
      rewrite dget_dset_other by exact Hne. reflexivity.
Qed.

Lemma indicator_range (id : string) (l : list string) :
  (0 <= indicator id l <= 1)%Z.
Proof. unfold indicator. destruct (str_in id l); lia. Qed.

(** The critical set is returned without repetitions. *)
Lemma critical_activities_NoDup (g : Nx.DiGraph) (durations : odict Q)
    (critical : list string) :
  well_formed g ->
  compute_critical_path_activities g durations = Ret critical ->
  NoDup critical.
Proof.
  intros Hwf. unfold compute_critical_path_activities.
  destruct (Nx.topological_sort g) as [order|e] eqn:E; cbn [bind try_except].
  - destruct (forward_pass g durations order) as [es ef].
    destruct (backward_pass g durations (max_list (dvalues ef) 0) order)
      as [ls lf].
    intros [= <-]. apply NoDup_filter.
    destruct (topological_sort_sound g order Hwf E) as [Hnd _]. exact Hnd.
  - destruct (issubclass e NetworkXError); [|discriminate].
    intros [= <-]. constructor.
Qed.

Lemma sum_bounds (low high : Q) (l : list Q) :
  (forall x, In x l -> low <= x /\ x <= high) ->
  forall acc : Q,
  acc + low * inject_Z (Z.of_nat (List.length l)) <= fold_left Qplus l acc /\
  fold_left Qplus l acc <= acc + high * inject_Z (Z.of_nat (List.length l)).
Proof.
  induction l as [|x l IH]; intros H acc.
  - cbn [fold_left List.length Z.of_nat]. change (inject_Z 0) with 0.
    split; lra.
  - cbn [fold_left List.length]. rewrite Nat2Z.inj_succ. unfold Z.succ.
    rewrite inject_Z_plus.
    destruct (H x (or_introl eq_refl)) as [H1 H2].
    destruct (IH (fun y Hy => H y (or_intror Hy)) (acc + x)) as [H3 H4].
    set (k := inject_Z (Z.of_nat (List.length l))) in *.
    set (total := fold_left Qplus l (acc + x)) in *.
    change (inject_Z 1) with 1. split; nra.
Qed.

Lemma mean_between (l : list Q) :
  l <> [] -> min_list l 0 <= Np.mean l /\ Np.mean l <= max_list l 0.
Proof.
  intro Hne. unfold Np.mean, Np.sum.
  assert (Hlen : 0 < inject_Z (Z.of_nat (List.length l))).
  { destruct l; [congruence|]. simpl List.length.
    change 0 with (inject_Z 0). rewrite <- Zlt_Qlt. lia. }
  destruct (sum_bounds (min_list l 0) (max_list l 0) l) with (acc := 0)
    as [H1 H2].
  { intros x Hx. split; [apply min_list_le|apply max_list_ge]; exact Hx. }
  split.
  - apply Qle_shift_div_l; [exact Hlen|]. lra.
  - apply Qle_shift_div_r; [exact Hlen|]. lra.
Qed.

Lemma percentile_within (l : list Q) (q : Q) :
  l <> [] -> 0 <= q -> q <= 100 ->
  min_list l 0 <= Np.percentile l q /\ Np.percentile l q <= max_list l 0.
Proof.
  intros Hne H0 H100.
  destruct (percentile_between l Hne q H0 H100) as [Hlo Hhi].
  destruct (lower_le_upper_rank l Hne q H0 H100) as [Hle Hlt].
  assert (Hin : forall i, (i < List.length l)%nat ->
            In (order_statistic l i) l).
  { intros i Hi. unfold order_statistic.
    apply (Permutation_in _ (sort_permutation l)).
    apply nth_In. rewrite sort_length. exact Hi. }
  split.
  - apply Qle_trans with (order_statistic l (lower_rank l q)); [|exact Hlo].
    apply min_list_le. apply Hin. lia.
  - apply Qle_trans with (order_statistic l (upper_rank l q)); [exact Hhi|].
    apply max_list_ge. apply Hin. exact Hlt.
Qed.




Section Runs.

Variable rng : Type.
Variable draw_triangular : rng -> Q -> Q -> Q -> Q * rng.
Variable draw_random : rng -> Q * rng.
Variable draw_uniform : rng -> Q -> Q -> Q * rng.
Variable np_sqrt : Q -> Q.
Variable set_iter : list string -> list string.

Local Abbreviation loop :=
  (simulation_loop rng draw_triangular draw_random draw_uniform set_iter).
Local Abbreviation forecast :=
  (monte_carlo_forecast rng draw_triangular draw_random draw_uniform np_sqrt
     set_iter).

(** Each run raises a tally by at most one. *)
Lemma simulation_loop_tallies (twin : DigitalTwin)
    (upm : option (odict UncertaintyParams)) :
  well_formed (graph twin) ->
  (forall l, Permutation l (set_iter l)) ->
  forall (runs : nat) (s s' : rng) (pd0 pd : list Q) (c0 c : odict Z),
  loop runs twin upm s pd0 c0 = Ret (s', pd, c) ->
  forall (id : string) (x : Z),
  dget c id = Some x ->
  exists x0 : Z,
    dget c0 id = Some x0 /\ (x0 <= x <= x0 + Z.of_nat runs)%Z.
Proof.
  intros Hwf Hperm.
  induction runs as [|k IH]; intros s s' pd0 pd c0 c H id x Hx; simpl in H.
  - injection H as <- <- <-. exists x. split; [exact Hx|lia].
  - destruct (simulate_all rng draw_triangular draw_random draw_uniform s
                (activities twin) upm []) as [[sim s1]|e] eqn:Es;
      cbn [bind] in H; [|discriminate].
    destruct (compute_critical_path_length (graph twin) sim) as [y|e] eqn:Ey;
      cbn [bind] in H; [|discriminate].
    destruct (compute_critical_path_activities (graph twin) sim)
      as [crit|e] eqn:Ec; cbn [bind] in H; [|discriminate].
    destruct (IH _ _ _ _ _ _ H id x Hx) as [x1 [Hx1 Hrange]].
    unfold tally in Hx1.
    rewrite <- (DeterminismFacts.fold_tally_permutation _ _ (Hperm crit))
      in Hx1.
    rewrite (fold_tally_indicator crit
               (critical_activities_NoDup _ _ _ Hwf Ec)) in Hx1.
    destruct (dget c0 id) as [x0|]; [|discriminate].
    simpl in Hx1. injection Hx1 as <-.
    pose proof (indicator_range id crit).
    exists x0. split; [reflexivity|lia].
Qed.




(** X10.  In a forecast computed on a well-formed dependency graph, the
    criticality index of every activity lies between 0 and 1, whatever the
    order in which the critical set is iterated, and there is one index per
    activity of the twin. *)
Theorem criticality_index_range (s : rng) (twin : DigitalTwin)
    (num_simulations : nat)
    (uncertainty_params_map : option (odict UncertaintyParams))
    (r : ForecastResult) (s' : rng) :
  well_formed (graph twin) ->
  (forall l, Permutation l (set_iter l)) ->
  forecast s twin num_simulations uncertainty_params_map = Ret (r, s') ->
  dkeys (criticality_indices r) = dkeys (activities twin) /\
  forall (id : string) (v : Q),
    dget (criticality_indices r) id = Some v -> 0 <= v /\ v <= 1.
Proof.
  intros Hwf Hperm. unfold monte_carlo_forecast.
  destruct (loop num_simulations twin uncertainty_params_map s []
              (map (fun id => (id, 0%Z)) (dkeys (activities twin))))
    as [[[s1 sample] tallies]|e] eqn:E; cbn [bind]; [|discriminate].
  destruct (ForecastFacts.simulation_loop_sample rng draw_triangular
              draw_random draw_uniform set_iter twin uncertainty_params_map
              _ _ _ _ _ _ _ (fun x (H : In x []) => match H with end) E)
    as [_ [Hlen Hkeys]].
  destruct sample as [|x0 rest]; [discriminate|].
  simpl in Hlen.
  intros [= <- <-]. cbn [criticality_indices]. split.
  - transitivity (dkeys tallies).
    { unfold dkeys. rewrite map_map. reflexivity. }
    rewrite Hkeys. unfold dkeys. rewrite map_map. simpl. apply map_id.
  - intros id v Hv.
    rewrite (ForecastFacts.dget_map_values
               (fun tally =>
                  inject_Z tally / inject_Z (Z.of_nat num_simulations)))
      in Hv.
    destruct (dget tallies id) as [x|] eqn:Ex; [|discriminate].
    simpl in Hv. injection Hv as <-.
    destruct (simulation_loop_tallies twin uncertainty_params_map Hwf Hperm
                _ _ _ _ _ _ _ E id x Ex) as [z [Hz Hrange]].
    assert (Hz0 : z = 0%Z).
    { clear -Hz. induction (dkeys (activities twin)) as [|k l IH];
        [discriminate|].
      simpl in Hz. destruct (String.eqb id k); [congruence|].
      apply IH. exact Hz. }
    subst z.
    assert (Hn : 0 < inject_Z (Z.of_nat num_simulations)).
    { change 0 with (inject_Z 0). rewrite <- Zlt_Qlt. lia. }
    split.
    + apply Qle_shift_div_l; [exact Hn|].
      rewrite Qmult_0_l. change 0 with (inject_Z 0). rewrite <- Zle_Qle. lia.
    + apply Qle_shift_div_r; [exact Hn|].
      rewrite Qmult_1_l. rewrite <- Zle_Qle. lia.
Qed.

(** X11.  The summary figures of a forecast are consistent with one
    another: the smallest simulated project duration is non-negative and at
    most the mean, the mean is at most the largest, the reported P50 is
    greater than the smallest duration minus one day, and the reported P95
    does not exceed the largest duration. *)
Theorem forecast_figures_consistent (s : rng) (twin : DigitalTwin)
    (num_simulations : nat)
    (uncertainty_params_map : option (odict UncertaintyParams))
    (r : ForecastResult) (s' : rng) :
  forecast s twin num_simulations uncertainty_params_map = Ret (r, s') ->
  0 <= min r /\ min r <= mean r /\ mean r <= max r /\
  min r < inject_Z (p50 r) + 1 /\ inject_Z (p95 r) <= max r.
Proof.
  unfold monte_carlo_forecast.
  destruct (loop num_simulations twin uncertainty_params_map s []
              (map (fun id => (id, 0%Z)) (dkeys (activities twin))))
    as [[[s1 sample] tallies]|e] eqn:E; cbn [bind]; [|discriminate].
  destruct (ForecastFacts.simulation_loop_sample rng draw_triangular
              draw_random draw_uniform set_iter twin uncertainty_params_map
              _ _ _ _ _ _ _ (fun x (H : In x []) => match H with end) E)
    as [Hpos _].
  destruct sample as [|x0 rest] eqn:Esample; [discriminate|].
  rewrite <- Esample in *.
  assert (Hne : sample <> []) by (rewrite Esample; discriminate).
  intros [= <- <-]. cbn [min mean max p50 p95].
  destruct (mean_between sample Hne) as [Hm1 Hm2].
  destruct (percentile_within sample 50 Hne) as [H50 _]; [lra|lra|].
  destruct (percentile_within sample 95 Hne) as [_ H95]; [lra|lra|].
  assert (Hmin : 0 <= min_list sample 0).
  { apply min_list_glb; [apply Qle_refl|exact Hpos]. }
  rewrite !py_int_floor
    by (apply percentile_nonneg; [exact Hne|exact Hpos|lra|lra]).
  split; [exact Hmin|]. split; [exact Hm1|]. split; [exact Hm2|]. split.
  - pose proof (Qlt_floor (Np.percentile sample 50)) as Hf.
    rewrite inject_Z_plus in Hf. change (inject_Z 1) with 1 in Hf. lra.
  - pose proof (Qfloor_le (Np.percentile sample 95)). lra.
Qed.

End Runs.


Lemma criticality_index_range_witness :
  exists (r : ForecastResult) (s' : nat),
    Scenario.chain_forecast Scenario.reverse_order 3 = Ret (r, s') /\
    forall (id : string) (v : Q),
      dget (criticality_indices r) id = Some v -> 0 <= v /\ v <= 1.
Proof.
  destruct (Scenario.chain_forecast Scenario.reverse_order 3)
    as [[r s']|e] eqn:E; [|vm_compute in E; discriminate].
  exists r, s'. split; [reflexivity|].
  apply (criticality_index_range nat Scenario.mode_rng_triangular
           Scenario.mode_rng_random Scenario.mode_rng_uniform
           Scenario.toy_sqrt Scenario.reverse_order 0%nat
           Scenario.chain_twin 3 None r s').
  - apply well_formed_build_graph.
  - intro l. apply Permutation_rev.
  - exact E.
Defined.

Lemma forecast_figures_consistent_witness :
  exists (r : ForecastResult) (s' : nat),
    Scenario.chain_forecast Scenario.insertion_order 3 = Ret (r, s') /\
    min r <= mean r /\ mean r <= max r /\ inject_Z (p95 r) <= max r.
Proof.
  destruct (Scenario.chain_forecast Scenario.insertion_order 3)
    as [[r s']|e] eqn:E; [|vm_compute in E; discriminate].
  exists r, s'. split; [reflexivity|].
  destruct (forecast_figures_consistent nat Scenario.mode_rng_triangular
              Scenario.mode_rng_random Scenario.mode_rng_uniform
              Scenario.toy_sqrt Scenario.insertion_order 0%nat
              Scenario.chain_twin 3 None r s' E)
    as [_ [H1 [H2 [_ H3]]]].
  repeat split; assumption.
Defined.

End ForecastBoundsFacts.

(** ** The rule-based score and the risk factors ([core/risk_model.py]) *)

Module RiskScoreFacts.

Import RiskModel RiskFactors ExtremaFacts.

Lemma normalize_to_0_100_range (v lo hi : Q) :
  0 <= normalize_to_0_100 v lo hi /\ normalize_to_0_100 v lo hi <= 100.
Proof.
  unfold normalize_to_0_100. destruct (Qeq_bool hi lo); [lra|].
  split; minmax_lra.
Qed.

Lemma dependency_score_range (f : Features) :
  0 <= _compute_dependency_score f /\ _compute_dependency_score f <= 100.
Proof.
  unfold _compute_dependency_score. cbv zeta.
  destruct (5 <=? get (predecessor_count f) 0)%Z;
  destruct (3 <=? get (predecessor_count f) 0)%Z;
  destruct (5 <=? get (successor_count f) 0)%Z;
  destruct (3 <=? get (successor_count f) 0)%Z;
  destruct (3 <=? get (downstream_critical_depth f) 0)%Z;
  destruct (1 <=? get (downstream_critical_depth f) 0)%Z;
  split; minmax_lra.
Qed.

Lemma resource_score_range (f : Features) :
  0 <= _compute_resource_overload_score f /\
  _compute_resource_overload_score f <= 100.
Proof.
  unfold _compute_resource_overload_score. cbv zeta.
  match goal with
  | |- context [Qmin 100 (Qmax 0 ?x)] => generalize x
  end.
  intro x. split; minmax_lra.
Qed.

Lemma anomaly_score_range (f : Features) :
  0 <= _compute_anomaly_score f /\ _compute_anomaly_score f <= 100.
Proof.
  unfold _compute_anomaly_score. cbv zeta.
  match goal with
  | |- context [if ?c then _ else _] => destruct c
  end; split; lra.
Qed.

(** Min-max normalisation maps a member of the population into [0, 1]. *)
Lemma normalize_value_range (v : Q) (population : list Q) :
  In v population ->
  0 <= normalize_value v population /\ normalize_value v population <= 1.
Proof.
  intro Hin. unfold normalize_value.
  pose proof (min_list_le population 0 v Hin) as Hlo.
  pose proof (max_list_ge population 0 v Hin) as Hhi.
  destruct population as [|x r]; [contradiction|]. cbv zeta.
  set (lo := min_list (x :: r) 0) in *. set (hi := max_list (x :: r) 0) in *.
  destruct (Qeq_bool hi lo) eqn:E; [split; lra|].
  bool_to_prop.
  assert (Hpos : 0 < hi - lo) by lra.
  split.
  - apply Qle_shift_div_l; [exact Hpos|lra].
  - apply Qle_shift_div_r; [exact Hpos|lra].
Qed.

Ltac weights_as_numbers :=
  change (weight "schedule_delay") with (25 # 100);
  change (weight "progress_slip") with (25 # 100);
  change (weight "risk_register") with (10 # 100);
  change (weight "float_criticality") with (20 # 100);
  change (weight "dependency") with (10 # 100);
  change (weight "resource_overload") with (5 # 100);
  change (weight "anomaly") with (5 # 100).

(** X12.  For an activity that belongs to a project population of more
    than one activity, every min-max normalised component lies in [0, 1]
    and the final clamp of [predict] never acts: the score is 100 times the
    weighted sum of the normalised components. *)
Theorem population_score_unclamped (f : Features) (pfs : list Features) :
  In f pfs -> (1 < List.length pfs)%nat ->
  (forall c : component,
     0 <= normalize_value (raw_score c f) (map (raw_score c) pfs) /\
     normalize_value (raw_score c f) (map (raw_score c) pfs) <= 1) /\
  predict f (Some pfs)
  == 100 * weighted_sum
             (fun c => normalize_value (raw_score c f)
                         (map (raw_score c) pfs)).
Proof.
  intros Hin Hlen.
  assert (Hrange : forall c : component,
     0 <= normalize_value (raw_score c f) (map (raw_score c) pfs) /\
     normalize_value (raw_score c f) (map (raw_score c) pfs) <= 1).
  { intro c. apply normalize_value_range. apply in_map. exact Hin. }
  split; [exact Hrange|].
  unfold predict, has_population.
  apply Nat.ltb_lt in Hlen. rewrite Hlen. cbv beta iota zeta.
  unfold get, weighted_sum. weights_as_numbers.
  RiskModelFacts.fold_raw_scores.
  destruct (Hrange ScheduleDelay). destruct (Hrange ProgressSlip).
  destruct (Hrange RiskRegister). destruct (Hrange FloatCriticality).
  destruct (Hrange Dependency). destruct (Hrange ResourceOverload).
  destruct (Hrange Anomaly).
  set (n1 := normalize_value (raw_score ScheduleDelay f) _) in *.
  set (n2 := normalize_value (raw_score ProgressSlip f) _) in *.
  set (n3 := normalize_value (raw_score RiskRegister f) _) in *.
  set (n4 := normalize_value (raw_score FloatCriticality f) _) in *.
  set (n5 := normalize_value (raw_score Dependency f) _) in *.
  set (n6 := normalize_value (raw_score ResourceOverload f) _) in *.
  set (n7 := normalize_value (raw_score Anomaly f) _) in *.
  clearbody n1 n2 n3 n4 n5 n6 n7.
  match goal with
  | |- Qmax 0 (Qmin 100 ?x) == ?y =>
      assert (E : x == y) by field;
      rewrite (RiskModelFacts.minmax_clamp_compat x y E);
      assert (0 <= y /\ y <= 100) as [Hy0 Hy1] by (split; lra)
  end.
  minmax_lra.
Qed.

(** X13.  For one activity scored on its own, when the progress slip and
    the float score lie in [0, 1] and the risk probability and the expected
    delay are not negative, each of the seven raw component scores lies in
    [0, 100] and the final clamp never acts: the score is the weighted sum
    of the raw scores. *)
Theorem single_score_unclamped (f : Features) :
  0 <= get (progress_slip f) 0 -> get (progress_slip f) 0 <= 1 ->
  0 <= get (float_score f) 0 -> get (float_score f) 0 <= 1 ->
  0 <= get (risk_probability f) 0 -> 0 <= get (expected_delay_days f) 0 ->
  (forall c : component, 0 <= raw_score c f /\ raw_score c f <= 100) /\
  predict f None == weighted_sum (fun c => raw_score c f).
Proof.
  intros Hs0 Hs1 Hf0 Hf1 Hp He.
  assert (Hrange : forall c : component,
            0 <= raw_score c f /\ raw_score c f <= 100).
  { intros [| | | | | |]; simpl raw_score.
    - apply normalize_to_0_100_range.
    - unfold _compute_progress_slip_score. cbv zeta. split; lra.
    - unfold _compute_risk_register_score. cbv zeta.
      pose proof (normalize_to_0_100_range
                    (get (risk_delay_impact_days f) 0) 0 30) as [Hn _].
      split; minmax_lra.
    - unfold _compute_float_criticality_score. cbv zeta.
      pose proof (RiskModelFacts.critical_bonus_range (get (float_score f) 0))
        as [Hb1 Hb2].
      destruct (get (is_on_critical_path f) false); split; minmax_lra.
    - apply dependency_score_range.
    - apply resource_score_range.
    - apply anomaly_score_range. }
  split; [exact Hrange|].
  unfold predict, has_population. cbv beta iota zeta.
  unfold weighted_sum. weights_as_numbers.
  RiskModelFacts.fold_raw_scores.
  destruct (Hrange ScheduleDelay). destruct (Hrange ProgressSlip).
  destruct (Hrange RiskRegister). destruct (Hrange FloatCriticality).
  destruct (Hrange Dependency). destruct (Hrange ResourceOverload).
  destruct (Hrange Anomaly).
  set (r1 := raw_score ScheduleDelay f) in *.
  set (r2 := raw_score ProgressSlip f) in *.
  set (r3 := raw_score RiskRegister f) in *.
  set (r4 := raw_score FloatCriticality f) in *.
  set (r5 := raw_score Dependency f) in *.
  set (r6 := raw_score ResourceOverload f) in *.
  set (r7 := raw_score Anomaly f) in *.
  clearbody r1 r2 r3 r4 r5 r6 r7.
  match goal with
  | |- Qmax 0 (Qmin 100 ?x) == ?y =>
      assert (E : x == y) by field;
      rewrite (RiskModelFacts.minmax_clamp_compat x y E);
      assert (0 <= y /\ y <= 100) as [Hy0 Hy1] by (split; lra)
  end.
  minmax_lra.
Qed.

Lemma population_score_unclamped_witness :
  let late := mkFeatures (Some 15) None None None None None None None None
                None None None None in
  let on_time := mkFeatures (Some 0) None None None None None None None None
                   None None None None in
  predict late (Some [late; on_time])
  == 100 * weighted_sum
             (fun c => normalize_value (raw_score c late)
                         (map (raw_score c) [late; on_time])).
Proof.
  cbv zeta.
  destruct (population_score_unclamped
              (mkFeatures (Some 15) None None None None None None None None
                 None None None None)
              [mkFeatures (Some 15) None None None None None None None None
                 None None None None;
               mkFeatures (Some 0) None None None None None None None None
                 None None None None]) as [_ H];
    [left; reflexivity|simpl; lia|exact H].
Defined.

Lemma single_score_unclamped_witness :
  predict
    (mkFeatures (Some 15) (Some (1 # 2)) (Some 1) (Some true) (Some (1 # 10))
       (Some 3) (Some (3 # 10)) None None None None None None) None
  == weighted_sum
       (fun c =>
          raw_score c
            (mkFeatures (Some 15) (Some (1 # 2)) (Some 1) (Some true)
               (Some (1 # 10)) (Some 3) (Some (3 # 10)) None None None None
               None None)).
Proof.
  destruct (single_score_unclamped
              (mkFeatures (Some 15) (Some (1 # 2)) (Some 1) (Some true)
                 (Some (1 # 10)) (Some 3) (Some (3 # 10)) None None None
                 None None None)) as [_ H];
    [vm_compute; discriminate|vm_compute; discriminate
    |vm_compute; discriminate|vm_compute; discriminate
    |vm_compute; discriminate|vm_compute; discriminate|exact H].
Defined.

(** *** The resource-overload score *)

Lemma clamp_compat (x y : Q) :
  x == y -> Qmin 100 (Qmax 0 x) == Qmin 100 (Qmax 0 y).
Proof. intro H. minmax_lra. Qed.

(** The score as a piecewise-linear function of the FTE ratio. *)
Lemma resource_score_cases (f : Features) :
  let r := get (fte_ratio f) 0 in
  let score := _compute_resource_overload_score f in
  (r <= 0 -> score == 0) /\
  (0 < r -> r <= 7 # 10 -> score == r * (300 # 7)) /\
  (7 # 10 < r -> r <= 9 # 10 -> score == 150 * r - 75) /\
  (9 # 10 < r -> r <= 1 -> score == 400 * r - 300) /\
  (1 < r -> r <= 2 -> score == (r - 1) * 100) /\
  (2 <= r -> score == 100).
Proof.
  cbv zeta. unfold _compute_resource_overload_score. cbv zeta.
  set (r := get (fte_ratio f) 0).
  destruct (Qlt_bool 1 r) eqn:E1;
    [|destruct (Qlt_bool (9 # 10) r) eqn:E2;
      [|destruct (Qlt_bool (7 # 10) r) eqn:E3;
        [|destruct (Qlt_bool 0 r) eqn:E4]]];
    bool_to_prop; repeat split; intros; try lra;
    first
      [ solve [minmax_lra]
      | rewrite (clamp_compat _ (400 * r - 300)) by field; solve [minmax_lra]
      | rewrite (clamp_compat _ (150 * r - 75)) by field; solve [minmax_lra]
      | rewrite (clamp_compat _ (r * (300 # 7))) by field;
        solve [minmax_lra] ].
Qed.

(** X14.  The resource-overload score is piecewise linear in the FTE
    ratio: it climbs to 100 as the ratio reaches 1, falls back to
    [(ratio - 1) * 100] as soon as the ratio exceeds 1, and reaches 100
    again only at a ratio of 2.  A resource over-allocated by less than 60%
    therefore scores lower than one allocated between 90% and 100%. *)
Theorem resource_overload_score_shape (f : Features) :
  let r := get (fte_ratio f) 0 in
  let score := _compute_resource_overload_score f in
  (r <= 0 -> score == 0) /\
  (0 < r -> r <= 7 # 10 -> score == r * (300 # 7)) /\
  (7 # 10 < r -> r <= 9 # 10 -> score == 150 * r - 75) /\
  (9 # 10 < r -> r <= 1 -> score == 400 * r - 300) /\
  (1 < r -> r <= 2 -> score == (r - 1) * 100) /\
  (2 <= r -> score == 100) /\
  (forall g : Features,
     9 # 10 < r -> r <= 1 ->
     1 < get (fte_ratio g) 0 -> get (fte_ratio g) 0 < 16 # 10 ->
     _compute_resource_overload_score g < score).
Proof.
  cbv zeta.
  destruct (resource_score_cases f) as [H1 [H2 [H3 [H4 [H5 H6]]]]].
  cbv zeta in *.
  repeat (split; [assumption|]).
  intros g Hr1 Hr2 Hg1 Hg2.
  destruct (resource_score_cases g) as [_ [_ [_ [_ [G5 _]]]]].
  cbv zeta in G5. rewrite (H4 Hr1 Hr2). rewrite G5 by lra. lra.
Qed.

Lemma resource_overload_score_shape_witness :
  _compute_resource_overload_score
    (mkFeatures None None None None None None None None None None
       (Some 1) None None) == 100 /\
  _compute_resource_overload_score
    (mkFeatures None None None None None None None None None None
       (Some (11 # 10)) None None) == 10.
Proof.
  pose proof (resource_overload_score_shape
                (mkFeatures None None None None None None None None None
                   None (Some 1) None None)) as H1.
  pose proof (resource_overload_score_shape
                (mkFeatures None None None None None None None None None
                   None (Some (11 # 10)) None None)) as H2.
  cbv zeta in H1, H2.
  destruct H1 as [_ [_ [_ [H1 _]]]]. destruct H2 as [_ [_ [_ [_ [H2 _]]]]].
  split.
  - rewrite H1; [reflexivity|reflexivity|discriminate].
  - rewrite H2; [reflexivity|reflexivity|discriminate].
Defined.

(** *** The risk factors *)

Lemma delay_score_formula (f : Features) :
  _compute_schedule_delay_score f
  == Qmax 0 (Qmin 100 (get (delay_baseline_days f) 0 * (10 # 3))).
Proof.
  unfold _compute_schedule_delay_score, normalize_to_0_100. cbv zeta.
  change (Qeq_bool 30 0) with false. cbv iota.
  apply RiskModelFacts.minmax_clamp_compat. field.
Qed.

(** The dictionary of [get_risk_factors], level by level. *)
Lemma risk_factors_levels (f : Features) (float_days : option Q) :
  get_risk_factors f float_days
  = [ ("delay",
       if get (is_on_critical_path f) false
          && Qle_bool (get float_days 999) 2
       then
         if Qle_bool 7 (get (delay_baseline_days f) 0) then "high"
         else if Qle_bool 3 (get (delay_baseline_days f) 0) then "medium"
         else if Qlt_bool 0 (get (delay_baseline_days f) 0) then "medium"
         else "low"
       else if get (is_on_critical_path f) false then
         if Qle_bool 10 (get (delay_baseline_days f) 0) then "high"
         else if Qle_bool 5 (get (delay_baseline_days f) 0) then "medium"
         else "low"
       else
         if Qle_bool 70 (_compute_schedule_delay_score f) then "high"
         else if Qle_bool 40 (_compute_schedule_delay_score f) then "medium"
         else "low");
      ("critical_path",
       if get (is_on_critical_path f) false then
         if Qle_bool (get float_days 999) 2 then "high" else "medium"
       else "low");
      ("resource",
       if Qle_bool 70 (_compute_resource_overload_score f) then "high"
       else if Qle_bool 40 (_compute_resource_overload_score f) then "medium"
       else "low") ].
Proof.
  unfold get_risk_factors. cbv zeta.
  destruct (get (is_on_critical_path f) false);
  destruct (Qle_bool (get float_days 999) 2) eqn:Efloat;
  destruct (Qle_bool 70 (_compute_resource_overload_score f));
  destruct (Qle_bool 40 (_compute_resource_overload_score f));
  cbn [andb];
  repeat match goal with
  | |- context [if ?c then _ else _] => destruct c eqn:?
  end;
  try reflexivity;
  bool_to_prop; exfalso; lra.
Qed.

(** X15.  The delay factor in terms of the delay in days.  On the critical
    path with at most two days of float it is ["high"] from 7 days and
    ["medium"] for any positive delay; on the critical path otherwise
    (also when no float is recorded) it is ["high"] from 10 days and
    ["medium"] from 5; off the critical path it is ["high"] from 21 days
    and ["medium"] from 12. *)
Theorem delay_factor_thresholds (f : Features) (float_days : option Q) :
  let d := get (delay_baseline_days f) 0 in
  let level := dget (get_risk_factors f float_days) "delay" in
  (get (is_on_critical_path f) false = true -> get float_days 999 <= 2 ->
   (level = Some "high" <-> 7 <= d) /\
   (level = Some "medium" <-> 0 < d /\ d < 7) /\
   (level = Some "low" <-> d <= 0)) /\
  (get (is_on_critical_path f) false = true -> 2 < get float_days 999 ->
   (level = Some "high" <-> 10 <= d) /\
   (level = Some "medium" <-> 5 <= d /\ d < 10) /\
   (level = Some "low" <-> d < 5)) /\
  (get (is_on_critical_path f) false = false ->
   (level = Some "high" <-> 21 <= d) /\
   (level = Some "medium" <-> 12 <= d /\ d < 21) /\
   (level = Some "low" <-> d < 12)).
Proof.
  cbv zeta. rewrite risk_factors_levels. cbn [dget String.eqb Ascii.eqb Bool.eqb].
  pose proof (delay_score_formula f) as Hscore.
  set (d := get (delay_baseline_days f) 0) in *.
  set (score := _compute_schedule_delay_score f) in *.
  split; [|split].
  - intros Hc Hf. rewrite Hc. apply Qle_bool_iff in Hf. rewrite Hf.
    cbn [andb].
    destruct (Qle_bool 7 d) eqn:E1;
      [|destruct (Qle_bool 3 d) eqn:E2;
        [|destruct (Qlt_bool 0 d) eqn:E3]];
      bool_to_prop;
      repeat split; intros; try discriminate; try reflexivity; try lra.
  - intros Hc Hf. rewrite Hc. apply Qle_bool_false_iff in Hf. rewrite Hf.
    cbn [andb].
    destruct (Qle_bool 10 d) eqn:E1; [|destruct (Qle_bool 5 d) eqn:E2];
      bool_to_prop;
      repeat split; intros; try discriminate; try reflexivity; try lra.
  - intros Hc. rewrite Hc. cbn [andb].
    destruct (Qle_bool 70 score) eqn:E1;
      [|destruct (Qle_bool 40 score) eqn:E2];
      bool_to_prop; rewrite Hscore in *;
      repeat split; intros; try discriminate; try reflexivity;
      minmax_lra.
Qed.

Lemma delay_factor_thresholds_witness :
  dget (get_risk_factors
          (mkFeatures (Some 8) None None (Some true) None None None None
             None None None None None) (Some 1)) "delay" = Some "high" /\
  dget (get_risk_factors
          (mkFeatures (Some 8) None None (Some true) None None None None
             None None None None None) None) "delay" = Some "medium" /\
  dget (get_risk_factors
          (mkFeatures (Some 8) None None None None None None None
             None None None None None) (Some 1)) "delay" = Some "low".
Proof.
  pose proof (delay_factor_thresholds
                (mkFeatures (Some 8) None None (Some true) None None None
                   None None None None None None) (Some 1)) as H1.
  pose proof (delay_factor_thresholds
                (mkFeatures (Some 8) None None (Some true) None None None
                   None None None None None None) None) as H2.
  pose proof (delay_factor_thresholds
                (mkFeatures (Some 8) None None None None None None
                   None None None None None None) (Some 1)) as H3.
  cbv zeta in H1, H2, H3.
  destruct H1 as [H1 _]. destruct H2 as [_ [H2 _]]. destruct H3 as [_ [_ H3]].
  split; [|split].
  - apply H1; [reflexivity|discriminate|discriminate].
  - apply H2; [reflexivity|reflexivity|split; [discriminate|reflexivity]].
  - apply H3; [reflexivity|reflexivity].
Defined.

(** X16.  [get_risk_factors] always returns the three factors ["delay"],
    ["critical_path"] and ["resource"], in this order.  The critical-path
    factor is ["low"] exactly when the activity is not flagged as critical
    and ["high"] exactly when it is flagged and has at most two days of
    float.  The resource factor is ["high"] for an FTE ratio from 0.93 to 1
    and from 1.71 on, ["medium"] from 0.77 to 0.92 and from 1.41 to 1.69,
    and ["low"] up to 0.76 and above 1 up to 1.39: an over-allocation of up
    to 39% is rated low.  (In exact arithmetic the bands meet at 23/30,
    37/40, 1.4 and 1.7; the statement keeps one hundredth away from these
    points, where the rounding of the score decides.) *)
Theorem risk_factor_levels (f : Features) (float_days : option Q) :
  let factors := get_risk_factors f float_days in
  let r := get (fte_ratio f) 0 in
  dkeys factors = ["delay"; "critical_path"; "resource"] /\
  (dget factors "critical_path" = Some "low" <->
   get (is_on_critical_path f) false = false) /\
  (dget factors "critical_path" = Some "high" <->
   get (is_on_critical_path f) false = true /\ get float_days 999 <= 2) /\
  (93 # 100 <= r -> r <= 1 -> dget factors "resource" = Some "high") /\
  (171 # 100 <= r -> dget factors "resource" = Some "high") /\
  (77 # 100 <= r -> r <= 92 # 100 ->
   dget factors "resource" = Some "medium") /\
  (141 # 100 <= r -> r <= 169 # 100 ->
   dget factors "resource" = Some "medium") /\
  (r <= 76 # 100 -> dget factors "resource" = Some "low") /\
  (1 < r -> r <= 139 # 100 -> dget factors "resource" = Some "low").
Proof.
  cbv zeta. rewrite risk_factors_levels.
  cbn [dkeys map fst dget String.eqb Ascii.eqb Bool.eqb].
  split; [reflexivity|].
  split; [|split].
  - destruct (get (is_on_critical_path f) false);
      [|split; reflexivity].
    destruct (Qle_bool (get float_days 999) 2); split; discriminate.
  - destruct (get (is_on_critical_path f) false).
    + destruct (Qle_bool (get float_days 999) 2) eqn:E; bool_to_prop.
      * split; [intros _; split; [reflexivity|exact E]|reflexivity].
      * split; [discriminate|intros [_ H]; lra].
    + split; [discriminate|intros [H _]; discriminate].
  - destruct (resource_score_cases f) as [H1 [H2 [H3 [H4 [H5 H6]]]]].
    cbv zeta in *.
    set (r := get (fte_ratio f) 0) in *.
    set (score := _compute_resource_overload_score f) in *.
    assert (Hcases : r <= 0 \/ (0 < r /\ r <= 7 # 10) \/
                     (7 # 10 < r /\ r <= 9 # 10) \/
                     (9 # 10 < r /\ r <= 1) \/ (1 < r /\ r <= 2) \/ 2 <= r).
    { destruct (Qlt_le_dec 0 r); [|lra].
      destruct (Qlt_le_dec (7 # 10) r); [|lra].
      destruct (Qlt_le_dec (9 # 10) r); [|lra].
      destruct (Qlt_le_dec 1 r); [|lra].
      destruct (Qlt_le_dec r 2); lra. }
    assert (Hscore :
      (93 # 100 <= r -> r <= 1 -> 70 <= score) /\
      (171 # 100 <= r -> 70 <= score) /\
      (77 # 100 <= r -> r <= 92 # 100 -> 40 <= score /\ score < 70) /\
      (141 # 100 <= r -> r <= 169 # 100 -> 40 <= score /\ score < 70) /\
      (r <= 76 # 100 -> score < 40) /\
      (1 < r -> r <= 139 # 100 -> score < 40)).
    { destruct Hcases as [C|[[C1 C2]|[[C1 C2]|[[C1 C2]|[[C1 C2]|C]]]]].
      - rewrite (H1 C). repeat split; intros; lra.
      - rewrite (H2 C1 C2). repeat split; intros; lra.
      - rewrite (H3 C1 C2). repeat split; intros; lra.
      - rewrite (H4 C1 C2). repeat split; intros; lra.
      - rewrite (H5 C1 C2). repeat split; intros; lra.
      - rewrite (H6 C). repeat split; intros; lra. }
    destruct Hscore as [S1 [S2 [S3 [S4 [S5 S6]]]]].
    destruct (Qle_bool 70 score) eqn:E1;
      [|destruct (Qle_bool 40 score) eqn:E2];
      bool_to_prop; repeat split; intros; try reflexivity; exfalso;
      repeat match goal with
             | H : _ /\ _ |- _ => destruct H
             end;
      first [ pose proof (S1 ltac:(assumption) ltac:(assumption)); lra
            | pose proof (S2 ltac:(assumption)); lra
            | pose proof (S3 ltac:(assumption) ltac:(assumption)); lra
            | pose proof (S4 ltac:(assumption) ltac:(assumption)); lra
            | pose proof (S5 ltac:(assumption)); lra
            | pose proof (S6 ltac:(assumption) ltac:(assumption)); lra ].
Qed.

Lemma risk_factor_levels_witness :
  dget (get_risk_factors
          (RiskModel.mkFeatures None None None None None None None None None
             None (Some (12 # 10)) None None) None) "resource"
  = Some "low".
Proof.
  destruct (risk_factor_levels
              (RiskModel.mkFeatures None None None None None None None None
                 None None (Some (12 # 10)) None None) None)
    as [_ [_ [_ [_ [_ [_ [_ [_ H]]]]]]]].
  apply H; vm_compute; [reflexivity|discriminate].
Defined.

(** *** Float score and float criticality *)

Lemma float_score_cases (d : Q) :
  (d <= 0 -> Features.float_score d == 1) /\
  (0 < d -> d < 5 -> Features.float_score d == 1 - d * (1 # 5)) /\
  (5 <= d -> Features.float_score d == 0).
Proof.
  split; [|split].
  - intro H. unfold Features.float_score. apply Qle_bool_iff in H.
    rewrite H. reflexivity.
  - intros H0 H5. rewrite (FeaturesFacts.float_score_ramp d H0 H5). field.
  - intro H. unfold Features.float_score.
    assert (E1 : Qle_bool d 0 = false) by (apply Qle_bool_false_iff; lra).
    assert (E2 : Qlt_bool d 5 = false) by (apply Qlt_bool_false_iff; exact H).
    rewrite E1, E2, andb_false_r. reflexivity.
Qed.

Lemma float_score_region (d : Q) :
  d <= 0 \/ (0 < d /\ d < 5) \/ 5 <= d.
Proof.
  destruct (Qlt_le_dec 0 d); [|lra]. destruct (Qlt_le_dec d 5); lra.
Qed.

Lemma float_score_range (d : Q) :
  0 <= Features.float_score d /\ Features.float_score d <= 1.
Proof.
  destruct (float_score_cases d) as [H1 [H2 H3]].
  destruct (float_score_region d) as [C|[[C1 C2]|C]].
  - rewrite (H1 C). split; lra.
  - rewrite (H2 C1 C2). split; lra.
  - rewrite (H3 C). split; lra.
Qed.

Lemma float_score_antitone (d1 d2 : Q) :
  d1 <= d2 -> Features.float_score d2 <= Features.float_score d1.
Proof.
  intro H.
  destruct (float_score_cases d1) as [A1 [A2 A3]].
  destruct (float_score_cases d2) as [B1 [B2 B3]].
  destruct (float_score_region d1) as [C|[[C1 C2]|C]];
  destruct (float_score_region d2) as [D|[[D1 D2]|D]];
    try (exfalso; lra).
  - rewrite (A1 C), (B1 D). lra.
  - rewrite (A1 C), (B2 D1 D2). lra.
  - rewrite (A1 C), (B3 D). lra.
  - rewrite (A2 C1 C2), (B2 D1 D2). lra.
  - rewrite (A2 C1 C2), (B3 D). lra.
  - rewrite (A3 C), (B3 D). lra.
Qed.

(** X17.  The float score always lies in [0, 1] and never grows with the
    float; carried into the scorer, the float-criticality component stays
    within [0, 100] and never grows with the float either, for activities
    flagged as critical and for the others alike. *)
Theorem float_criticality_antitone (f1 f2 : Features) (d1 d2 : Q) :
  float_score f1 = Some (Features.float_score d1) ->
  float_score f2 = Some (Features.float_score d2) ->
  is_on_critical_path f1 = is_on_critical_path f2 ->
  d1 <= d2 ->
  Features.float_score d2 <= Features.float_score d1 /\
  0 <= _compute_float_criticality_score f2 /\
  _compute_float_criticality_score f2 <= _compute_float_criticality_score f1 /\
  _compute_float_criticality_score f1 <= 100.
Proof.
  intros E1 E2 Ec Hd.
  pose proof (float_score_antitone d1 d2 Hd) as Hmono.
  pose proof (float_score_range d1) as [Ha1 Hb1].
  pose proof (float_score_range d2) as [Ha2 Hb2].
  split; [exact Hmono|].
  unfold _compute_float_criticality_score. cbv zeta.
  rewrite E1, E2, Ec.
  set (s1 := Features.float_score d1) in *.
  set (s2 := Features.float_score d2) in *.
  change (get (Some s1) 0) with s1. change (get (Some s2) 0) with s2.
  pose proof (RiskModelFacts.critical_bonus_range s1) as [Hb11 Hb12].
  pose proof (RiskModelFacts.critical_bonus_range s2) as [Hb21 Hb22].
  pose proof (RiskModelFacts.critical_bonus_monotone s2 s1 Hmono) as Hbm.
  destruct (get (is_on_critical_path f2) false);
    repeat split; minmax_lra.
Qed.

Lemma float_criticality_antitone_witness :
  _compute_float_criticality_score
    (mkFeatures None None (Some (Features.float_score 4)) (Some true) None
       None None None None None None None None)
  <= _compute_float_criticality_score
       (mkFeatures None None (Some (Features.float_score 1)) (Some true) None
          None None None None None None None None).
Proof.
  destruct (float_criticality_antitone
              (mkFeatures None None (Some (Features.float_score 1))
                 (Some true) None None None None None None None None None)
              (mkFeatures None None (Some (Features.float_score 4))
                 (Some true) None None None None None None None None None)
              1 4) as [_ [_ [H _]]];
    [reflexivity|reflexivity|reflexivity|discriminate|exact H].
Defined.

End RiskScoreFacts.

(** ** The forensic layers ([core/forensic_extractor.py],
    [core/topology_engine.py], [core/forensic_forecast.py]) *)

Module ForensicFacts.

Import DigitalTwin McForecaster UncertaintyModulator ForensicExtractor
  TopologyEngine RiskClustering.

(** The three entries of the cost dictionary. *)
Lemma cost_performance_entries (planned_cost actual_cost_to_date : option Q) :
  let planned := py_or_lit planned_cost 0 in
  let actual := py_or_lit actual_cost_to_date 0 in
  let cpi := if Qlt_bool 0 actual then planned / actual else 1 in
  calculate_cost_performance planned_cost actual_cost_to_date
  = [ ("cpi_trend", cpi);
      ("cost_variance", actual - planned);
      ("risk_event_probability",
       if Qlt_bool cpi (9 # 10) then Qmin (3 # 10) (((9 # 10) - cpi) * 2)
       else 0) ].
Proof. reflexivity. Qed.

Lemma cost_probability_range (planned_cost actual_cost_to_date : option Q) :
  let p := dget_or (calculate_cost_performance planned_cost
                      actual_cost_to_date) "risk_event_probability" 0 in
  0 <= p /\ p <= 3 # 10.
Proof.
  cbv zeta. rewrite cost_performance_entries. cbv zeta.
  match goal with
  | |- context [Qlt_bool ?c (9 # 10)] => set (cpi := c)
  end.
  change (dget_or _ "risk_event_probability" 0)
    with (if Qlt_bool cpi (9 # 10)
          then Qmin (3 # 10) (((9 # 10) - cpi) * 2) else 0).
  destruct (Qlt_bool cpi (9 # 10)) eqn:E; bool_to_prop; split; minmax_lra.
Qed.

(** X18.  The cost signal.  The risk-event probability derived from the
    cost performance index lies between 0 and 0.3; it is 0 exactly when the
    index is at least 0.9 and reaches 0.3 exactly when the index is at most
    0.75.  Without a positive actual cost the index is taken to be 1 and
    the probability is 0; otherwise the index is planned cost over actual
    cost. *)
Theorem cost_performance_signal (planned_cost actual_cost_to_date : option Q) :
  let data := calculate_cost_performance planned_cost actual_cost_to_date in
  let cpi := dget_or data "cpi_trend" 0 in
  let p := dget_or data "risk_event_probability" 0 in
  let actual := py_or_lit actual_cost_to_date 0 in
  (0 <= p /\ p <= 3 # 10) /\
  (p == 0 <-> 9 # 10 <= cpi) /\
  (p == 3 # 10 <-> cpi <= 3 # 4) /\
  (actual <= 0 -> cpi == 1 /\ p == 0) /\
  (0 < actual -> cpi == py_or_lit planned_cost 0 / actual).
Proof.
  cbv zeta. split; [apply cost_probability_range|].
  rewrite cost_performance_entries. cbv zeta.
  set (planned := py_or_lit planned_cost 0).
  set (actual := py_or_lit actual_cost_to_date 0).
  set (cpi := if Qlt_bool 0 actual then planned / actual else 1).
  change (dget_or _ "cpi_trend" 0) with cpi.
  change (dget_or _ "risk_event_probability" 0)
    with (if Qlt_bool cpi (9 # 10)
          then Qmin (3 # 10) (((9 # 10) - cpi) * 2) else 0).
  assert (Hcpi : actual <= 0 -> cpi == 1).
  { intro H. unfold cpi. apply Qlt_bool_false_iff in H. rewrite H.
    reflexivity. }
  assert (Hcpi' : 0 < actual -> cpi == planned / actual).
  { intro H. unfold cpi. apply Qlt_bool_iff in H. rewrite H. reflexivity. }
  clearbody cpi.
  destruct (Qlt_bool cpi (9 # 10)) eqn:E; bool_to_prop.
  - split; [split; intro; minmax_lra|].
    split; [split; intro; minmax_lra|].
    split; [intro H; specialize (Hcpi H); lra|exact Hcpi'].
  - split; [split; intro; lra|].
    split; [split; intro; lra|].
    split; [intro H; split; [exact (Hcpi H)|reflexivity]|exact Hcpi'].
Qed.

(** The entries of the archetype table stay within these bounds. *)
Lemma archetype_bounds (cluster : Z) :
  let archetype := get_risk_archetype_characteristics cluster in
  (5 # 100 <= dget_or archetype "failure_probability" 0 /\
   dget_or archetype "failure_probability" 0 <= 1 # 2) /\
  (1 <= dget_or archetype "variance_multiplier" 1 /\
   dget_or archetype "variance_multiplier" 1 <= 2) /\
  (0 <= dget_or archetype "mode_shift_factor" 0 /\
   dget_or archetype "mode_shift_factor" 0 <= 3 # 10).
Proof.
  cbv zeta.
  destruct cluster as [|[[p|p|]|[p|p|]|]|p]; vm_compute;
    repeat split; discriminate.
Qed.

Section Pipeline.

Variable rng : Type.
Variable draw_triangular : rng -> Q -> Q -> Q -> Q * rng.
Variable draw_random : rng -> Q * rng.
Variable draw_uniform : rng -> Q -> Q -> Q * rng.

Local Abbreviation simulate_forensic :=
  (simulate_activity_duration_forensic rng draw_triangular draw_random
     draw_uniform).

(** X19.  From the extractor through the modulator to the sampler, for an
    activity with a positive baseline duration, an archetype of the table
    and no topology or skill input: the triangle is centred on the starting
    duration times (planned / baseline + archetype shift), the failure
    probability lies between 0.05 and 0.5 and the variance multiplier
    between 1 and 2.  When the planned duration is missing and the archetype
    is the base one, the mode is 0 and sampling raises [ValueError]. *)
Theorem forensic_parameters_from_extractor (s : rng) (a : Activity)
    (planned_cost actual_cost_to_date : option Q) (cluster : Z) (n : nat)
    (b : Q) :
  given (baseline_duration a) b ->
  let features :=
    extract_forensic_features a planned_cost actual_cost_to_date in
  let archetype := get_risk_archetype_characteristics cluster in
  exists up : UncertaintyParams,
    modulate_uncertainty a features archetype [] (mkSkillAnalysis None)
      = Ret up /\
    modulated_mode up
    == starting_duration a
       * (py_or_lit (planned_duration a) 0 / b
          + dget_or archetype "mode_shift_factor" 0) /\
    (5 # 100 <= failure_probability up /\ failure_probability up <= 1 # 2) /\
    (1 <= variance_multiplier up /\ variance_multiplier up <= 2) /\
    (missing (planned_duration a) -> cluster = 0%Z ->
     simulate_forensic s up n = Raise ValueError).
Proof.
  intros Hb. cbv zeta.
  destruct (archetype_bounds cluster) as [[Hf1 Hf2] [[Hv1 Hv2] [Hm1 Hm2]]].
  cbv zeta in *.
  destruct (cost_probability_range planned_cost actual_cost_to_date)
    as [Hc1 Hc2].
  cbv zeta in *.
  eexists. split; [reflexivity|].
  pose proof (UncertaintyModulatorFacts.py_or_lit_given _ _ 0 Hb) as Eb.
  destruct Hb as [_ Hbpos].
  assert (Hdrift :
    nested_get
      (extract_forensic_features a planned_cost actual_cost_to_date)
      "drift_velocity" "mode_shift_factor"
    == py_or_lit (planned_duration a) 0 / b - 1).
  { change (nested_get _ "drift_velocity" "mode_shift_factor")
      with (if Qlt_bool 0 (py_or_lit (baseline_duration a) 0)
            then (py_or_lit (planned_duration a) 0
                  - py_or_lit (baseline_duration a) 0)
                 / py_or_lit (baseline_duration a) 0
            else 0).
    rewrite Eb. apply Qlt_bool_iff in Hbpos. rewrite Hbpos.
    apply Qlt_bool_iff in Hbpos. field. lra. }
  assert (Hmode : forall shift,
    modulated_mode
      (mkUncertaintyParams
         (nested_get
            (extract_forensic_features a planned_cost actual_cost_to_date)
            "drift_velocity" "mode_shift_factor" + shift)
         (1 * 1 * dget_or (get_risk_archetype_characteristics cluster)
                    "variance_multiplier" 1)
         (Qmax (dget_or (get_risk_archetype_characteristics cluster)
                  "failure_probability" 0)
               (nested_get
                  (extract_forensic_features a planned_cost
                     actual_cost_to_date)
                  "cost_performance" "risk_event_probability"))
         (starting_duration a))
    == starting_duration a * (py_or_lit (planned_duration a) 0 / b + shift)).
  { intro shift. unfold modulated_mode, forensic_shape.
    cbn [base_duration mode_shift_factor fst snd]. rewrite Hdrift. ring. }
  split; [apply Hmode|].
  cbn [failure_probability variance_multiplier].
  change (dget_or
            match variance_increase_map (mkSkillAnalysis None) with
            | Some m => m
            | None => []
            end (activity_id a) 1) with 1.
  change (dget_or [] "variance_multiplier" 1) with 1.
  change (nested_get _ "cost_performance" "risk_event_probability")
    with (dget_or (calculate_cost_performance planned_cost
                     actual_cost_to_date) "risk_event_probability" 0).
  split; [split; minmax_lra|].
  split; [split; lra|].
  intros Hmissing ->.
  apply (SamplingFacts.forensic_sampling_cases rng draw_triangular
           draw_random draw_uniform s _ n).
  left. rewrite Hmode.
  rewrite (UncertaintyModulatorFacts.py_or_lit_missing _ 0 Hmissing).
  change (dget_or (get_risk_archetype_characteristics 0)
            "mode_shift_factor" 0) with 0.
  assert (E : starting_duration a * (0 / b + 0) == 0) by (field; lra).
  rewrite E. reflexivity.
Qed.

End Pipeline.

Lemma forensic_parameters_from_extractor_witness :
  exists up : UncertaintyParams,
    modulate_uncertainty (Scenario.baseline_only "A" 7)
      (extract_forensic_features (Scenario.baseline_only "A" 7) None None)
      (get_risk_archetype_characteristics 0) [] (mkSkillAnalysis None)
    = Ret up /\
    simulate_activity_duration_forensic nat Scenario.mode_rng_triangular
      Scenario.mode_rng_random Scenario.mode_rng_uniform 0%nat up 3
    = Raise ValueError.
Proof.
  destruct (forensic_parameters_from_extractor nat
              Scenario.mode_rng_triangular Scenario.mode_rng_random
              Scenario.mode_rng_uniform 0%nat (Scenario.baseline_only "A" 7)
              None None 0%Z 3 7) as [up [Hret [_ [_ [_ Hraise]]]]].
  - split; reflexivity.
  - exists up. split; [exact Hret|]. apply Hraise; reflexivity.
Defined.

End ForensicFacts.

(** ** Topology metrics ([core/topology_engine.py]) and their use in the
    forensic forecast ([core/forensic_forecast.py]) *)

Module TopologyFacts.

Import DigitalTwin McForecaster UncertaintyModulator TopologyEngine.

Lemma fold_dset_lookup {V : Type} (f : string -> V) (l : list string) :
  forall (d0 : odict V) (k : string),
  dget (fold_left (fun d id => dset d id (f id)) l d0) k
  = if str_in k l then Some (f k) else dget d0 k.
Proof.
  induction l as [|a l IH]; intros d0 k; [reflexivity|].
  simpl fold_left. rewrite IH. cbn [str_in existsb]. fold (str_in k l).
  destruct (String.eqb_spec k a) as [->|Hne]; cbn [orb].
  - rewrite dget_dset_same. destruct (str_in a l); reflexivity.
  - rewrite dget_dset_other by exact Hne. reflexivity.
Qed.

Lemma fold_dset_keys {V : Type} (f : string -> V) (l : list string) :
  forall d0 : odict V,
  NoDup (dkeys d0 ++ l) ->
  dkeys (fold_left (fun d id => dset d id (f id)) l d0) = dkeys d0 ++ l.
Proof.
  induction l as [|a l IH]; intros d0 Hnd; simpl.
  - rewrite app_nil_r. reflexivity.
  - assert (Ha : ~ In a (dkeys d0)).
    { apply NoDup_remove_2 in Hnd. intro H. apply Hnd.
      apply in_or_app. left. exact H. }
    rewrite IH; rewrite (dkeys_dset_absent d0 a (f a) Ha).
    + rewrite <- app_assoc. reflexivity.
    + rewrite <- app_assoc. exact Hnd.
Qed.

Section Centrality.

Variable betweenness_centrality : Nx.DiGraph -> outcome (odict Q).
Variable eigenvector_centrality : Nx.DiGraph -> outcome (odict Q).

Local Abbreviation metrics_of :=
  (calculate_topology_metrics betweenness_centrality eigenvector_centrality).

(** The entry stored for an activity, or nothing for an unknown id. *)
Lemma topology_metrics_lookup (twin : DigitalTwin) (id : string) :
  dget (metrics_of twin) id
  = if str_in id (dkeys (activities twin))
    then Some (activity_metrics
                 (dget_or (try_except_all
                             (betweenness_centrality (graph twin)) []) id 0)
                 (dget_or (try_except_all
                             (eigenvector_centrality (graph twin)) []) id 0))
    else None.
Proof.
  unfold calculate_topology_metrics. cbv zeta.
  apply (fold_dset_lookup
           (fun id =>
              activity_metrics
                (dget_or (try_except_all
                            (betweenness_centrality (graph twin)) []) id 0)
                (dget_or (try_except_all
                            (eigenvector_centrality (graph twin)) []) id 0))).
Qed.

(** X20.  [calculate_topology_metrics] stores one entry per activity of the
    twin, computed from the two centralities of the activity (0 for an
    activity the library result does not list); with centralities in
    [0, 1] the stored variance multiplier lies in [1, 1.5]; and when both
    library calls fail, every activity gets centralities 0 and the
    multiplier 1. *)
Theorem topology_metrics_values (twin : DigitalTwin) :
  let metrics := metrics_of twin in
  (NoDup (dkeys (activities twin)) ->
   dkeys metrics = dkeys (activities twin)) /\
  (forall id : string,
     In id (dkeys (activities twin)) ->
     dget metrics id
     = Some (activity_metrics
               (dget_or (try_except_all
                           (betweenness_centrality (graph twin)) []) id 0)
               (dget_or (try_except_all
                           (eigenvector_centrality (graph twin)) []) id 0))) /\
  (forall id : string,
     ~ In id (dkeys (activities twin)) -> dget metrics id = None) /\
  (forall bet eig : Q,
     0 <= bet -> bet <= 1 -> 0 <= eig -> eig <= 1 ->
     exists v : Q,
       dget (activity_metrics bet eig) "variance_multiplier" = Some (VNum v) /\
       1 <= v /\ v <= 3 # 2) /\
  (forall (e1 e2 : exn_class) (id : string),
     betweenness_centrality (graph twin) = Raise e1 ->
     eigenvector_centrality (graph twin) = Raise e2 ->
     In id (dkeys (activities twin)) ->
     dget metrics id = Some (activity_metrics 0 0) /\
     exists v : Q,
       dget (activity_metrics 0 0) "variance_multiplier" = Some (VNum v) /\
       v == 1).
Proof.
  cbv zeta. split; [|split; [|split; [|split]]].
  - intro Hnd. unfold calculate_topology_metrics. cbv zeta.
    rewrite fold_dset_keys; [reflexivity|exact Hnd].
  - intros id Hid. rewrite topology_metrics_lookup.
    apply str_in_iff in Hid. rewrite Hid. reflexivity.
  - intros id Hid. rewrite topology_metrics_lookup.
    apply str_in_false_iff in Hid. rewrite Hid. reflexivity.
  - intros bet eig Hb0 Hb1 He0 He1.
    exists (1 + (bet * (7 # 10) + eig * (3 # 10)) * (5 # 10)).
    split; [reflexivity|]. split; lra.
  - intros e1 e2 id H1 H2 Hid. rewrite topology_metrics_lookup.
    apply str_in_iff in Hid. rewrite Hid, H1, H2.
    split; [reflexivity|].
    eexists. split; reflexivity.
Qed.

(** X21.  The forensic forecast hands [modulate_uncertainty] the metrics
    dictionary of the single activity where the modulator expects the
    dictionary of all activities.  The modulator looks the activity id up
    in it, finds nothing, and uses a topology multiplier of 1: the variance
    multiplier it returns is the product of the skill and archetype
    multipliers only, whatever the centralities.  For an activity whose id
    is itself the name of a metric, the lookup finds a number and the call
    raises [AttributeError]. *)
Theorem topology_multiplier_not_applied (twin : DigitalTwin) (a : Activity)
    (features : odict pyval) (archetype : odict Q)
    (skill_analysis : SkillAnalysis) :
  let topology := dget_or (metrics_of twin) (activity_id a) [] in
  (activity_id a <> "betweenness_centrality" ->
   activity_id a <> "eigenvector_centrality" ->
   activity_id a <> "variance_multiplier" ->
   exists up : UncertaintyParams,
     modulate_uncertainty a features archetype topology skill_analysis
       = Ret up /\
     variance_multiplier up
     = dget_or (match variance_increase_map skill_analysis with
                | Some m => m
                | None => []
                end) (activity_id a) 1
       * 1 * dget_or archetype "variance_multiplier" 1) /\
  (In (activity_id a) (dkeys (activities twin)) ->
   activity_id a = "betweenness_centrality" \/
   activity_id a = "eigenvector_centrality" \/
   activity_id a = "variance_multiplier" ->
   modulate_uncertainty a features archetype topology skill_analysis
     = Raise AttributeError).
Proof.
  cbv zeta. split.
  - intros H1 H2 H3. unfold dget_or at 1. rewrite topology_metrics_lookup.
    apply String.eqb_neq in H1. apply String.eqb_neq in H2.
    apply String.eqb_neq in H3.
    assert (Hmiss : forall t : odict pyval,
              t = [] \/ (exists bet eig, t = activity_metrics bet eig) ->
              dget_or t (activity_id a) (VDict []) = VDict []).
    { intros t [->|[bet [eig ->]]]; [reflexivity|].
      unfold dget_or, activity_metrics. cbv zeta. cbn [dget].
      rewrite H1, H2, H3. reflexivity. }
    unfold modulate_uncertainty. cbv zeta. rewrite Hmiss.
    + eexists. split; reflexivity.
    + destruct (str_in (activity_id a) (dkeys (activities twin)));
        [right; eexists; eexists; reflexivity|left; reflexivity].
  - intros Hin Hname. unfold dget_or at 1. rewrite topology_metrics_lookup.
    apply str_in_iff in Hin. rewrite Hin.
    unfold modulate_uncertainty. cbv zeta.
    destruct Hname as [E|[E|E]]; rewrite E; reflexivity.
Qed.

End Centrality.

Lemma topology_multiplier_not_applied_witness :
  exists up : UncertaintyParams,
    modulate_uncertainty (Scenario.task "B" ["A"] 3) []
      (RiskClustering.get_risk_archetype_characteristics 0)
      (dget_or
         (calculate_topology_metrics
            (fun _ => Ret [("A", 0); ("B", 1)])
            (fun _ => Ret [("A", 1 # 2); ("B", 1)])
            Scenario.chain_twin) "B" [])
      (mkSkillAnalysis None)
    = Ret up /\
    variance_multiplier up == 1.
Proof.
  destruct (topology_multiplier_not_applied
              (fun _ => Ret [("A", 0); ("B", 1)])
              (fun _ => Ret [("A", 1 # 2); ("B", 1)])
              Scenario.chain_twin (Scenario.task "B" ["A"] 3) []
              (RiskClustering.get_risk_archetype_characteristics 0)
              (mkSkillAnalysis None)) as [H _].
  destruct H as [up [Hret Hv]]; [discriminate|discriminate|discriminate|].
  exists up. split; [exact Hret|]. rewrite Hv. reflexivity.
Defined.

End TopologyFacts.

(** ** Skill tags and skill bottlenecks ([core/skill_analyzer.py]) *)

Module SkillTagFacts.

Import SkillAnalyzer.

Lemma lower_char_idempotent (c : ascii) :
  lower_char (lower_char c) = lower_char c.
Proof.
  destruct c as [[] [] [] [] [] [] [] []]; reflexivity.
Qed.

Lemma lower_idempotent (s : string) : lower (lower s) = lower s.
Proof.
  induction s as [|c r IH]; [reflexivity|].
  simpl. rewrite lower_char_idempotent, IH. reflexivity.
Qed.

Lemma lower_empty (s : string) : lower s = EmptyString -> s = EmptyString.
Proof. destruct s; [reflexivity|discriminate]. Qed.

Lemma lstrip_first (s : string) :
  strip_nonempty s = true ->
  exists c r, lstrip s = String c r /\ is_space c = false.
Proof.
  induction s as [|c r IH]; [discriminate|].
  simpl. destruct (is_space c) eqn:E; simpl.
  - exact IH.
  - intros _. exists c, r. split; [reflexivity|exact E].
Qed.

Lemma lstrip_blank (s : string) :
  strip_nonempty s = false -> lstrip s = EmptyString.
Proof.
  induction s as [|c r IH]; [reflexivity|].
  simpl. destruct (is_space c); simpl; [exact IH|discriminate].
Qed.

Lemma rstrip_keeps (c : ascii) (r : string) :
  is_space c = false -> rstrip (String c r) <> EmptyString.
Proof.
  intro H. simpl. destruct (rstrip r); [rewrite H|]; discriminate.
Qed.

Lemma strip_nonblank (s : string) :
  strip_nonempty s = true -> strip s <> EmptyString.
Proof.
  intro H. unfold strip. destruct (lstrip_first s H) as [c [r [-> Hc]]].
  apply rstrip_keeps. exact Hc.
Qed.

Lemma strip_blank (s : string) :
  strip_nonempty s = false -> strip s = EmptyString.
Proof. intro H. unfold strip. rewrite (lstrip_blank s H). reflexivity. Qed.

(** A string of white space contains no separator. *)
Lemma blank_has_no_separator (sep : ascii) (s : string) :
  is_space sep = false -> strip_nonempty s = false ->
  contains_char sep s = false.
Proof.
  intros Hsep. unfold contains_char.
  induction s as [|c r IH]; [reflexivity|].
  simpl. destruct (is_space c) eqn:Ec; simpl; [|discriminate].
  intro H. rewrite (IH H), orb_false_r.
  destruct (Ascii.eqb_spec sep c) as [->|]; [congruence|reflexivity].
Qed.

(** X22.  [parse_skill_tags] returns no tag for a missing or empty string
    and at least one tag for any other string; every tag is in lower case;
    when the string has a character that is not white space no tag is
    empty, while a non-empty string of white space yields the single empty
    tag. *)
Theorem parse_skill_tags_shape :
  parse_skill_tags None = [] /\
  parse_skill_tags (Some EmptyString) = [] /\
  (forall c r, parse_skill_tags (Some (String c r)) <> []) /\
  (forall s t, In t (parse_skill_tags s) -> lower t = t) /\
  (forall s t,
     strip_nonempty s = true -> In t (parse_skill_tags (Some s)) ->
     t <> EmptyString) /\
  (forall c r,
     strip_nonempty (String c r) = false ->
     parse_skill_tags (Some (String c r)) = [EmptyString]).
Proof.
  assert (Hpieces : forall sep s t,
            In t (map (fun x => lower (strip x))
                      (filter strip_nonempty (split_on sep s))) ->
            lower t = t /\ t <> EmptyString).
  { intros sep s t H. apply in_map_iff in H. destruct H as [x [<- Hx]].
    apply filter_In in Hx. destruct Hx as [_ Hx].
    split; [apply lower_idempotent|].
    intro E. apply lower_empty in E. exact (strip_nonblank x Hx E). }
  split; [reflexivity|]. split; [reflexivity|].
  split; [|split; [|split]].
  - intros c r. unfold parse_skill_tags.
    match goal with
    | |- match ?skills with [] => _ | _ :: _ => _ end <> [] =>
        destruct skills; discriminate
    end.
  - intros [[|c r]|] t; [contradiction| |contradiction].
    unfold parse_skill_tags.
    destruct (contains_char ";" (String c r)).
    + destruct (map _ (filter strip_nonempty (split_on ";" (String c r))))
        as [|x l] eqn:E.
      * intros [<-|[]]. apply lower_idempotent.
      * intro H. rewrite <- E in H. apply (Hpieces _ _ _ H).
    + destruct (contains_char "," (String c r)).
      * destruct (map _ (filter strip_nonempty (split_on "," (String c r))))
          as [|x l] eqn:E.
        -- intros [<-|[]]. apply lower_idempotent.
        -- intro H. rewrite <- E in H. apply (Hpieces _ _ _ H).
      * intros [<-|[]]. apply lower_idempotent.
  - intros [|c r] t Hs; [discriminate|].
    assert (Hwhole : lower (strip (String c r)) <> EmptyString).
    { intro E. apply lower_empty in E. exact (strip_nonblank _ Hs E). }
    unfold parse_skill_tags.
    destruct (contains_char ";" (String c r)).
    + destruct (map _ (filter strip_nonempty (split_on ";" (String c r))))
        as [|x l] eqn:E.
      * intros [<-|[]]. exact Hwhole.
      * intro H. rewrite <- E in H. apply (Hpieces _ _ _ H).
    + destruct (contains_char "," (String c r)).
      * destruct (map _ (filter strip_nonempty (split_on "," (String c r))))
          as [|x l] eqn:E.
        -- intros [<-|[]]. exact Hwhole.
        -- intro H. rewrite <- E in H. apply (Hpieces _ _ _ H).
      * intros [<-|[]]. exact Hwhole.
  - intros c r Hs. unfold parse_skill_tags.
    rewrite (blank_has_no_separator ";" _ eq_refl Hs).
    rewrite (blank_has_no_separator "," _ eq_refl Hs).
    rewrite (strip_blank _ Hs). reflexivity.
Qed.

End SkillTagFacts.

Module SkillBottleneckFacts.

Import SkillAnalyzer SkillLookup SkillFacts.

Lemma multiplier_for_range (k : nat) :
  (1 <= k)%nat -> 12 # 10 <= multiplier_for k /\ multiplier_for k <= 2.
Proof.
  intro Hk. unfold multiplier_for.
  assert (H1 : 1 <= inject_Z (Z.of_nat k)).
  { change 1 with (inject_Z 1). rewrite <- Zle_Qle. lia. }
  split; minmax_lra.
Qed.

Lemma round_half_even_ge (x : Q) (n : Z) :
  inject_Z n <= x -> (n <= round_half_even x)%Z.
Proof.
  intro H. pose proof (Qfloor_resp_le _ _ H) as Hf.
  rewrite Qfloor_Z in Hf. unfold round_half_even. cbv zeta.
  destruct (Qcompare (x - inject_Z (Qfloor x)) (1 # 2));
    [destruct (Z.even (Qfloor x))| |]; lia.
Qed.

Lemma py_or_lit_nonzero (x : option Q) (d : Q) :
  ~ d == 0 -> ~ py_or_lit x d == 0.
Proof.
  intro Hd. unfold py_or_lit. destruct x as [q|]; [|exact Hd].
  destruct (Qeq_bool q 0) eqn:E; [exact Hd|].
  apply Qeq_bool_false_iff. exact E.
Qed.

(** Widening the window to the left and to the right. *)
Lemma hull_start (p w : pdate) (earlier : bool) :
  date_lt p w = Ret earlier ->
  let w' := if earlier then p else w in
  not_after w' p /\ (forall x, not_after w x -> not_after w' x) /\
  (w' = p \/ w' = w).
Proof.
  destruct p as [x|], w as [y|]; simpl; try discriminate.
  - intros [= <-]. destruct (x <? y)%Z eqn:E; simpl.
    + apply Z.ltb_lt in E. split; [lia|]. split; [|left; reflexivity].
      intros [z|]; simpl; [lia|contradiction].
    + apply Z.ltb_ge in E. split; [lia|]. split; [|right; reflexivity].
      intros z H. exact H.
  - intros [= <-]. simpl. split; [exact I|]. split; [|left; reflexivity].
    intros z H. exact H.
Qed.

Lemma hull_end (p w : pdate) (later : bool) :
  date_lt w p = Ret later ->
  let w' := if later then p else w in
  not_after p w' /\ (forall x, not_after x w -> not_after x w') /\
  (w' = p \/ w' = w).
Proof.
  destruct p as [x|], w as [y|]; simpl; try discriminate.
  - intros [= <-]. destruct (y <? x)%Z eqn:E; simpl.
    + apply Z.ltb_lt in E. split; [lia|]. split; [|left; reflexivity].
      intros [z|]; simpl; [lia|contradiction].
    + apply Z.ltb_ge in E. split; [lia|]. split; [|right; reflexivity].
      intros z H. exact H.
  - intros [= <-]. simpl. split; [exact I|]. split; [|left; reflexivity].
    intros z H. exact H.
Qed.

Lemma not_after_refl (p : pdate) : not_after p p.
Proof. destruct p; simpl; [lia|exact I]. Qed.

(** Recording one more contribution keeps every entry sound. *)
Lemma record_skill_entries (a : Activity) (resource : string) (ps pf : pdate)
    (fte mx : Q) (d d' : demand_dict) (s : string) :
  record_skill a resource ps pf fte mx d s = Ret d' ->
  ~ mx == 0 ->
  (forall k e, In (k, e) d -> sound_entry e) ->
  forall k e, In (k, e) d' -> sound_entry e.
Proof.
  intros Hret Hmx H k e Hin.
  destruct (record_skill_returns _ _ _ _ _ _ _ _ _ Hret)
    as [earlier [later [Hs [Hf ->]]]].
  apply In_demand_set in Hin. destruct Hin as [Hin| ->]; [apply (H k e Hin)|].
  unfold sound_entry.
  cbn [demand_activities time_window_start time_window_end max_fte].
  destruct (demand_get d (s, resource)) as [e0|] eqn:E.
  - destruct (H _ _ (demand_get_In _ _ _ E))
      as [Hne [Hcover [[d1 [Hd1 Es]] [[d2 [Hd2 Ef]] Hmax]]]].
    destruct (hull_start _ _ _ Hs) as [S1 [S2 S3]].
    destruct (hull_end _ _ _ Hf) as [F1 [F2 F3]].
    cbv zeta in S1, S2, S3, F1, F2, F3.
    split; [destruct (demand_activities e0); discriminate|].
    split; [|split; [|split; [|exact Hmax]]].
    + intros x Hx. apply in_app_or in Hx.
      destruct Hx as [Hx|[<-|[]]].
      * destruct (Hcover x Hx). split; [apply S2|apply F2]; assumption.
      * cbn [detail_start detail_finish]. split; assumption.
    + destruct S3 as [S3|S3]; rewrite S3.
      * eexists. split; [apply in_or_app; right; left; reflexivity|].
        reflexivity.
      * exists d1. split; [apply in_or_app; left; exact Hd1|exact Es].
    + destruct F3 as [F3|F3]; rewrite F3.
      * eexists. split; [apply in_or_app; right; left; reflexivity|].
        reflexivity.
      * exists d2. split; [apply in_or_app; left; exact Hd2|exact Ef].
  - cbn [demand_activities time_window_start time_window_end max_fte app]
      in *.
    destruct (hull_start _ _ _ Hs) as [_ [_ S3]].
    destruct (hull_end _ _ _ Hf) as [_ [_ F3]].
    cbv zeta in S3, F3.
    assert (S4 : (if earlier then ps else ps) = ps) by (destruct earlier; reflexivity).
    assert (F4 : (if later then pf else pf) = pf) by (destruct later; reflexivity).
    rewrite S4, F4.
    split; [discriminate|].
    split; [|split; [|split; [|exact Hmx]]].
    + intros x [<-|[]]. cbn [detail_start detail_finish].
      split; apply not_after_refl.
    + eexists. split; [left; reflexivity|reflexivity].
    + eexists. split; [left; reflexivity|reflexivity].
Qed.

Section Dates.

Variable to_datetime : string -> option pdate.

Lemma recorded_sound (evs : list ((string * string) * Activity)) :
  forall d : demand_dict,
  for_each (record_demand to_datetime) evs [] = Ret d ->
  forall k e, In (k, e) d -> sound_entry e.
Proof.
  induction evs as [|ev evs IH] using rev_ind; intros d H.
  - injection H as <-. intros k e [].
  - rewrite for_each_app in H.
    destruct (for_each (record_demand to_datetime) evs []) as [d1|e1] eqn:E1;
      cbn [bind] in H; [|discriminate].
    specialize (IH d1 eq_refl). cbn [for_each] in H.
    destruct (record_demand to_datetime d1 ev) as [d2|e2] eqn:E2;
      cbn [bind] in H; [|discriminate].
    injection H as <-. unfold record_demand in E2.
    destruct (_parse_date to_datetime (planned_start (snd ev))) as [ps|];
      [|injection E2 as <-; exact IH].
    destruct (_parse_date to_datetime (planned_finish (snd ev))) as [pf|];
      [|injection E2 as <-; exact IH].
    apply (record_skill_entries _ _ _ _ _ _ _ _ _ E2); [|exact IH].
    apply py_or_lit_nonzero. discriminate.
Qed.

Lemma build_skill_demand_entries (acts : list Activity)
    (demand : demand_dict) :
  build_skill_demand to_datetime acts = Ret demand ->
  forall k e, In (k, e) demand -> sound_entry e.
Proof.
  rewrite build_skill_demand_as_demands. apply recorded_sound.
Qed.

Lemma pair_capacity_nonzero (acts : list Activity) (s r : string) :
  ~ pair_capacity to_datetime acts s r == 0.
Proof.
  unfold pair_capacity.
  destruct (contributions to_datetime acts s r) as [|a l]; [discriminate|].
  apply py_or_lit_nonzero. discriminate.
Qed.

(** X23.  Whenever the skill analysis returns, [get_activity_skill_risk]
    answers true exactly for the activities that some reported bottleneck
    lists.  Such an activity has a variance multiplier above 1 and at most
    2; any other activity has none, so that the modulator falls back to
    1. *)
Theorem skill_risk_lookup (acts : list Activity) (result : SkillOverload)
    (id : string) :
  check_skill_overload to_datetime acts = Ret result ->
  (get_activity_skill_risk id result = true <->
   exists b, In b (skill_bottlenecks result) /\
             In id (bottleneck_activities b)) /\
  (get_activity_skill_risk id result = true ->
   exists v : Q,
     dget (variance_increase_map result) id = Some v /\
     1 < v /\ v <= 2) /\
  (get_activity_skill_risk id result = false ->
   dget (variance_increase_map result) id = None /\
   dget_or (variance_increase_map result) id 1 = 1).
Proof.
  intro Hret.
  destruct (check_skill_overload_returns _ _ _ Hret) as [demand [_ ->]].
  destruct (analyse_parts demand) as [Hagree _].
  cbv zeta in Hagree. specialize (Hagree id).
  unfold get_activity_skill_risk, dmem.
  destruct (dget (activity_skill_risks (analyse demand)) id) as [rs|].
  - destruct Hagree as [Hne [Hnd [Hin Hvar]]].
    split; [|split; [|discriminate]].
    + split; [intros _|reflexivity].
      destruct rs as [|s rs]; [congruence|].
      pose proof (proj1 (Hin s) (or_introl eq_refl)) as H.
      apply In_touches in H. destruct H as [b [Hb [_ Hid]]].
      exists b. split; assumption.
    + intros _. eexists. split; [exact Hvar|].
      assert (Hrange : 12 # 10 <= multiplier_for (List.length rs) /\
                       multiplier_for (List.length rs) <= 2).
      { apply multiplier_for_range. destruct rs; [congruence|simpl; lia]. }
      split; [|apply Hrange]. destruct Hrange as [Hlow _]. lra.
  - destruct Hagree as [Hvar Hout].
    split; [|split; [discriminate|]].
    + split; [discriminate|].
      intros [b [Hb Hid]]. exfalso. apply (Hout (skill b)).
      apply In_touches. exists b. repeat split; assumption.
    + intros _. split; [exact Hvar|]. unfold dget_or. rewrite Hvar.
      reflexivity.
Qed.

(** X24.  Whenever the skill analysis returns, every reported bottleneck
    lists at least one activity, and its time window is the hull of the
    windows of the activities it lists: no listed activity starts before
    the window or finishes after it, and both ends of the window are the
    dates of listed activities.  When an activity's planned date could not
    be read the corresponding end of the window is [NaT], and so is that
    date of every other listed activity. *)
Theorem skill_demand_windows (acts : list Activity) (result : SkillOverload)
    (b : Bottleneck) :
  check_skill_overload to_datetime acts = Ret result ->
  In b (skill_bottlenecks result) ->
  bottleneck_activities b <> [] /\
  bottleneck_activities b = map detail_activity_id (activity_details b) /\
  (forall d, In d (activity_details b) ->
     not_after (fst (time_window b)) (detail_start d) /\
     not_after (detail_finish d) (snd (time_window b))) /\
  (exists d, In d (activity_details b) /\
             detail_start d = fst (time_window b)) /\
  (exists d, In d (activity_details b) /\
             detail_finish d = snd (time_window b)).
Proof.
  intros Hret Hb.
  destruct (check_skill_overload_returns _ _ _ Hret) as [demand [Hd ->]].
  destruct (analyse_parts demand) as [_ Hbs]. cbv zeta in Hbs.
  apply Hbs in Hb. destruct Hb as [s [r [data [Hin [_ ->]]]]].
  destruct (build_skill_demand_entries acts demand Hd _ _ Hin)
    as [Hne [Hcover [Hs [Hf _]]]].
  unfold bottleneck_of. cbv zeta.
  cbn [bottleneck_activities activity_details time_window fst snd].
  split; [|split; [reflexivity|split; [exact Hcover|split; assumption]]].
  destruct (demand_activities data); [congruence|discriminate].
Qed.

(** X25.  The capacity taken for a (skill, resource) pair is never zero, so
    the overload percentage of a bottleneck is always defined; for every
    reported bottleneck the demand exceeds the capacity (for a demand at
    least a thousandth of an FTE away from the capacity, where the rounding
    of the binary64 sum cannot decide), and when the capacity is positive
    the reported percentage is at least 100. *)
Theorem overload_pct_at_least_100 (acts : list Activity)
    (result : SkillOverload) (b : Bottleneck) :
  check_skill_overload to_datetime acts = Ret result ->
  In b (skill_bottlenecks result) ->
  let capacity :=
    pair_capacity to_datetime acts (skill b) (bottleneck_resource_id b) in
  let demand :=
    pair_demand to_datetime acts (skill b) (bottleneck_resource_id b) in
  ~ capacity == 0 /\
  (clear_of_rounding to_datetime acts (skill b) (bottleneck_resource_id b) ->
   capacity < demand) /\
  (0 < capacity -> 100 <= overload_pct b).
Proof.
  intros Hret Hb. cbv zeta.
  destruct (check_skill_overload_returns _ _ _ Hret) as [demand [Hd ->]].
  destruct (demand_of_pair _ _ _ Hd) as [Hnd Hpair].
  destruct (analyse_parts demand) as [_ Hbs]. cbv zeta in Hbs.
  apply Hbs in Hb. destruct Hb as [s [r [data [Hin [Hover ->]]]]].
  cbn [skill bottleneck_resource_id bottleneck_of overload_pct].
  specialize (Hpair s r).
  rewrite (In_demand_get _ _ _ Hnd Hin) in Hpair.
  destruct Hpair as [_ [_ [Ht Hm]]].
  split; [apply pair_capacity_nonzero|].
  apply Qlt_bool_iff in Hover. rewrite Ht, Hm in Hover.
  split; [intros _; exact Hover|].
  intro Hpos. rewrite Ht, Hm. unfold py_round.
  change (inject_Z (10 ^ Z.of_nat 1)) with 10.
  apply Qle_shift_div_l; [reflexivity|].
  change (100 * 10) with (inject_Z 1000). rewrite <- Zle_Qle.
  apply round_half_even_ge.
  assert (Hratio : 1 <= pair_demand to_datetime acts s r
                        / pair_capacity to_datetime acts s r).
  { apply Qle_shift_div_l; [exact Hpos|]. lra. }
  change (inject_Z 1000) with 1000.
  set (ratio := pair_demand to_datetime acts s r
                / pair_capacity to_datetime acts s r) in *. lra.
Qed.

End Dates.

Lemma scenario_analysis_returns :
  exists result b,
    check_skill_overload Scenario.calendar Scenario.overloaded = Ret result /\
    skill_bottlenecks result = [b] /\
    skill b = "x" /\ bottleneck_resource_id b = "R001" /\
    get_activity_skill_risk "A-001" result = true.
Proof. eexists. eexists. repeat split; vm_compute; reflexivity. Qed.

Lemma skill_risk_lookup_witness :
  exists (result : SkillOverload) (v : Q),
    check_skill_overload Scenario.calendar Scenario.overloaded = Ret result /\
    dget (variance_increase_map result) "A-001" = Some v /\
    1 < v /\ v <= 2.
Proof.
  destruct scenario_analysis_returns as [result [b [Hret [_ [_ [_ Hrisk]]]]]].
  destruct (skill_risk_lookup Scenario.calendar Scenario.overloaded result
              "A-001" Hret) as [_ [H _]].
  destruct (H Hrisk) as [v Hv].
  exists result, v. split; [exact Hret|exact Hv].
Defined.

Lemma skill_demand_windows_witness :
  exists (result : SkillOverload) (b : Bottleneck),
    check_skill_overload Scenario.calendar Scenario.overloaded = Ret result /\
    In b (skill_bottlenecks result) /\
    bottleneck_activities b <> [].
Proof.
  destruct scenario_analysis_returns as [result [b [Hret [Hb _]]]].
  exists result, b. split; [exact Hret|].
  assert (Hin : In b (skill_bottlenecks result))
    by (rewrite Hb; left; reflexivity).
  split; [exact Hin|].
  apply (skill_demand_windows Scenario.calendar Scenario.overloaded result b
           Hret Hin).
Defined.

Lemma overload_pct_at_least_100_witness :
  exists (result : SkillOverload) (b : Bottleneck),
    check_skill_overload Scenario.calendar Scenario.overloaded = Ret result /\
    In b (skill_bottlenecks result) /\
    100 <= overload_pct b.
Proof.
  destruct scenario_analysis_returns as [result [b [Hret [Hb [Hs [Hr _]]]]]].
  exists result, b. split; [exact Hret|].
  assert (Hin : In b (skill_bottlenecks result))
    by (rewrite Hb; left; reflexivity).
  split; [exact Hin|].
  destruct (overload_pct_at_least_100 Scenario.calendar Scenario.overloaded
              result b Hret Hin) as [_ [_ H]].
  apply H. rewrite Hs, Hr. vm_compute. reflexivity.
Defined.

End SkillBottleneckFacts.

(** ** What-if twins ([core/mitigation.py]) *)

Module MitigationFacts.

Import DigitalTwin McForecaster Mitigation NxFacts.

Lemma dset_absent {V : Type} (d : odict V) (k : string) (v : V) :
  ~ In k (dkeys d) -> dset d k v = d ++ [(k, v)].
Proof.
  induction d as [|[k' v'] d IH]; intro H; [reflexivity|].
  simpl. destruct (String.eqb_spec k k') as [->|Hne].
  - exfalso. apply H. left. reflexivity.
  - rewrite IH; [reflexivity|]. intro Hin. apply H. right. exact Hin.
Qed.

Lemma In_dset_entry {V : Type} (d : odict V) (k : string) (v : V)
    (k' : string) (v' : V) :
  In (k', v') (dset d k v) -> In (k', v') d \/ (k' = k /\ v' = v).
Proof.
  induction d as [|[k0 v0] d IH]; simpl.
  - intros [[= <- <-]|[]]. right. split; reflexivity.
  - destruct (String.eqb_spec k k0) as [->|Hne]; simpl.
    + intros [[= <- <-]|H]; [right; split; reflexivity|left; right; exact H].
    + intros [H|H]; [left; left; exact H|].
      destruct (IH H) as [H'|H']; [left; right; exact H'|right; exact H'].
Qed.

Lemma index_activities_keyed (acts : list Activity) :
  keyed_by_id (index_activities acts).
Proof.
  induction acts as [|b l IH] using rev_ind; [intros k a []|].
  rewrite TwinBuildFacts.index_activities_snoc. intros k a H.
  apply In_dset_entry in H. destruct H as [H|[-> ->]];
    [apply (IH k a H)|reflexivity].
Qed.

Lemma dkeys_app {V : Type} (d1 d2 : odict V) :
  dkeys (d1 ++ d2) = dkeys d1 ++ dkeys d2.
Proof. unfold dkeys. apply map_app. Qed.

(** Indexing the values of an index gives the index back. *)
Lemma index_of_values (d : odict Activity) :
  NoDup (dkeys d) -> keyed_by_id d -> index_activities (dvalues d) = d.
Proof.
  induction d as [|[k a] d IH] using rev_ind; intros Hnd Hkey;
    [reflexivity|].
  unfold dvalues. rewrite map_app. simpl map.
  rewrite TwinBuildFacts.index_activities_snoc.
  rewrite dkeys_app in Hnd. simpl in Hnd.
  assert (Hk : k = activity_id a).
  { apply Hkey. apply in_or_app. right. left. reflexivity. }
  fold (dvalues d). rewrite IH.
  - rewrite <- Hk. apply dset_absent.
    apply NoDup_remove_2 in Hnd. rewrite app_nil_r in Hnd. exact Hnd.
  - apply NoDup_remove_1 in Hnd. rewrite app_nil_r in Hnd. exact Hnd.
  - intros k' a' H. apply Hkey. apply in_or_app. left. exact H.
Qed.

(** Replacing values by values with the same ids keeps the shape of the
    index. *)
Lemma index_of_replaced (g : string -> Activity -> Activity)
    (d : odict Activity) :
  NoDup (dkeys d) ->
  (forall k a, In (k, a) d -> activity_id (g k a) = k) ->
  index_activities (map (fun item => g (fst item) (snd item)) d)
  = map (fun item => (fst item, g (fst item) (snd item))) d.
Proof.
  induction d as [|[k a] d IH] using rev_ind; intros Hnd Hid;
    [reflexivity|].
  rewrite !map_app. simpl map.
  rewrite TwinBuildFacts.index_activities_snoc.
  rewrite dkeys_app in Hnd. simpl in Hnd.
  rewrite IH.
  - rewrite (Hid k a) by (apply in_or_app; right; left; reflexivity).
    apply dset_absent. unfold dkeys. rewrite map_map. simpl.
    apply NoDup_remove_2 in Hnd. rewrite app_nil_r in Hnd. exact Hnd.
  - apply NoDup_remove_1 in Hnd. rewrite app_nil_r in Hnd. exact Hnd.
  - intros k' a' H. apply Hid. apply in_or_app. left. exact H.
Qed.

Lemma dget_replaced (g : string -> Activity -> Activity)
    (d : odict Activity) (k : string) :
  dget (map (fun item => (fst item, g (fst item) (snd item))) d) k
  = option_map (g k) (dget d k).
Proof.
  induction d as [|[k0 a0] d IH]; [reflexivity|].
  simpl. destruct (String.eqb_spec k k0) as [->|Hne]; [reflexivity|exact IH].
Qed.

(** The graph depends on the ids and the predecessor lists only. *)
Lemma fold_add_activity_dependencies (l1 : list Activity) :
  forall (l2 : list Activity) (g : Nx.DiGraph),
  dependencies l1 = dependencies l2 ->
  fold_left add_activity l1 g = fold_left add_activity l2 g.
Proof.
  induction l1 as [|a l1 IH]; intros [|b l2] g E; try discriminate;
    [reflexivity|].
  unfold dependencies in E. simpl in E. injection E as Eid Epred Erest.
  simpl.
  assert (Estep : add_activity g a = add_activity g b)
    by (unfold add_activity; rewrite Eid, Epred; reflexivity).
  rewrite Estep. apply IH. exact Erest.
Qed.

(** X26.  Cloning a twin that was built from activities yields an equal
    twin: the same activity dictionary, the same graph, no cycle flag. *)
Theorem clone_twin_is_exact
    (simple_cycles : Nx.DiGraph -> outcome (list (list string)))
    (acts : list Activity) (twin : DigitalTwin) :
  __init__ simple_cycles acts = Ret twin ->
  clone_twin simple_cycles twin = Ret twin.
Proof.
  intro H. pose proof (TwinBuildFacts.init_cases simple_cycles acts) as Hc.
  rewrite H in Hc. destruct Hc as [_ ->].
  unfold clone_twin. cbn [activities]. rewrite map_id.
  unfold __init__ in *.
  rewrite index_of_values; [exact H| |apply index_activities_keyed].
  apply (TwinBuildFacts.index_activities_spec acts).
Qed.

Lemma clone_twin_is_exact_witness :
  clone_twin Scenario.no_cycles_listed Scenario.chain_twin
  = Ret Scenario.chain_twin.
Proof.
  apply (clone_twin_is_exact Scenario.no_cycles_listed Scenario.chain_AB).
  reflexivity.
Defined.

(** X27.  On a twin that was built from activities,
    [modify_activity_duration] raises [ValueError] for an unknown activity
    id; for a known id it always returns a twin, with the same dependency
    graph and the same ids, in which the activity is replaced by the
    modified one and every other activity is unchanged. *)
Theorem modify_activity_duration_outcome
    (simple_cycles : Nx.DiGraph -> outcome (list (list string)))
    (acts : list Activity) (twin : DigitalTwin) (id : string)
    (new_duration : option Q) (reduce_risk : bool) (new_fte : option Q) :
  __init__ simple_cycles acts = Ret twin ->
  match dget (activities twin) id with
  | None =>
      modify_activity_duration simple_cycles twin id new_duration
        reduce_risk new_fte = Raise ValueError
  | Some a =>
      exists twin' : DigitalTwin,
        modify_activity_duration simple_cycles twin id new_duration
          reduce_risk new_fte = Ret twin' /\
        graph twin' = graph twin /\ has_cycles twin' = false /\
        dkeys (activities twin') = dkeys (activities twin) /\
        dget (activities twin') id
        = Some (modified_activity a new_duration reduce_risk new_fte) /\
        forall other, other <> id ->
          dget (activities twin') other = dget (activities twin) other
  end.
Proof.
  intro H. pose proof (TwinBuildFacts.init_cases simple_cycles acts) as Hc.
  rewrite H in Hc. destruct Hc as [_ ->].
  unfold modify_activity_duration. cbn [activities graph].
  unfold __init__, _build in H.
  destruct (TwinBuildFacts.index_activities_spec acts) as [Hnd _].
  pose proof (index_activities_keyed acts) as Hkey.
  set (d := index_activities acts) in *.
  destruct (dget d id) as [a|] eqn:Ea; [|reflexivity].
  cbv zeta.
  set (modified := modified_activity a new_duration reduce_risk new_fte).
  set (g := fun (k : string) (x : Activity) =>
              if String.eqb k id then modified else x).
  assert (Hida : activity_id a = id).
  { symmetry. apply Hkey. apply dget_In. exact Ea. }
  assert (Hsame : forall k x, In (k, x) d ->
            activity_id (g k x) = activity_id x /\
            Models.predecessors (g k x) = Models.predecessors x).
  { intros k x Hin. unfold g.
    destruct (String.eqb_spec k id) as [->|Hne]; [|split; reflexivity].
    assert (x = a).
    { pose proof (ScheduleFacts.In_dget_NoDup d id x Hnd Hin) as E.
      congruence. }
    subst x. split; reflexivity. }
  assert (Hindex :
    index_activities
      (map (fun item => if String.eqb (fst item) id then modified
                        else snd item) d)
    = map (fun item => (fst item, g (fst item) (snd item))) d).
  { apply (index_of_replaced g d Hnd).
    intros k x Hin. destruct (Hsame k x Hin) as [E _]. rewrite E.
    symmetry. apply Hkey. exact Hin. }
  assert (Hgraph :
    build_graph (map (fun item => (fst item, g (fst item) (snd item))) d)
    = build_graph d).
  { unfold build_graph. apply fold_add_activity_dependencies.
    unfold dependencies, dvalues. rewrite !map_map. simpl.
    apply map_ext_in. intros [k x] Hin. simpl.
    destruct (Hsame k x Hin) as [E1 E2]. rewrite E1, E2. reflexivity. }
  unfold __init__, _build. rewrite Hindex, Hgraph.
  destruct (Nx.topological_sort (build_graph d)) as [order|e];
    cbn [bind try_except] in *.
  - eexists. split; [reflexivity|].
    cbn [graph has_cycles activities].
    split; [reflexivity|]. split; [reflexivity|]. split.
    { unfold dkeys. rewrite map_map. reflexivity. }
    split.
    + rewrite dget_replaced, Ea. unfold g. simpl.
      rewrite String.eqb_refl. reflexivity.
    + intros other Hne. rewrite dget_replaced. unfold g.
      apply String.eqb_neq in Hne. rewrite Hne.
      destruct (dget d other); reflexivity.
  - destruct (issubclass e NetworkXError); discriminate.
Qed.

Lemma modify_activity_duration_outcome_witness :
  exists twin' : DigitalTwin,
    modify_activity_duration Scenario.no_cycles_listed Scenario.chain_twin
      "B" (Some 2) false None = Ret twin' /\
    graph twin' = graph Scenario.chain_twin /\
    dget (activities twin') "A" = dget (activities Scenario.chain_twin) "A".
Proof.
  pose proof (modify_activity_duration_outcome Scenario.no_cycles_listed
                Scenario.chain_AB Scenario.chain_twin "B" (Some 2) false None
                eq_refl) as H.
  change (dget (activities Scenario.chain_twin) "B")
    with (Some (Scenario.task "B" ["A"] 3)) in H.
  destruct H as [twin' [Hret [Hg [_ [_ [_ Hother]]]]]].
  exists twin'. split; [exact Hret|]. split; [exact Hg|].
  apply Hother. discriminate.
Defined.

Section Draws.

Variable rng : Type.
Variable draw_triangular : rng -> Q -> Q -> Q -> Q * rng.
Variable draw_random : rng -> Q * rng.
Variable draw_uniform : rng -> Q -> Q -> Q * rng.

(** X28.  For an activity with a positive remaining duration, a what-if
    change of the planned and baseline duration (and of the FTE) changes
    nothing in the standard sampling of its duration: the triangle is built
    from the remaining duration, which the modification never touches. *)
Theorem duration_change_ignored_when_remaining (s : rng) (a : Activity)
    (new_duration new_fte : option Q) (n : nat) (v : Q) :
  given (remaining_duration a) v ->
  standard_shape (modified_activity a new_duration false new_fte)
  = standard_shape a /\
  simulate_activity_duration rng draw_triangular draw_random draw_uniform s
    (modified_activity a new_duration false new_fte) n None
  = simulate_activity_duration rng draw_triangular draw_random draw_uniform s
      a n None.
Proof.
  intro Hv.
  assert (Hfirst : forall x y, first_duration
            (mkActivity (activity_id a) (name a) (planned_start a)
               (planned_finish a) x y (remaining_duration a)
               (percent_complete a) (total_float a) (risk_probability a)
               (risk_delay_impact_days a) (Models.predecessors a)
               (Models.successors a) (on_critical_path a) (resource_id a)
               (match new_fte with
                | Some f => Some f
                | None => fte_allocation a
                end) (resource_max_fte a) (skill_tags a))
            = remaining_duration a).
  { intros x y. unfold first_duration, py_or.
    cbn [remaining_duration planned_duration baseline_duration].
    rewrite (UncertaintyModulatorFacts.truthy_given _ _ Hv).
    rewrite (UncertaintyModulatorFacts.truthy_given _ _ Hv). reflexivity. }
  assert (Horig : first_duration a = remaining_duration a).
  { unfold first_duration, py_or.
    rewrite (UncertaintyModulatorFacts.truthy_given _ _ Hv).
    rewrite (UncertaintyModulatorFacts.truthy_given _ _ Hv). reflexivity. }
  assert (Hshape :
    standard_shape (modified_activity a new_duration false new_fte)
    = standard_shape a).
  { unfold standard_shape, modified_activity. rewrite Hfirst, Horig.
    reflexivity. }
  split; [exact Hshape|].
  unfold simulate_activity_duration. rewrite Hshape. reflexivity.
Qed.

End Draws.

Lemma duration_change_ignored_when_remaining_witness :
  standard_shape
    (modified_activity (Scenario.remaining_only "A" 10) (Some 2) false None)
  = standard_shape (Scenario.remaining_only "A" 10).
Proof.
  destruct (duration_change_ignored_when_remaining nat
              Scenario.mode_rng_triangular Scenario.mode_rng_random
              Scenario.mode_rng_uniform 0%nat
              (Scenario.remaining_only "A" 10) (Some 2) None 3 10) as [H _].
  - split; reflexivity.
  - exact H.
Defined.

End MitigationFacts.

(** ** When the standard forecast returns ([core/mc_forecaster.py]) *)

Module ForecastOutcomeFacts.

Import DigitalTwin McForecaster NxFacts.

Lemma built_twin_sorts
    (simple_cycles : Nx.DiGraph -> outcome (list (list string)))
    (acts : list Activity) (twin : DigitalTwin) :
  __init__ simple_cycles acts = Ret twin ->
  exists order, Nx.topological_sort (graph twin) = Ret order.
Proof.
  intro H. pose proof (TwinBuildFacts.init_cases simple_cycles acts) as Hc.
  rewrite H in Hc. destruct Hc as [Hac ->]. cbn [graph].
  destruct (topological_sort_acyclic _
              (well_formed_build_graph (index_activities acts)) Hac)
    as [order [Hts _]].
  exists order. exact Hts.
Qed.

Section Runs.

Variable rng : Type.
Variable draw_triangular : rng -> Q -> Q -> Q -> Q * rng.
Variable draw_random : rng -> Q * rng.
Variable draw_uniform : rng -> Q -> Q -> Q * rng.
Variable np_sqrt : Q -> Q.
Variable set_iter : list string -> list string.

Local Abbreviation simulate :=
  (simulate_activity_duration rng draw_triangular draw_random draw_uniform).
Local Abbreviation simulate_everything :=
  (simulate_all rng draw_triangular draw_random draw_uniform).
Local Abbreviation loop :=
  (simulation_loop rng draw_triangular draw_random draw_uniform set_iter).
Local Abbreviation forecast :=
  (monte_carlo_forecast rng draw_triangular draw_random draw_uniform np_sqrt
     set_iter).

Lemma simulate_all_returns (items : list (string * Activity)) :
  (forall a, In a (dvalues items) -> 1 # 10 <= starting_duration a) ->
  forall (s : rng) (sim0 : odict Q),
  exists (sim : odict Q) (s' : rng),
    simulate_everything s items None sim0 = Ret (sim, s').
Proof.
  induction items as [|[k a] items IH]; intros Hall s sim0.
  - exists sim0, s. reflexivity.
  - cbn [simulate_all].
    destruct (SamplingFacts.standard_sampling_cases rng draw_triangular
                draw_random draw_uniform s a 1) as [_ Hret].
    destruct Hret as [durations [s1 [Hsim [Hlen _]]]].
    { apply Hall. left. reflexivity. }
    rewrite Hsim. cbn [bind].
    destruct durations as [|d0 rest]; [discriminate|].
    apply IH. intros b Hb. apply Hall. right. exact Hb.
Qed.

Lemma simulate_all_raises (items : list (string * Activity)) :
  (exists a, In a (dvalues items) /\ starting_duration a < 1 # 10) ->
  forall (s : rng) (sim0 : odict Q),
  simulate_everything s items None sim0 = Raise ValueError.
Proof.
  induction items as [|[k a] items IH]; intros [b [Hb Hshort]] s sim0;
    [contradiction|].
  cbn [simulate_all].
  destruct (SamplingFacts.standard_sampling_cases rng draw_triangular
              draw_random draw_uniform s a 1) as [Hraise Hret].
  destruct (Qlt_le_dec (starting_duration a) (1 # 10)) as [Ha|Ha].
  - rewrite (Hraise Ha). reflexivity.
  - destruct (Hret Ha) as [durations [s1 [Hsim [Hlen _]]]].
    rewrite Hsim. cbn [bind].
    destruct durations as [|d0 rest]; [discriminate|].
    apply IH. exists b. split; [|exact Hshort].
    destruct Hb as [<-|Hb]; [simpl in Hshort; lra|exact Hb].
Qed.

Lemma simulation_loop_returns (twin : DigitalTwin) (order : list string) :
  Nx.topological_sort (graph twin) = Ret order ->
  (forall a, In a (dvalues (activities twin)) ->
             1 # 10 <= starting_duration a) ->
  forall (runs : nat) (s : rng) (pd : list Q) (counts : odict Z),
  exists (s' : rng) (pd' : list Q) (counts' : odict Z),
    loop runs twin None s pd counts = Ret (s', pd', counts') /\
    List.length pd' = (List.length pd + runs)%nat.
Proof.
  intros Hts Hall. induction runs as [|k IH]; intros s pd counts.
  - exists s, pd, counts. split; [reflexivity|simpl; lia].
  - cbn [simulation_loop].
    destruct (simulate_all_returns (activities twin) Hall s [])
      as [sim [s1 Hsim]].
    rewrite Hsim. cbn [bind].
    unfold compute_critical_path_length, compute_critical_path_activities.
    rewrite Hts. cbn [bind try_except].
    destruct (forward_pass (graph twin) sim order) as [es ef].
    destruct (backward_pass (graph twin) sim (max_list (dvalues ef) 0) order)
      as [ls lf].
    cbv beta iota zeta. cbn [bind try_except].
    match goal with
    | |- context [loop k twin None s1 ?pd1 ?c1] =>
        destruct (IH s1 pd1 c1) as [s' [pd' [counts' [Hloop Hlen]]]]
    end.
    exists s', pd', counts'. split; [exact Hloop|].
    rewrite Hlen, length_app. simpl. lia.
Qed.

(** X29.  The standard forecast on a twin that was built from activities,
    with at least one run: it returns a forecast when every activity has a
    starting duration of at least a tenth of a day and at most 10^9 days
    (far from the range in which binary64 sums overflow), and it raises
    [ValueError] as soon as one activity has a starting duration below a
    tenth of a day. *)
Theorem standard_forecast_outcome
    (simple_cycles : Nx.DiGraph -> outcome (list (list string)))
    (acts : list Activity) (twin : DigitalTwin) (s : rng)
    (num_simulations : nat) :
  __init__ simple_cycles acts = Ret twin ->
  (1 <= num_simulations)%nat ->
  ((forall a, In a (dvalues (activities twin)) ->
              1 # 10 <= starting_duration a /\
              starting_duration a <= 1000000000) ->
   exists (r : ForecastResult) (s' : rng),
     forecast s twin num_simulations None = Ret (r, s')) /\
  ((exists a, In a (dvalues (activities twin)) /\
              starting_duration a < 1 # 10) ->
   forecast s twin num_simulations None = Raise ValueError).
Proof.
  intros Hinit Hruns. split.
  - intro Hrange.
    assert (Hall : forall a, In a (dvalues (activities twin)) ->
                     1 # 10 <= starting_duration a)
      by (intros a Ha; apply (Hrange a Ha)).
    destruct (built_twin_sorts simple_cycles acts twin Hinit)
      as [order Hts].
    unfold monte_carlo_forecast.
    destruct (simulation_loop_returns twin order Hts Hall num_simulations s
                [] (map (fun activity_id => (activity_id, 0%Z))
                        (dkeys (activities twin))))
      as [s' [pd' [counts' [Hloop Hlen]]]].
    rewrite Hloop. cbn [bind].
    destruct pd' as [|x rest]; [simpl in Hlen; lia|].
    eexists. eexists. reflexivity.
  - intro Hshort. unfold monte_carlo_forecast.
    destruct num_simulations as [|k]; [lia|].
    cbn [simulation_loop].
    rewrite (simulate_all_raises (activities twin) Hshort). reflexivity.
Qed.

End Runs.

Lemma standard_forecast_outcome_witness :
  (exists (r : ForecastResult) (s' : nat),
     Scenario.chain_forecast Scenario.insertion_order 3 = Ret (r, s')) /\
  monte_carlo_forecast nat Scenario.mode_rng_triangular
    Scenario.mode_rng_random Scenario.mode_rng_uniform Scenario.toy_sqrt
    Scenario.insertion_order 0%nat
    (mkDigitalTwin
       (index_activities [Scenario.task "A" [] (1 # 20)])
       (build_graph (index_activities [Scenario.task "A" [] (1 # 20)]))
       false None) 3 None
  = Raise ValueError.
Proof.
  split.
  - apply (standard_forecast_outcome nat Scenario.mode_rng_triangular
             Scenario.mode_rng_random Scenario.mode_rng_uniform
             Scenario.toy_sqrt Scenario.insertion_order
             Scenario.no_cycles_listed Scenario.chain_AB Scenario.chain_twin
             0%nat 3); [reflexivity|lia|].
    intros a [<-|[<-|[]]]; split; vm_compute; discriminate.
  - apply (standard_forecast_outcome nat Scenario.mode_rng_triangular
             Scenario.mode_rng_random Scenario.mode_rng_uniform
             Scenario.toy_sqrt Scenario.insertion_order
             Scenario.no_cycles_listed [Scenario.task "A" [] (1 # 20)] _
             0%nat 3); [reflexivity|lia|].
    exists (Scenario.task "A" [] (1 # 20)).
    split; [left; reflexivity|vm_compute; reflexivity].
Defined.

End ForecastOutcomeFacts.

(** ** Feature blocks feeding the scorer ([core/features.py],
    [core/risk_model.py]) *)

Module FeatureBlockFacts.

Import FeatureBlocks.

(** X30.  Two blocks of [compute_features] and what the scorer makes of
    them.  The progress slip is never negative, is at most 1 when the
    percentage complete is not negative, and is 0 for a finished activity
    or an empty planning window.  The resource is flagged as overbooked
    exactly when the FTE ratio exceeds 1, and the features of an overbooked
    activity get the anomaly score 100 and the overload score
    [min(100, (ratio - 1) * 100)]. *)
Theorem feature_blocks_ranges (a : Activity)
    (planned_start planned_finish reference_datetime : Q) :
  let slip := progress_slip planned_start planned_finish reference_datetime
                (percent_complete a) in
  let ratio := fst (resource_block a) in
  let overbooked := snd (resource_block a) in
  (0 <= slip /\ (0 <= percent_complete a -> slip <= 1)) /\
  (100 <= percent_complete a \/ planned_finish <= planned_start ->
   slip == 0) /\
  (overbooked = true <-> 1 < ratio) /\
  (forall f : RiskModel.Features,
     RiskModel.fte_ratio f = Some ratio ->
     RiskModel.resource_black_hole_flag f
     = Some (resource_black_hole_flag overbooked) ->
     overbooked = true ->
     RiskModel._compute_anomaly_score f == 100 /\
     RiskModel._compute_resource_overload_score f
     == Qmin 100 ((ratio - 1) * 100)).
Proof.
  cbv zeta.
  assert (Hpc : percent_complete a / 100 == percent_complete a * (1 # 100))
    by field.
  split; [|split; [|split]].
  - unfold progress_slip. cbv zeta.
    destruct (Qlt_bool 0 (planned_finish - planned_start));
      [|split; [lra|intros; lra]].
    match goal with
    | |- context [Qmin 1 (Qmax 0 ?e)] => generalize e
    end.
    intro e. rewrite Hpc. split; [|intro]; minmax_lra.
  - unfold progress_slip. cbv zeta.
    destruct (Qlt_bool 0 (planned_finish - planned_start)) eqn:E;
      bool_to_prop; intros [H|H]; try lra; try reflexivity.
    match goal with
    | |- context [Qmin 1 (Qmax 0 ?e)] => generalize e
    end.
    intro e. rewrite Hpc. minmax_lra.
  - unfold resource_block.
    destruct (resource_max_fte a) as [mx|]; cbn [fst snd].
    + destruct (truthy (Some mx) && Qlt_bool 0 mx); cbn [fst snd].
      * apply Qlt_bool_iff.
      * split; [discriminate|intro; lra].
    + split; [discriminate|intro; lra].
  - intros f Hratio Hflag Hover.
    assert (Hr : 1 < fst (resource_block a)).
    { revert Hover. unfold resource_block.
      destruct (resource_max_fte a) as [mx|]; cbn [fst snd];
        [|discriminate].
      destruct (truthy (Some mx) && Qlt_bool 0 mx); cbn [fst snd];
        [apply Qlt_bool_iff|discriminate]. }
    split.
    + unfold RiskModel._compute_anomaly_score. cbv zeta.
      rewrite Hflag, Hover. cbn [RiskModel.get resource_black_hole_flag].
      change (Qlt_bool (5 # 10) 1) with true. rewrite orb_true_r.
      reflexivity.
    + unfold RiskModel._compute_resource_overload_score. cbv zeta.
      rewrite Hratio. cbn [RiskModel.get].
      apply Qlt_bool_iff in Hr. rewrite Hr. apply Qlt_bool_iff in Hr.
      minmax_lra.
Qed.

Lemma feature_blocks_ranges_witness :
  progress_slip 0 10 5 (Models.percent_complete (Scenario.task "A" [] 5))
  <= 1.
Proof.
  destruct (feature_blocks_ranges (Scenario.task "A" [] 5) 0 10 5)
    as [[_ H] _].
  apply H. discriminate.
Defined.

End FeatureBlockFacts.
